(** * The recurring-task scheduler of [src/hooks/useScheduler.ts]

    A shallow embedding of the [useScheduler] hook: the task collection and
    its lifecycle operations ([addTask], [updateTask], [deleteTask],
    [toggleTaskActive]), the next-run-time computation
    ([calculateNextRunTime]), [runTask], the scan pass [checkTasks],
    [loadTasks], [startScheduler] and [stopScheduler], together with the
    part of the host (the ECMAScript [Date] object, the string-to-number
    conversion, interval timers, local storage) that these functions call,
    and the notifications and recent summaries of the application context.

    How the host is modelled:
    - a [Date] is its time value, an integer number of milliseconds or NaN,
      and the [Date] functions follow the definitions of the ECMAScript
      specification ([Day], [MakeDay], [TimeClip], ...), with local time at
      a constant offset from UTC: a host with daylight-saving transitions
      is outside the model, and the statements that depend on this say
      so;
    - the clock is the sequence of its readings and [Math.random] the
      sequence of its draws, each [new Date()] or [Date.now()] taking the
      next reading;
    - the hook's state, the notifications and the storage entry are fields
      of one [World], which the operations transform; an operation returns
      normally or throws;
    - a functional update [setTasks(prev => ...)] is applied at once, as
      React does while the hook has no update pending; with one pending,
      React applies it at the next render, after the rest of the calling
      function, which moves the clock reading and the notifications made
      inside the updater behind those the caller makes later.  No
      statement below depends on which of the two it is, except where it
      says that a notification is put in front;
    - an [async] function runs to its end before the next step is taken;
      the execution callback of the options, [onTaskRun], only fulfils or
      rejects, and [runTaskWith] is [runTask] for a callback that also
      acts on the state while it is awaited, by calling the operations of
      the hook;
    - the engine allows a bounded number of nested calls and raises a
      [RangeError] beyond it;
    - a callback created by a render sees the state of that render: where
      it matters, the values it closed over are arguments ([runTaskIn],
      [startSchedulerIn], [stopSchedulerIn]);
    - a stored collection is read back through [JSON.stringify] and
      [JSON.parse], which turn a valid date into its ISO string and an
      invalid one into [null]. *)

From stdpp Require Import base numbers list strings option pretty.
From Stdlib Require Import ZArith Lia Ascii Qcanon.

Local Open Scope Z_scope.

(** ** ECMAScript numbers and time values

    Every number the scheduler handles is an integer or NaN: a time value is
    an integral number of milliseconds since the epoch or NaN (an "Invalid
    Date"), and the arguments of the [Date] setters go through
    [ToIntegerOrInfinity], any non-finite one making the result NaN.  A
    [number] is therefore [Some z] or [None] for NaN. *)

Definition number := option Z.
Definition NaN : number := None.

Definition num_add (a b : number) : number := x ← a; y ← b; Some (x + y).
Definition num_sub (a b : number) : number := x ← a; y ← b; Some (x - y).

(** [a || b] on numbers: [0] and NaN are falsy. *)
Definition num_or (a b : number) : number :=
  match a with
  | Some 0 | None => b
  | Some _ => a
  end.

(** [a <= b], false as soon as one side is NaN. *)
Definition num_le (a b : number) : bool :=
  match a, b with
  | Some x, Some y => bool_decide (x ≤ y)
  | _, _ => false
  end.

Module JSDate.

(** A [Date] object is identified with its time value. *)
Definition Date := number.

Definition msPerSecond : Z := 1000.
Definition msPerMinute : Z := 60000.
Definition msPerHour : Z := 3600000.
Definition msPerDay : Z := 86400000.
Definition maxTime : Z := 8640000000000000.

Definition Day (t : Z) : Z := t / msPerDay.
Definition TimeWithinDay (t : Z) : Z := t mod msPerDay.

Definition isLeap (y : Z) : bool :=
  bool_decide (y mod 4 = 0) && (negb (bool_decide (y mod 100 = 0)) || bool_decide (y mod 400 = 0)).
Definition DaysInYear (y : Z) : Z := if isLeap y then 366 else 365.
Definition DayFromYear (y : Z) : Z :=
  365 * (y - 1970) + (y - 1969) / 4 - (y - 1901) / 100 + (y - 1601) / 400.

(** The year containing day [d]: an estimate from the mean length of a
    year, corrected by at most one (see [YearFromDay_spec]). *)
Definition YearFromDay (d : Z) : Z :=
  let y := 1970 + (d * 400) / 146097 in
  if bool_decide (d < DayFromYear y) then y - 1
  else if bool_decide (DayFromYear (y + 1) ≤ d) then y + 1
  else y.

Definition YearFromTime (t : Z) : Z := YearFromDay (Day t).
Definition InLeapYear (t : Z) : Z := if isLeap (YearFromTime t) then 1 else 0.
Definition DayWithinYear (t : Z) : Z := Day t - DayFromYear (YearFromTime t).

(** Number of days of the year before month [m] (0 = January). *)
Definition daysBeforeMonth (m leap : Z) : Z :=
  if bool_decide (m ≤ 0) then 0
  else if bool_decide (m = 1) then 31
  else if bool_decide (m = 2) then 59 + leap
  else if bool_decide (m = 3) then 90 + leap
  else if bool_decide (m = 4) then 120 + leap
  else if bool_decide (m = 5) then 151 + leap
  else if bool_decide (m = 6) then 181 + leap
  else if bool_decide (m = 7) then 212 + leap
  else if bool_decide (m = 8) then 243 + leap
  else if bool_decide (m = 9) then 273 + leap
  else if bool_decide (m = 10) then 304 + leap
  else 334 + leap.

Definition MonthFromTime (t : Z) : Z :=
  let d := DayWithinYear t in
  let leap := InLeapYear t in
  if bool_decide (d < 31) then 0
  else if bool_decide (d < 59 + leap) then 1
  else if bool_decide (d < 90 + leap) then 2
  else if bool_decide (d < 120 + leap) then 3
  else if bool_decide (d < 151 + leap) then 4
  else if bool_decide (d < 181 + leap) then 5
  else if bool_decide (d < 212 + leap) then 6
  else if bool_decide (d < 243 + leap) then 7
  else if bool_decide (d < 273 + leap) then 8
  else if bool_decide (d < 304 + leap) then 9
  else if bool_decide (d < 334 + leap) then 10
  else 11.

Definition DateFromTime (t : Z) : Z :=
  DayWithinYear t - daysBeforeMonth (MonthFromTime t) (InLeapYear t) + 1.

Definition WeekDay (t : Z) : Z := (Day t + 4) mod 7.

Definition HourFromTime (t : Z) : Z := (t / msPerHour) mod 24.
Definition MinFromTime (t : Z) : Z := (t / msPerMinute) mod 60.
Definition SecFromTime (t : Z) : Z := (t / msPerSecond) mod 60.
Definition msFromTime (t : Z) : Z := t mod msPerSecond.

Definition MakeTime (hour min sec ms : Z) : Z :=
  hour * msPerHour + min * msPerMinute + sec * msPerSecond + ms.

Definition MakeDay (year month date : Z) : Z :=
  let ym := year + month / 12 in
  let mn := month mod 12 in
  DayFromYear ym + daysBeforeMonth mn (if isLeap ym then 1 else 0) + date - 1.

Definition MakeDate (day time : Z) : Z := day * msPerDay + time.

Definition TimeClip (t : Z) : Date :=
  if bool_decide (Z.abs t ≤ maxTime) then Some t else NaN.

(** [n] in decimal, with zeros in front up to [width] characters. *)
Fixpoint zeros (n : nat) : string :=
  match n with
  | O => EmptyString
  | S n' => String "0" (zeros n')
  end.

Definition padStart (width : nat) (n : Z) : string :=
  zeros (width - String.length (pretty n)) +:+ pretty n.

(** [toISOString] of a valid date: the year has four digits from 0 to
    9999 and a sign and six digits otherwise. *)
Definition toISOString (t : Z) : string :=
  let y := YearFromTime t in
  (if bool_decide (0 ≤ y ≤ 9999) then padStart 4 y
   else (if bool_decide (y < 0) then "-" else "+") +:+ padStart 6 (Z.abs y))
  +:+ "-" +:+ padStart 2 (MonthFromTime t + 1)
  +:+ "-" +:+ padStart 2 (DateFromTime t)
  +:+ "T" +:+ padStart 2 (HourFromTime t)
  +:+ ":" +:+ padStart 2 (MinFromTime t)
  +:+ ":" +:+ padStart 2 (SecFromTime t)
  +:+ "." +:+ padStart 3 (msFromTime t) +:+ "Z".

Section LocalTime.
(** The offset of local time from UTC in milliseconds, taken constant
    (a zone without daylight-saving transitions). *)
Variable LocalTZA : Z.

Definition LocalTime (t : Z) : Z := t + LocalTZA.
Definition UTC (t : Z) : Z := t - LocalTZA.

Definition getHours (d : Date) : number := t ← d; Some (HourFromTime (LocalTime t)).
Definition getDate (d : Date) : number := t ← d; Some (DateFromTime (LocalTime t)).
Definition getDay (d : Date) : number := t ← d; Some (WeekDay (LocalTime t)).
Definition getMonth (d : Date) : number := t ← d; Some (MonthFromTime (LocalTime t)).

Definition setHours (d : Date) (hour : number) : Date :=
  t ← d; h ← hour;
  let lt := LocalTime t in
  TimeClip (UTC (MakeDate (Day lt) (MakeTime h (MinFromTime lt) (SecFromTime lt) (msFromTime lt)))).

Definition setMinutes (d : Date) (min : number) : Date :=
  t ← d; m ← min;
  let lt := LocalTime t in
  TimeClip (UTC (MakeDate (Day lt) (MakeTime (HourFromTime lt) m (SecFromTime lt) (msFromTime lt)))).

Definition setSeconds (d : Date) (sec : number) : Date :=
  t ← d; s ← sec;
  let lt := LocalTime t in
  TimeClip (UTC (MakeDate (Day lt) (MakeTime (HourFromTime lt) (MinFromTime lt) s (msFromTime lt)))).

Definition setMilliseconds (d : Date) (ms : number) : Date :=
  t ← d; m ← ms;
  let lt := LocalTime t in
  TimeClip (UTC (MakeDate (Day lt) (MakeTime (HourFromTime lt) (MinFromTime lt) (SecFromTime lt) m))).

Definition setDate (d : Date) (date : number) : Date :=
  t ← d; dt ← date;
  let lt := LocalTime t in
  TimeClip (UTC (MakeDate (MakeDay (YearFromTime lt) (MonthFromTime lt) dt) (TimeWithinDay lt))).

Definition setMonth (d : Date) (month : number) : Date :=
  t ← d; m ← month;
  let lt := LocalTime t in
  TimeClip (UTC (MakeDate (MakeDay (YearFromTime lt) m (DateFromTime lt)) (TimeWithinDay lt))).
End LocalTime.

End JSDate.

Import JSDate.

(** ** Strings: [split] and the string-to-number conversion *)

Module JSString.

(** A string is the sequence of the bytes of its UTF-8 encoding. *)

(** [s.split(sep)] for a one-character separator of the ASCII range: never
    empty, and [[s]] when [sep] does not occur in [s]. *)
Fixpoint split (sep : ascii) (s : string) : list string :=
  match s with
  | EmptyString => [EmptyString]
  | String c r =>
      if bool_decide (c = sep) then EmptyString :: split sep r
      else match split sep r with
           | h :: t => String c h :: t
           | [] => [String c EmptyString]
           end
  end.

(** White space and line terminators ([StrWhiteSpaceChar]) by the length
    of their encoding: TAB, LF, VT, FF, CR and SP; U+00A0; and U+1680,
    U+2000 to U+200A, U+2028, U+2029, U+202F, U+205F, U+3000 and U+FEFF. *)
Definition isWhiteSpace1 (c : ascii) : bool :=
  let n := nat_of_ascii c in
  bool_decide (n = 9 ∨ n = 10 ∨ n = 11 ∨ n = 12 ∨ n = 13 ∨ n = 32)%nat.

Definition isWhiteSpace2 (c1 c2 : ascii) : bool :=
  bool_decide (nat_of_ascii c1 = 194 ∧ nat_of_ascii c2 = 160)%nat.

Definition isWhiteSpace3 (c1 c2 c3 : ascii) : bool :=
  let n1 := nat_of_ascii c1 in
  let n2 := nat_of_ascii c2 in
  let n3 := nat_of_ascii c3 in
  bool_decide
    ((n1 = 225 ∧ n2 = 154 ∧ n3 = 128)
     ∨ (n1 = 226 ∧ n2 = 128 ∧ (128 ≤ n3 ≤ 138 ∨ n3 = 168 ∨ n3 = 169 ∨ n3 = 175))
     ∨ (n1 = 226 ∧ n2 = 129 ∧ n3 = 159)
     ∨ (n1 = 227 ∧ n2 = 128 ∧ n3 = 128)
     ∨ (n1 = 239 ∧ n2 = 187 ∧ n3 = 191))%nat.

(** The string without the white space at its start; with [backwards],
    [s] is a reversed string, whose characters have their bytes in
    reverse order. *)
Fixpoint skipWhiteSpace (backwards : bool) (s : string) : string :=
  match s with
  | String c1 r1 =>
      if isWhiteSpace1 c1 then skipWhiteSpace backwards r1
      else
        match r1 with
        | String c2 r2 =>
            if (if backwards then isWhiteSpace2 c2 c1 else isWhiteSpace2 c1 c2)
            then skipWhiteSpace backwards r2
            else
              match r2 with
              | String c3 r3 =>
                  if (if backwards then isWhiteSpace3 c3 c2 c1 else isWhiteSpace3 c1 c2 c3)
                  then skipWhiteSpace backwards r3
                  else s
              | EmptyString => s
              end
        | EmptyString => s
        end
  | EmptyString => EmptyString
  end.

Definition trim (s : string) : string :=
  String.rev (skipWhiteSpace true (String.rev (skipWhiteSpace false s))).

(** The value of [c] as a digit of radix [radix] (at most 16). *)
Definition digitValue (radix : Z) (c : ascii) : option Z :=
  let n := Z.of_nat (nat_of_ascii c) in
  let v := if bool_decide (48 ≤ n ≤ 57) then n - 48
           else if bool_decide (97 ≤ n ≤ 102) then n - 87
           else if bool_decide (65 ≤ n ≤ 70) then n - 55
           else radix in
  if bool_decide (v < radix) then Some v else None.

Definition isDecimalDigit (c : ascii) : bool := bool_decide (is_Some (digitValue 10 c)).

(** The value of a run of digits, [acc] being the value of the digits
    already read; NaN if a character is no digit. *)
Fixpoint digits (radix acc : Z) (s : string) : number :=
  match s with
  | EmptyString => Some acc
  | String c r => d ← digitValue radix c; digits radix (radix * acc + d) r
  end.

(** A non-empty run of digits. *)
Definition integerLiteral (radix : Z) (s : string) : number :=
  match s with
  | EmptyString => NaN
  | _ => digits radix 0 s
  end.

(** The longest prefix of decimal digits, and what follows it. *)
Fixpoint spanDigits (s : string) : string * string :=
  match s with
  | String c r =>
      if isDecimalDigit c then let '(d, rest) := spanDigits r in (String c d, rest)
      else (EmptyString, s)
  | EmptyString => (EmptyString, EmptyString)
  end.

(** [ExponentPart], if any: the exponent, [0] without one. *)
Definition exponentPart (s : string) : number :=
  match s with
  | EmptyString => Some 0
  | String c r =>
      if bool_decide (c = "e" ∨ c = "E")%char then
        match r with
        | String "+" r' => integerLiteral 10 r'
        | String "-" r' => n ← integerLiteral 10 r'; Some (- n)
        | _ => integerLiteral 10 r
        end
      else NaN
  end.

(** [b ^ k] for [0 ≤ k], and [1] for a negative [k]. *)
Definition power (b k : Z) : Z := b ^ Z.max 0 k.

(** [p / q] rounded to an integer, ties to the even one ([0 ≤ p], [0 < q]). *)
Definition roundHalfEven (p q : Z) : Z :=
  let n := p / q in
  let r := p mod q in
  if bool_decide (2 * r < q) then n
  else if bool_decide (q < 2 * r) then n + 1
  else if Z.even n then n else n + 1.

(** The integer part of the Number value of the rational [p / q]
    ([0 ≤ p], [0 < q]): the rational is rounded to the nearest double (53
    significant bits, ties to even), which is infinite from [2 ^ 1024] on,
    and the double is truncated as [ToIntegerOrInfinity] does.  With [e]
    the binary exponent of [p / q], the doubles around it are the
    multiples of [2 ^ (e - 52)]; below one half the integer part is [0]. *)
Definition integerOfNumber (p q : Z) : number :=
  if bool_decide (p = 0) then Some 0
  else
    let d := Z.log2 p - Z.log2 q in
    let e := if bool_decide (q * power 2 d ≤ p * power 2 (- d)) then d else d - 1 in
    if bool_decide (e < -1) then Some 0
    else
      let k := e - 52 in
      let m := roundHalfEven (p * power 2 (- k)) (q * power 2 k) in
      if bool_decide (2 ^ 1024 ≤ m * power 2 k) then NaN
      else Some ((m * power 2 k) / power 2 (- k)).

(** [StrUnsignedDecimalLiteral] as the [Date] setters see it: digits, an
    optional fraction and an optional exponent give a decimal number, of
    which [integerOfNumber] is taken.  [Infinity] is not finite, which the
    setters treat as NaN. *)
Definition unsignedDecimalLiteral (s : string) : number :=
  if bool_decide (s = "Infinity") then NaN
  else
    let '(int, afterInt) := spanDigits s in
    let '(frac, rest) :=
      match afterInt with
      | String "." r => spanDigits r
      | _ => (EmptyString, afterInt)
      end in
    if bool_decide (int = "" ∧ frac = "") then NaN
    else
      mantissa ← digits 10 0 (int +:+ frac);
      exponent ← exponentPart rest;
      let scale := exponent - Z.of_nat (String.length frac) in
      integerOfNumber (mantissa * power 10 scale) (power 10 (- scale)).

(** A binary, octal or hexadecimal integer literal. *)
Definition nonDecimalLiteral (radix : Z) (s : string) : number :=
  n ← integerLiteral radix s; integerOfNumber n 1.

(** [Number(s)] as the [Date] setters see it, that is [StringToNumber]
    followed by [ToIntegerOrInfinity], with NaN for what is not finite:
    surrounding white space is dropped, the empty string is [0], and the
    rest is a binary, octal or hexadecimal integer literal or an
    optionally signed decimal literal, anything else being NaN. *)
Definition Number (s : string) : number :=
  match trim s with
  | EmptyString => Some 0
  | String "0" (String c r) as t =>
      if bool_decide (c = "x" ∨ c = "X")%char then nonDecimalLiteral 16 r
      else if bool_decide (c = "o" ∨ c = "O")%char then nonDecimalLiteral 8 r
      else if bool_decide (c = "b" ∨ c = "B")%char then nonDecimalLiteral 2 r
      else unsignedDecimalLiteral t
  | String "-" r => n ← unsignedDecimalLiteral r; Some (- n)
  | String "+" r => unsignedDecimalLiteral r
  | t => unsignedDecimalLiteral t
  end.

(** [arr[i]] of an array of numbers used as a number: [undefined], the
    value of a missing element, converts to NaN. *)
Definition element (arr : list number) (i : nat) : number := mjoin (arr !! i).

End JSString.

Import JSString.

(** ** The values of an [options] record

    [options] is a [Record<string, any>].  Its values are the values that
    JSON knows (null, booleans, finite numbers, strings, arrays and plain
    objects of such) and those it changes or leaves out: [undefined],
    negative zero, NaN, the infinities and [Date] objects.  A finite number
    is the rational it is; an object is the list of its properties in
    their order. *)

Local Unset Elimination Schemes.
Inductive Value :=
| VUndefined
| VNull
| VBoolean (b : bool)
| VNumber (x : Qc)
| VNegativeZero
| VNaN
| VInfinity (negative : bool)
| VString (s : string)
| VDate (d : Date)
| VArray (elements : list Value)
| VObject (properties : list (string * Value)).
Local Set Elimination Schemes.

(** [JSON.parse(JSON.stringify(v))], or [None] when [JSON.stringify]
    answers [undefined], in which case a property holding [v] is left out
    and an array element holding it becomes [null].  A valid date is
    written as its ISO string and stays a string; an invalid one, NaN and
    the infinities are written as [null]; negative zero is written as
    [0]. *)
Fixpoint jsonValue (v : Value) : option Value :=
  match v with
  | VUndefined => None
  | VNull => Some VNull
  | VBoolean b => Some (VBoolean b)
  | VNumber x => Some (VNumber x)
  | VNegativeZero => Some (VNumber 0%Qc)
  | VNaN | VInfinity _ => Some VNull
  | VString s => Some (VString s)
  | VDate (Some t) => Some (VString (toISOString t))
  | VDate None => Some VNull
  | VArray elements =>
      Some (VArray (List.map (λ x, default VNull (jsonValue x)) elements))
  | VObject properties =>
      Some (VObject
              ((fix go (l : list (string * Value)) : list (string * Value) :=
                  match l with
                  | [] => []
                  | (key, x) :: rest =>
                      match jsonValue x with
                      | Some x' => (key, x') :: go rest
                      | None => go rest
                      end
                  end) properties))
  end.

(** The same for a record, property by property. *)
Fixpoint jsonRecord (l : list (string * Value)) : list (string * Value) :=
  match l with
  | [] => []
  | (key, x) :: rest =>
      match jsonValue x with
      | Some x' => (key, x') :: jsonRecord rest
      | None => jsonRecord rest
      end
  end.

(** The values that JSON gives back as they are. *)
Fixpoint jsonNative (v : Value) : bool :=
  match v with
  | VNull | VBoolean _ | VNumber _ | VString _ => true
  | VArray elements => forallb jsonNative elements
  | VObject properties =>
      (fix go (l : list (string * Value)) : bool :=
         match l with
         | [] => true
         | (_, x) :: rest => jsonNative x && go rest
         end) properties
  | VUndefined | VNegativeZero | VNaN | VInfinity _ | VDate _ => false
  end.

(** ** The data model *)

Inductive TaskType := summary | poster.
Inductive RunStatus := success | failure.
Inductive Severity := info | sev_success | warning | sev_error.

Record SchedulerTask := mkTask {
  id : string;
  type : TaskType;
  groupId : string;
  frequency : string;
  customCron : option string;
  nextRunTime : Date;
  lastRunTime : option Date;
  lastRunStatus : option RunStatus;
  isActive : bool;
  createdAt : Date;
  updatedAt : Date;
  options : option (list (string * Value))
}.

(** [Omit<SchedulerTask, 'id' | 'createdAt' | 'updatedAt'>], the argument
    of [addTask]. *)
Record TaskSpec := mkSpec {
  s_type : TaskType;
  s_groupId : string;
  s_frequency : string;
  s_customCron : option string;
  s_nextRunTime : Date;
  s_lastRunTime : option Date;
  s_lastRunStatus : option RunStatus;
  s_isActive : bool;
  s_options : option (list (string * Value))
}.

(** [Partial<SchedulerTask>], the argument of [updateTask]: [None] is a key
    that is absent from the object. *)
Record PartialTask := mkPartial {
  p_id : option string;
  p_type : option TaskType;
  p_groupId : option string;
  p_frequency : option string;
  p_customCron : option (option string);
  p_nextRunTime : option Date;
  p_lastRunTime : option (option Date);
  p_lastRunStatus : option (option RunStatus);
  p_isActive : option bool;
  p_createdAt : option Date;
  p_updatedAt : option Date;
  p_options : option (option (list (string * Value)))
}.

(** [{...task, ...updates, updatedAt: now}] *)
Definition mergeTask (task : SchedulerTask) (updates : PartialTask) (now : Date) : SchedulerTask :=
  {| id := default (id task) (p_id updates);
     type := default (type task) (p_type updates);
     groupId := default (groupId task) (p_groupId updates);
     frequency := default (frequency task) (p_frequency updates);
     customCron := default (customCron task) (p_customCron updates);
     nextRunTime := default (nextRunTime task) (p_nextRunTime updates);
     lastRunTime := default (lastRunTime task) (p_lastRunTime updates);
     lastRunStatus := default (lastRunStatus task) (p_lastRunStatus updates);
     isActive := default (isActive task) (p_isActive updates);
     createdAt := default (createdAt task) (p_createdAt updates);
     updatedAt := now;
     options := default (options task) (p_options updates) |}.

(** A thrown value: an [Error] object (with its constructor's name and its
    message) or any other value. *)
Inductive Exn :=
| JsError (name message : string)
| JsValue (v : string).

Definition instanceofError (e : Exn) : bool :=
  match e with JsError _ _ => true | JsValue _ => false end.

Inductive Completion (A : Type) :=
| Normal (a : A)
| Throw (e : Exn).
Arguments Normal {A} a.
Arguments Throw {A} e.

(** A notification of the application context. *)
Record Notification := mkNotification {
  n_id : string;
  n_type : Severity;
  n_message : string;
  n_timestamp : Date;
  n_read : bool
}.

(** The options of [useScheduler].  The execution callback is an outside
    collaborator: the scheduler observes only whether the promise it
    returns is fulfilled or rejected. *)
Record SchedulerOptions := mkOptions {
  onTaskRun : option (SchedulerTask → Completion unit);
  autoStart : bool;
  checkInterval : Z
}.

(** The host: the offset of local time, the successive readings of the
    system clock, the successive values of [Math.random().toString(36)],
    whether [localStorage.setItem] refuses a collection, and the number of
    nested calls the engine's stack allows. *)
Record Host := mkHost {
  tza : Z;
  clock : nat → Z;
  random : nat → string;
  quotaExceeded : list SchedulerTask → bool;
  stackLimit : nat
}.

(** The mutable state: the hook's React state, the notifications of the
    application context, the storage entry [scheduler_tasks], the number of
    clock readings and random draws made so far, and the tasks handed to the
    execution callback so far (latest first). *)
Record World := mkWorld {
  tasks : list SchedulerTask;
  currentTask : option SchedulerTask;
  error : option Exn;
  notifications : list Notification;
  localStorage : option (list SchedulerTask);
  reads : nat;
  draws : nat;
  calls : list SchedulerTask
}.

Definition with_tasks (ts : list SchedulerTask) (w : World) : World :=
  mkWorld ts (currentTask w) (error w) (notifications w) (localStorage w) (reads w) (draws w) (calls w).
Definition with_currentTask (c : option SchedulerTask) (w : World) : World :=
  mkWorld (tasks w) c (error w) (notifications w) (localStorage w) (reads w) (draws w) (calls w).
Definition with_error (e : option Exn) (w : World) : World :=
  mkWorld (tasks w) (currentTask w) e (notifications w) (localStorage w) (reads w) (draws w) (calls w).
Definition with_notifications (ns : list Notification) (w : World) : World :=
  mkWorld (tasks w) (currentTask w) (error w) ns (localStorage w) (reads w) (draws w) (calls w).
Definition with_localStorage (ls : option (list SchedulerTask)) (w : World) : World :=
  mkWorld (tasks w) (currentTask w) (error w) (notifications w) ls (reads w) (draws w) (calls w).
Definition with_reads (n : nat) (w : World) : World :=
  mkWorld (tasks w) (currentTask w) (error w) (notifications w) (localStorage w) n (draws w) (calls w).
Definition with_draws (n : nat) (w : World) : World :=
  mkWorld (tasks w) (currentTask w) (error w) (notifications w) (localStorage w) (reads w) n (calls w).
Definition with_calls (cs : list SchedulerTask) (w : World) : World :=
  mkWorld (tasks w) (currentTask w) (error w) (notifications w) (localStorage w) (reads w) (draws w) cs.

(** ** Computations: state passing with exceptions *)

Definition M (A : Type) : Type := World → Completion A * World.

Global Instance M_ret : MRet M := λ A a w, (Normal a, w).
Global Instance M_bind : MBind M := λ A B f m w,
  match m w with
  | (Normal a, w') => f a w'
  | (Throw e, w') => (Throw e, w')
  end.

Definition throw {A} (e : Exn) : M A := λ w, (Throw e, w).

(** [try { body } catch (err) { handler err }] *)
Definition try_catch {A} (body : M A) (handler : Exn → M A) : M A := λ w,
  match body w with
  | (Normal a, w') => (Normal a, w')
  | (Throw e, w') => handler e w'
  end.

(** [try { body } finally { fin }] *)
Definition try_finally {A} (body : M A) (fin : M unit) : M A := λ w,
  match body w with
  | (r, w') =>
      match fin w' with
      | (Normal _, w'') => (r, w'')
      | (Throw e, w'') => (Throw e, w'')
      end
  end.

Definition gets {A} (f : World → A) : M A := λ w, (Normal (f w), w).
Definition modify (f : World → World) : M unit := λ w, (Normal (), f w).

Fixpoint forEach {A} (l : list A) (f : A → M unit) : M unit :=
  match l with
  | [] => mret ()
  | x :: r => f x;; forEach r f
  end.

Definition dquote : string := String (ascii_of_nat 34) EmptyString.

Definition with_lastRunTime (l : option Date) (task : SchedulerTask) : SchedulerTask :=
  mkTask (id task) (type task) (groupId task) (frequency task) (customCron task)
    (nextRunTime task) l (lastRunStatus task) (isActive task) (createdAt task)
    (updatedAt task) (options task).

Definition stackOverflow : Exn := JsError "RangeError" "Maximum call stack size exceeded".

(** ** The hook *)

Section Scheduler.
Context (host : Host) (opts : SchedulerOptions).

(** [new Date()]: one reading of the clock. *)
Definition newDate : M Date := λ w,
  (Normal (Some (clock host (reads w))), with_reads (S (reads w)) w).

(** [Date.now()] *)
Definition dateNow : M Z := λ w,
  (Normal (clock host (reads w)), with_reads (S (reads w)) w).

(** [Math.random().toString(36)] *)
Definition randomBase36 : M string := λ w,
  (Normal (random host (draws w)), with_draws (S (draws w)) w).

(** [addNotification] of the application context: the new notification
    is put in front. *)
Definition addNotification (ty : Severity) (message : string) : M unit :=
  now ← dateNow;
  r ← randomBase36;
  ts ← newDate;
  let newNotification :=
    {| n_id := "notification_" +:+ pretty now +:+ "_" +:+ String.substring 2 9 r;
       n_type := ty; n_message := message; n_timestamp := ts; n_read := false |} in
  modify (λ w, with_notifications (newNotification :: notifications w) w).

Definition setError (e : Exn) : M unit := modify (with_error (Some e)).
Definition setCurrentTask (c : option SchedulerTask) : M unit := modify (with_currentTask c).
Definition setTasks (ts : list SchedulerTask) : M unit := modify (with_tasks ts).

(** [localStorage.setItem('scheduler_tasks', JSON.stringify(updatedTasks))] *)
Definition setItem (updatedTasks : list SchedulerTask) : M unit := λ w,
  if quotaExceeded host updatedTasks
  then (Throw (JsError "QuotaExceededError" "The quota has been exceeded"), w)
  else (Normal (), with_localStorage (Some updatedTasks) w).

Definition saveTasks (updatedTasks : list SchedulerTask) : M unit :=
  try_catch (setItem updatedTasks)
    (λ err,
      setError (if instanceofError err then err else JsError "Error" "Failed to save tasks");;
      addNotification sev_error "保存任务配置失败").

Definition addTask (task : TaskSpec) : M SchedulerTask :=
  now ← dateNow;
  r ← randomBase36;
  created ← newDate;
  updated ← newDate;
  let newTask :=
    {| id := "task_" +:+ pretty now +:+ "_" +:+ String.substring 2 7 r;
       type := s_type task; groupId := s_groupId task; frequency := s_frequency task;
       customCron := s_customCron task; nextRunTime := s_nextRunTime task;
       lastRunTime := s_lastRunTime task; lastRunStatus := s_lastRunStatus task;
       isActive := s_isActive task; createdAt := created; updatedAt := updated;
       options := s_options task |} in
  prevTasks ← gets tasks;
  let updatedTasks := prevTasks ++ [newTask] in
  saveTasks updatedTasks;;
  setTasks updatedTasks;;
  addNotification sev_success "新任务已添加";;
  mret newTask.

(** [prevTasks.findIndex(t => t.id === taskId)], with the element found. *)
Definition findIndex (taskId : string) (ts : list SchedulerTask) : option (nat * SchedulerTask) :=
  list_find (λ t, id t = taskId) ts.

(** [tasks.find(t => t.id === taskId)] *)
Definition find (taskId : string) (ts : list SchedulerTask) : option SchedulerTask :=
  snd <$> findIndex taskId ts.

Definition updateTask (taskId : string) (updates : PartialTask) : M unit :=
  prevTasks ← gets tasks;
  match findIndex taskId prevTasks with
  | None =>
      addNotification sev_error "更新任务失败：找不到指定任务";;
      setTasks prevTasks
  | Some (taskIndex, prevTask) =>
      now ← newDate;
      let updatedTask := mergeTask prevTask updates now in
      let updatedTasks := <[taskIndex := updatedTask]> prevTasks in
      saveTasks updatedTasks;;
      setTasks updatedTasks
  end.

Definition deleteTask (taskId : string) : M unit :=
  prevTasks ← gets tasks;
  let updatedTasks := filter (λ t, id t ≠ taskId) prevTasks in
  saveTasks updatedTasks;;
  setTasks updatedTasks;;
  addNotification sev_success "任务已删除".

Definition toggleTaskActive (taskId : string) : M unit :=
  prevTasks ← gets tasks;
  match findIndex taskId prevTasks with
  | None => setTasks prevTasks
  | Some (taskIndex, prevTask) =>
      now ← newDate;
      let updatedTask :=
        mergeTask prevTask
          (mkPartial None None None None None None None None
             (Some (negb (isActive prevTask))) None None None) now in
      let updatedTasks := <[taskIndex := updatedTask]> prevTasks in
      saveTasks updatedTasks;;
      addNotification info ("任务已" +:+ (if isActive updatedTask then "启用" else "禁用"));;
      setTasks updatedTasks
  end.

(** The [switch] of [calculateNextRunTime]: the setters applied to
    [nextRun], a fresh [Date].  Nothing in the [try] block of the custom
    case throws on a string, so its [catch] block is never entered. *)
Definition candidate (task : SchedulerTask) (nextRun : Date) : Date :=
  let z := tza host in
  if decide (frequency task = "hourly") then
    let d := setHours z nextRun (num_add (getHours z nextRun) (Some 1)) in
    let d := setMinutes z d (Some 0) in
    let d := setSeconds z d (Some 0) in
    setMilliseconds z d (Some 0)
  else if decide (frequency task = "daily") then
    let d := setDate z nextRun (num_add (getDate z nextRun) (Some 1)) in
    let d := setHours z d (Some 9) in
    let d := setMinutes z d (Some 0) in
    let d := setSeconds z d (Some 0) in
    setMilliseconds z d (Some 0)
  else if decide (frequency task = "weekly") then
    let d := setDate z nextRun
               (num_add (getDate z nextRun)
                  (num_or (num_sub (Some 7) (getDay z nextRun)) (Some 7))) in
    let d := setHours z d (Some 9) in
    let d := setMinutes z d (Some 0) in
    let d := setSeconds z d (Some 0) in
    setMilliseconds z d (Some 0)
  else if decide (frequency task = "monthly") then
    let d := setMonth z nextRun (num_add (getMonth z nextRun) (Some 1)) in
    let d := setDate z d (Some 1) in
    let d := setHours z d (Some 9) in
    let d := setMinutes z d (Some 0) in
    let d := setSeconds z d (Some 0) in
    setMilliseconds z d (Some 0)
  else if decide (frequency task = "custom") then
    match customCron task with
    | None | Some EmptyString => nextRun
    | Some cron =>
        let parts := Number <$> split ":" cron in
        let hour := element parts 0 in
        let minute := element parts 1 in
        let d := setDate z nextRun (num_add (getDate z nextRun) (Some 1)) in
        let d := setHours z d hour in
        let d := setMinutes z d minute in
        let d := setSeconds z d (Some 0) in
        setMilliseconds z d (Some 0)
    end
  else setDate z nextRun (num_add (getDate z nextRun) (Some 1)).

(** [calculateNextRunTime], with the number of nested calls the stack
    still allows: exceeding it raises the engine's [RangeError]. *)
Fixpoint calculateNextRunTime_rec (depth : nat) (task : SchedulerTask) : M Date :=
  match depth with
  | O => throw stackOverflow
  | S depth' =>
      now ← newDate;
      fresh ← newDate;
      let nextRun := candidate task fresh in
      if num_le nextRun now
      then calculateNextRunTime_rec depth' (with_lastRunTime (Some now) task)
      else mret nextRun
  end.

Definition calculateNextRunTime (task : SchedulerTask) : M Date :=
  calculateNextRunTime_rec (S (stackLimit host)) task.

(** [await onTaskRun(task)] *)
Definition await_onTaskRun (cb : SchedulerTask → Completion unit) (task : SchedulerTask) : M unit := λ w,
  (cb task, with_calls (task :: calls w) w).

(** [runTask] as created in a render whose task collection was
    [snapshot]: the lookups go through the closure, [updateTask] through
    the current state. *)
Definition runTaskIn (snapshot : list SchedulerTask) (taskId : string) : M unit :=
  try_finally
    (try_catch
       (task ← match find taskId snapshot with
               | Some t => mret t
               | None => throw (JsError "Error" "任务不存在")
               end;
        setCurrentTask (Some task);;
        match onTaskRun opts with
        | Some cb => await_onTaskRun cb task
        | None => mret ()
        end;;
        ran ← newDate;
        next ← calculateNextRunTime task;
        updateTask taskId
          (mkPartial None None None None None (Some next) (Some (Some ran))
             (Some (Some success)) None None None None);;
        addNotification sev_success
          ("任务 " +:+ dquote +:+
           match type task with summary => "总结生成" | poster => "海报生成" end
           +:+ dquote +:+ " 执行成功"))
       (λ err,
         match find taskId snapshot with
         | Some _ =>
             ran ← newDate;
             updateTask taskId
               (mkPartial None None None None None None (Some (Some ran))
                  (Some (Some failure)) None None None None)
         | None => mret ()
         end;;
         setError (if instanceofError err then err else JsError "Error" "Task execution failed");;
         addNotification sev_error
           ("任务执行失败: " +:+
            match err with JsError _ message => message | JsValue _ => "未知错误" end)))
    (setCurrentTask None).

(** The hook re-creates [runTask] whenever [tasks] changes, so that a call
    from the latest render sees the current collection. *)
Definition runTask (taskId : string) : M unit :=
  snapshot ← gets tasks;
  runTaskIn snapshot taskId.

(** [runTask] for an execution callback that acts on the state while it
    is awaited (it may call the operations of the hook) before it fulfils
    or rejects; [runTaskIn] is the case of a callback that does nothing
    but fulfil or reject (see [runTaskIn_runTaskDuring]). *)
Definition await_callback (cb : SchedulerTask → M unit) (task : SchedulerTask) : M unit := λ w,
  cb task (with_calls (task :: calls w) w).

Definition runTaskDuring (callback : option (SchedulerTask → M unit))
    (snapshot : list SchedulerTask) (taskId : string) : M unit :=
  try_finally
    (try_catch
       (task ← match find taskId snapshot with
               | Some t => mret t
               | None => throw (JsError "Error" "任务不存在")
               end;
        setCurrentTask (Some task);;
        match callback with
        | Some cb => await_callback cb task
        | None => mret ()
        end;;
        ran ← newDate;
        next ← calculateNextRunTime task;
        updateTask taskId
          (mkPartial None None None None None (Some next) (Some (Some ran))
             (Some (Some success)) None None None None);;
        addNotification sev_success
          ("任务 " +:+ dquote +:+
           match type task with summary => "总结生成" | poster => "海报生成" end
           +:+ dquote +:+ " 执行成功"))
       (λ err,
         match find taskId snapshot with
         | Some _ =>
             ran ← newDate;
             updateTask taskId
               (mkPartial None None None None None None (Some (Some ran))
                  (Some (Some failure)) None None None None)
         | None => mret ()
         end;;
         setError (if instanceofError err then err else JsError "Error" "Task execution failed");;
         addNotification sev_error
           ("任务执行失败: " +:+
            match err with JsError _ message => message | JsValue _ => "未知错误" end)))
    (setCurrentTask None).

Definition runTaskWith (callback : option (SchedulerTask → M unit)) (taskId : string) : M unit :=
  snapshot ← gets tasks;
  runTaskDuring callback snapshot taskId.

(** The condition of the scan: active and due. *)
Definition isDue (now : Date) (task : SchedulerTask) : bool :=
  isActive task && num_le (nextRunTime task) now.

(** The tasks a scan at [now] selects, in collection order. *)
Definition selected (now : Date) (ts : list SchedulerTask) : list SchedulerTask :=
  filter (λ task, isDue now task = true) ts.

(** [checkTasks]: every run is started from the same render, and a
    rejected run is only logged.  Each run is taken to completion before
    the next one starts. *)
Definition checkTasks : M unit :=
  snapshot ← gets tasks;
  now ← newDate;
  forEach snapshot (λ task,
    if isDue now task
    then try_catch (runTaskIn snapshot (id task)) (λ _, mret ())
    else mret ()).

End Scheduler.

(** ** Vocabulary of the statements *)

(** A time value that every date within a hundred days of it is also one. *)
Definition safe (t : Z) : Prop := Z.abs t ≤ maxTime - 100 * msPerDay.

(** Number of days of month [m] (0 = January). *)
Definition DaysInMonth (m leap : Z) : Z :=
  if bool_decide (m = 1) then 28 + leap
  else if bool_decide (m = 3 ∨ m = 5 ∨ m = 8 ∨ m = 10) then 30
  else 31.

(** 2024-01-31T10:00:00.000Z and 2024-03-01T09:00:00.000Z. *)
Definition jan31 : Z := 1706695200000.
Definition mar1 : Z := 1709283600000.

(** A host in UTC whose clock stands still at [t]. *)
Definition frozen (t : Z) : Host :=
  mkHost 0 (λ _, t) (λ _, "0.k3j9x2m4pq") (λ _, false) 100.

(** [wpx m Q E w]: run from [w], [m] either returns [a] in a world
    satisfying [Q a] or throws [e] in a world satisfying [E e]. *)
Definition wpx {A} (m : M A) (Q : A → World → Prop) (E : Exn → World → Prop)
    (w : World) : Prop :=
  match m w with
  | (Normal a, w') => Q a w'
  | (Throw e, w') => E e w'
  end.

Definition no_throw : Exn → World → Prop := λ _ _, False.

(** What the bookkeeping steps (notifications, storage, clock readings,
    the error and current-task cells) leave alone. *)
Definition frame (w w' : World) : Prop :=
  tasks w' = tasks w ∧ calls w' = calls w.

Definition ids (ts : list SchedulerTask) : list string := id <$> ts.

(** The identifier [addTask] builds in world [w]. *)
Definition freshId (host : Host) (w : World) : string :=
  "task_" +:+ pretty (clock host (reads w)) +:+ "_" +:+ String.substring 2 7 (random host (draws w)).

(** The update [runTask] makes on success and on failure. *)
Definition successUpdate (ran next : Date) : PartialTask :=
  mkPartial None None None None None (Some next) (Some (Some ran)) (Some (Some success))
    None None None None.
Definition failureUpdate (ran : Date) : PartialTask :=
  mkPartial None None None None None None (Some (Some ran)) (Some (Some failure))
    None None None None.
Definition toggleUpdate (task : SchedulerTask) : PartialTask :=
  mkPartial None None None None None None None None (Some (negb (isActive task)))
    None None None.

(** The collection after [updates] were merged at time [now] into the
    first task called [taskId], if there is one. *)
Definition updated (taskId : string) (updates : SchedulerTask → PartialTask) (now : Date)
    (ts : list SchedulerTask) : list SchedulerTask :=
  match findIndex taskId ts with
  | Some (i, t) => <[i := mergeTask t (updates t) now]> ts
  | None => ts
  end.

(** The operations a caller of the hook can perform. *)
Inductive Op :=
| OpAdd (spec : TaskSpec)
| OpUpdate (taskId : string) (updates : PartialTask)
| OpToggle (taskId : string)
| OpDelete (taskId : string)
| OpRun (taskId : string).

(** What an operation does to the list of identifiers: [addTask] appends
    the new one, [deleteTask] removes the deleted one, and the others
    leave the list as it is, position by position. *)
Definition ids_after (host : Host) (op : Op) (w : World) (l : list string) : list string :=
  match op with
  | OpAdd _ => l ++ [freshId host w]
  | OpDelete taskId => filter (λ x, x ≠ taskId) l
  | OpUpdate _ _ | OpToggle _ | OpRun _ => l
  end.

Section Sessions.
Context (host : Host) (opts : SchedulerOptions).

Definition perform (op : Op) : M unit :=
  match op with
  | OpAdd spec => addTask host spec;; mret ()
  | OpUpdate taskId updates => updateTask host taskId updates
  | OpToggle taskId => toggleTaskActive host taskId
  | OpDelete taskId => deleteTask host taskId
  | OpRun taskId => runTask host opts taskId
  end.

(** The two conditions under which identifiers are stable: the fields
    given to [updateTask] do not include [id], and the identifier that
    [addTask] builds from the clock and the random draw is not already
    in the collection. *)
Definition admissible_op (op : Op) (w : World) : Prop :=
  match op with
  | OpAdd _ => freshId host w ∉ ids (tasks w)
  | OpUpdate _ updates => p_id updates = None
  | OpToggle _ | OpDelete _ | OpRun _ => True
  end.

Fixpoint admissible (ops : list Op) (w : World) : Prop :=
  match ops with
  | [] => True
  | op :: rest => admissible_op op w ∧ admissible rest (snd (perform op w))
  end.

Fixpoint ids_trace (ops : list Op) (w : World) (l : list string) : list string :=
  match ops with
  | [] => l
  | op :: rest => ids_trace rest (snd (perform op w)) (ids_after host op w l)
  end.

End Sessions.

(** The world in which [runTask] awaits the callback: the task is the
    current one and the call is on record. *)
Definition atCallback (task : SchedulerTask) (w : World) : World :=
  with_calls (task :: calls w) (with_currentTask (Some task) w).

(** A callback that does nothing but fulfil or reject. *)
Definition settling (cb : SchedulerTask → Completion unit) : SchedulerTask → M unit :=
  λ task w, (cb task, w).

(** 2024-02-15T10:00:00.000Z. *)
Definition feb15 : Z := 1707991200000.

(** A host eight hours east of UTC whose clock, first read on 31 January
    2024 at 10:00 UTC, advances by one millisecond per reading for a
    day. *)
Definition host8 : Host :=
  mkHost 28800000 (λ n, jan31 + Z.min (Z.of_nat n) msPerDay)
    (λ _, "0.k3j9x2m4pq") (λ _, false) 100.

Definition noCallback : SchedulerOptions := mkOptions None true 60000.

(** A callback that puts the task off by a day, through [updateTask],
    and then rejects. *)
Definition postponing (host : Host) : SchedulerTask → M unit := λ task,
  updateTask host (id task)
    (mkPartial None None None None None
       (Some (num_add (nextRunTime task) (Some msPerDay)))
       None None None None None None);;
  throw (JsError "Error" "network down").

Definition rejecting : SchedulerOptions :=
  mkOptions (Some (λ _, Throw (JsError "Error" "network down"))) true 60000.
Definition accepting : SchedulerOptions :=
  mkOptions (Some (λ _, Normal ())) true 60000.

Definition emptyWorld : World := mkWorld [] None None [] None 0 0 [].

Definition task_of (taskId freq : string) (cron : option string) (active : bool) : SchedulerTask :=
  mkTask taskId summary "g1" freq cron (Some 0) None None active (Some 0) (Some 0) None.
Definition spec_of (freq : string) (cron : option string) : TaskSpec :=
  mkSpec poster "g1" freq cron (Some 0) None None true None.
Definition world_of (ts : list SchedulerTask) : World := with_tasks ts emptyWorld.

Definition rename (newId : string) : PartialTask :=
  mkPartial (Some newId) None None None None None None None None None None None.

Definition session : list Op :=
  [ OpAdd (spec_of "daily" None);
    OpAdd (spec_of "custom" (Some "9:30"));
    OpToggle "task_1706695200000_k3j9x2m";
    OpRun "task_1706695200000_k3j9x2m";
    OpUpdate "task_1706695200005_k3j9x2m"
      (mkPartial None None None (Some "weekly") None None None None None None None None);
    OpDelete "task_1706695200000_k3j9x2m" ].

(** ** The rest of the hook: loading, starting and stopping *)

(** A date after [JSON.stringify] and [JSON.parse]: the ISO string of a
    valid date, which determines its time value, or [null], which is what
    [toJSON] makes of an invalid date. *)
Inductive JSONDate :=
| ISOString (t : Z)
| JSONNull.

Definition Date_toJSON (d : Date) : JSONDate :=
  match d with
  | Some t => ISOString t
  | None => JSONNull
  end.

(** [new Date(v)] for such a value; [new Date(null)] is the epoch. *)
Definition newDateOf (v : JSONDate) : Date :=
  match v with
  | ISOString t => Some t
  | JSONNull => Some 0
  end.

(** A task as [JSON.parse] reads it from the stored entry: a property
    whose value was [undefined] is absent. *)
Record ParsedTask := mkParsed {
  j_id : string;
  j_type : TaskType;
  j_groupId : string;
  j_frequency : string;
  j_customCron : option string;
  j_nextRunTime : JSONDate;
  j_lastRunTime : option JSONDate;
  j_lastRunStatus : option RunStatus;
  j_isActive : bool;
  j_createdAt : JSONDate;
  j_updatedAt : JSONDate;
  j_options : option (list (string * Value))
}.

(** [JSON.parse(JSON.stringify(task))] *)
Definition stringifyParse (task : SchedulerTask) : ParsedTask :=
  {| j_id := id task; j_type := type task; j_groupId := groupId task;
     j_frequency := frequency task; j_customCron := customCron task;
     j_nextRunTime := Date_toJSON (nextRunTime task);
     j_lastRunTime := Date_toJSON <$> lastRunTime task;
     j_lastRunStatus := lastRunStatus task; j_isActive := isActive task;
     j_createdAt := Date_toJSON (createdAt task);
     j_updatedAt := Date_toJSON (updatedAt task);
     j_options := jsonRecord <$> options task |}.

(** The callback of [parsedTasks.map] in [loadTasks]: the dates are made
    [Date] objects again, [lastRunTime] only when it is truthy. *)
Definition processTask (task : ParsedTask) : SchedulerTask :=
  {| id := j_id task; type := j_type task; groupId := j_groupId task;
     frequency := j_frequency task; customCron := j_customCron task;
     nextRunTime := newDateOf (j_nextRunTime task);
     lastRunTime := match j_lastRunTime task with
                    | Some (ISOString t) => Some (newDateOf (ISOString t))
                    | Some JSONNull | None => None
                    end;
     lastRunStatus := j_lastRunStatus task; isActive := j_isActive task;
     createdAt := newDateOf (j_createdAt task);
     updatedAt := newDateOf (j_updatedAt task);
     options := j_options task |}.

(** The state of the hook beside the [World]: the [isRunning] state, the
    [timerRef] cell, and the host's interval timers (handle and delay) with
    the last handle it gave out. *)
Record Hook := mkHook {
  world : World;
  isRunning : bool;
  timerRef : option Z;
  intervals : list (Z * Z);
  lastHandle : Z
}.

Definition MH (A : Type) : Type := Hook → Completion A * Hook.

Global Instance MH_ret : MRet MH := λ A a h, (Normal a, h).
Global Instance MH_bind : MBind MH := λ A B f m h,
  match m h with
  | (Normal a, h') => f a h'
  | (Throw e, h') => (Throw e, h')
  end.

(** A computation on the [World], run inside the hook. *)
Definition inWorld {A} (m : M A) : MH A := λ h,
  match m (world h) with
  | (r, w') => (r, mkHook w' (isRunning h) (timerRef h) (intervals h) (lastHandle h))
  end.

(** [window.setInterval(callback, delay)]: a new timer under a handle not
    given out before. *)
Definition setInterval (delay : Z) : MH Z := λ h,
  (Normal (lastHandle h + 1),
   mkHook (world h) (isRunning h) (timerRef h)
     ((lastHandle h + 1, delay) :: intervals h) (lastHandle h + 1)).

(** [window.clearInterval(handle)] *)
Definition clearInterval (handle : Z) : MH unit := λ h,
  (Normal (),
   mkHook (world h) (isRunning h) (timerRef h)
     (filter (λ timer, timer.1 ≠ handle) (intervals h)) (lastHandle h)).

Definition setTimerRef (r : option Z) : MH unit := λ h,
  (Normal (), mkHook (world h) (isRunning h) r (intervals h) (lastHandle h)).

Definition setIsRunning (b : bool) : MH unit := λ h,
  (Normal (), mkHook (world h) b (timerRef h) (intervals h) (lastHandle h)).

Section Control.
Context (host : Host) (opts : SchedulerOptions).

(** [loadTasks].  The entry read is one that [saveTasks] wrote, the only
    writer of the key, so that [JSON.parse] succeeds on it. *)
Definition loadTasks : M unit :=
  try_catch
    (savedTasks ← gets localStorage;
     match savedTasks with
     | Some stored =>
         let parsedTasks := stringifyParse <$> stored in
         let processedTasks := processTask <$> parsedTasks in
         setTasks processedTasks
     | None => mret ()
     end)
    (λ err,
      setError (if instanceofError err then err else JsError "Error" "Failed to load tasks");;
      addNotification host sev_error "加载任务配置失败").

(** [checkTasks] as created in a render whose collection was [snapshot]. *)
Definition checkTasksIn (snapshot : list SchedulerTask) : M unit :=
  now ← newDate host;
  forEach snapshot (λ task,
    if isDue now task
    then try_catch (runTaskIn host opts snapshot (id task)) (λ _, mret ())
    else mret ()).

(** [startScheduler] as created in a render whose [isRunning] was [running]
    and whose collection was [snapshot]. *)
Definition startSchedulerIn (running : bool) (snapshot : list SchedulerTask) : MH unit :=
  if running then mret ()
  else
    inWorld (checkTasksIn snapshot);;
    timerId ← setInterval (checkInterval opts);
    setTimerRef (Some timerId);;
    setIsRunning true;;
    inWorld (addNotification host info "任务调度器已启动").

(** [stopScheduler] as created in a render whose [isRunning] was [running];
    [timerRef.current] is read when it is called. *)
Definition stopSchedulerIn (running : bool) : MH unit := λ h,
  match timerRef h with
  | Some handle =>
      if running then
        (clearInterval handle;;
         setTimerRef None;;
         setIsRunning false;;
         inWorld (addNotification host info "任务调度器已停止")) h
      else (Normal (), h)
  | None => (Normal (), h)
  end.

(** Called from the latest render. *)
Definition startScheduler : MH unit := λ h,
  startSchedulerIn (isRunning h) (tasks (world h)) h.
Definition stopScheduler : MH unit := λ h,
  stopSchedulerIn (isRunning h) h.

(** The effect of the hook, with the values that the [startScheduler] of
    its render closed over: [loadTasks], then [startScheduler] when
    [autoStart] is set. *)
Definition mountEffect (running : bool) (snapshot : list SchedulerTask) : MH unit :=
  inWorld loadTasks;;
  if autoStart opts then startSchedulerIn running snapshot else mret ().

(** The cleanup the effect returns; [timerRef.current] is read when it
    runs, and is left as it is. *)
Definition effectCleanup : MH unit := λ h,
  match timerRef h with
  | Some handle => clearInterval handle h
  | None => (Normal (), h)
  end.

(** A render in which a dependency of the effect has changed: React runs
    the cleanup of the previous run, then the effect of this render.  The
    dependencies are [loadTasks], [autoStart] and [startScheduler], and
    [startScheduler] is created anew whenever [isRunning] changes, so that
    every change of [isRunning] is followed by such a render. *)
Definition rerender : MH unit := λ h,
  (effectCleanup;; mountEffect (isRunning h) (tasks (world h))) h.

Fixpoint rerenders (n : nat) : MH unit :=
  match n with
  | O => mret ()
  | S n' => rerender;; rerenders n'
  end.

End Control.

(** ** The application context: notifications and recent summaries *)

(** [markNotificationAsRead] *)
Definition markNotificationAsRead (notificationId : string) : M unit :=
  modify (λ w,
    with_notifications
      ((λ notification,
          if decide (n_id notification = notificationId)
          then mkNotification (n_id notification) (n_type notification)
                 (n_message notification) (n_timestamp notification) true
          else notification) <$> notifications w) w).

(** [clearNotifications] *)
Definition clearNotifications : M unit := modify (with_notifications []).

Inductive SummaryStatus := generating | completed | failed.

Record Participant := mkParticipant {
  userId : string;
  name : string;
  pMessageCount : Z
}.

Record ChatSummary := mkSummary {
  cs_id : string;
  title : string;
  content : string;
  cs_groupId : string;
  groupName : string;
  generatedAt : Date;
  timeRange : Date * Date;
  messageCount : Z;
  wordCount : Z;
  keyPoints : list string;
  topics : list string;
  participants : list Participant;
  status : SummaryStatus
}.

(** The state update of [addSummary], on [recentSummaries]. *)
Definition addSummary (summary : ChatSummary) (recentSummaries : list ChatSummary)
    : list ChatSummary :=
  let updatedSummaries :=
    match list_find (λ s, cs_id s = cs_id summary) recentSummaries with
    | Some (existingIndex, _) => <[existingIndex := summary]> recentSummaries
    | None => summary :: recentSummaries
    end in
  if bool_decide (10 < length updatedSummaries)%nat
  then take 10 updatedSummaries
  else updatedSummaries.

(** The state update of [removeSummary]. *)
Definition removeSummary (summaryId : string) (recentSummaries : list ChatSummary)
    : list ChatSummary :=
  filter (λ s, cs_id s ≠ summaryId) recentSummaries.

(** ** Vocabulary of the further statements *)

(** The empty object [{}] as an update. *)
Definition noUpdates : PartialTask :=
  mkPartial None None None None None None None None None None None None.

(** The task [addTask] builds in world [w] from [task]. *)
Definition newTaskOf (host : Host) (task : TaskSpec) (w : World) : SchedulerTask :=
  {| id := freshId host w;
     type := s_type task; groupId := s_groupId task; frequency := s_frequency task;
     customCron := s_customCron task; nextRunTime := s_nextRunTime task;
     lastRunTime := s_lastRunTime task; lastRunStatus := s_lastRunStatus task;
     isActive := s_isActive task;
     createdAt := Some (clock host (S (reads w)));
     updatedAt := Some (clock host (S (S (reads w))));
     options := s_options task |}.

(** A computation that keeps [I], whether it returns or throws. *)
Definition preserves {A} (I : World → Prop) (m : M A) : Prop :=
  ∀ w, I w → wpx m (λ _, I) (λ _, I) w.

(** The stored entry mirrors the collection: it holds the collection, or
    nothing was stored yet and the collection is empty. *)
Definition synced (w : World) : Prop :=
  localStorage w = Some (tasks w) ∨ (localStorage w = None ∧ tasks w = []).

(** A host whose storage refuses every write. *)
Definition fullHost : Host :=
  mkHost 0 (λ n, jan31 + Z.of_nat n) (λ _, "0.k3j9x2m4pq") (λ _, true) 100.

(** What the bookkeeping steps keep: the collection, the stored entry and
    the record of the callback's calls. *)
Definition bookkeeping (w w' : World) : Prop :=
  tasks w' = tasks w ∧ localStorage w' = localStorage w ∧ calls w' = calls w.

(** A property of the world that bookkeeping steps cannot change. *)
Definition stable (I : World → Prop) : Prop :=
  ∀ w w', bookkeeping w w' → I w → I w'.

(** A task all of whose dates are valid, so that [toJSON] maps none of
    them to [null]. *)
Definition validDates (task : SchedulerTask) : Prop :=
  nextRunTime task ≠ None ∧ lastRunTime task ≠ Some None
  ∧ createdAt task ≠ None ∧ updatedAt task ≠ None.

(** A task whose [options], if any, hold only values that JSON gives back
    as they are. *)
Definition plainOptions (task : SchedulerTask) : Prop :=
  match options task with
  | Some properties => Forall (λ property, jsonNative property.2 = true) properties
  | None => True
  end.

(** A task with options. *)
Definition optionedTask : SchedulerTask :=
  mkTask "a" poster "g1" "daily" None (Some 0) (Some (Some 0)) (Some success) true
    (Some 0) (Some 0)
    (Some [("template", VString "modern");
           ("sizes", VArray [VNumber 1; VNumber 2]);
           ("frame", VObject [("visible", VBoolean true); ("colour", VNull)])]).

(** The hook before the scheduler was started. *)
Definition stoppedHook (w : World) : Hook := mkHook w false None [] 0.

Definition summary_of (summaryId : string) : ChatSummary :=
  mkSummary summaryId "t" "c" "g1" "group" (Some 0) (Some 0, Some 0) 0 0 [] [] [] completed.

(** A task whose next run time is an invalid date. *)
Definition invalidTask : SchedulerTask :=
  mkTask "a" summary "g1" "custom" (Some "not-a-time") None None None true (Some 0) (Some 0) None.

Definition weeklyUpdate : PartialTask :=
  mkPartial None None None (Some "weekly") None None None None None None None None.

(** ** Facts about the [Date] model *)

Module DateFacts.

Ltac unfold_time :=
  unfold WeekDay, MakeDate, MakeTime, HourFromTime, MinFromTime, SecFromTime, msFromTime,
    Day, TimeWithinDay, LocalTime, UTC, maxTime,
    msPerDay, msPerHour, msPerMinute, msPerSecond in *.

Ltac div_lia := unfold_time; Z.div_mod_to_equations; lia.

(** [YearFromDay d] is the year whose days include [d]. *)
Lemma YearFromDay_spec d :
  DayFromYear (YearFromDay d) ≤ d < DayFromYear (YearFromDay d + 1).
Proof.
  unfold YearFromDay.
  repeat case_bool_decide; unfold DayFromYear in *; Z.div_mod_to_equations; lia.
Qed.

Lemma MonthFromTime_range t : 0 ≤ MonthFromTime t ≤ 11.
Proof. unfold MonthFromTime. repeat case_bool_decide; lia. Qed.

(** Moving the day of the month moves the day number by as much. *)
Lemma MakeDay_shift t k :
  MakeDay (YearFromTime t) (MonthFromTime t) (DateFromTime t + k) = Day t + k.
Proof.
  unfold MakeDay, DateFromTime, DayWithinYear, InLeapYear.
  pose proof (MonthFromTime_range t) as Hm.
  rewrite (Z.div_small (MonthFromTime t) 12), (Z.mod_small (MonthFromTime t) 12) by lia.
  rewrite Z.add_0_r. lia.
Qed.

(** *** The calendar *)

Lemma DayFromYear_succ y : DayFromYear (y + 1) = DayFromYear y + DaysInYear y.
Proof.
  unfold DayFromYear, DaysInYear, isLeap.
  repeat case_bool_decide; cbn; Z.div_mod_to_equations; lia.
Qed.

Lemma DayFromYear_mono a b : a ≤ b → DayFromYear a ≤ DayFromYear b.
Proof. unfold DayFromYear. intros Hab. Z.div_mod_to_equations. lia. Qed.

Lemma DaysInYear_leap y : DaysInYear y = 365 + (if isLeap y then 1 else 0).
Proof. unfold DaysInYear. by destruct (isLeap y). Qed.

(** The year of a day is determined by the two bounds of [YearFromDay_spec]. *)
Lemma YearFromDay_unique d y :
  DayFromYear y ≤ d < DayFromYear (y + 1) → YearFromDay d = y.
Proof.
  intros Hy. pose proof (YearFromDay_spec d) as Hs.
  destruct (Z.lt_trichotomy (YearFromDay d) y) as [Hlt | [Heq | Hgt]]; [| done |].
  - pose proof (DayFromYear_mono (YearFromDay d + 1) y). lia.
  - pose proof (DayFromYear_mono (y + 1) (YearFromDay d)). lia.
Qed.

Lemma DayWithinYear_range t : 0 ≤ DayWithinYear t < 365 + InLeapYear t.
Proof.
  unfold DayWithinYear, InLeapYear, YearFromTime.
  pose proof (YearFromDay_spec (Day t)) as Hs.
  rewrite DayFromYear_succ, DaysInYear_leap in Hs. lia.
Qed.

Lemma InLeapYear_range t : 0 ≤ InLeapYear t ≤ 1.
Proof. unfold InLeapYear. by destruct (isLeap _). Qed.

Lemma DaysInMonth_range m leap : 0 ≤ leap ≤ 1 → 28 ≤ DaysInMonth m leap ≤ 31.
Proof. intros Hl. unfold DaysInMonth. repeat case_bool_decide; lia. Qed.

(** A date is a day of its month. *)
Lemma DateFromTime_range t :
  1 ≤ DateFromTime t ≤ DaysInMonth (MonthFromTime t) (InLeapYear t).
Proof.
  pose proof (DayWithinYear_range t) as Hd.
  pose proof (InLeapYear_range t) as Hl.
  unfold DateFromTime, MonthFromTime, DaysInMonth, daysBeforeMonth.
  repeat case_bool_decide; lia.
Qed.

(** The day number of a time, from its year, month and date. *)
Lemma Day_civil t :
  Day t = DayFromYear (YearFromTime t)
          + daysBeforeMonth (MonthFromTime t) (InLeapYear t) + DateFromTime t - 1.
Proof. unfold DateFromTime, DayWithinYear. lia. Qed.

(** Year, month and date of the day made from them. *)
Lemma civil_of_MakeDay y m dt t :
  0 ≤ m ≤ 11 → 1 ≤ dt ≤ DaysInMonth m (if isLeap y then 1 else 0) →
  Day t = MakeDay y m dt →
  YearFromTime t = y ∧ MonthFromTime t = m ∧ DateFromTime t = dt.
Proof.
  intros Hm Hdt Hday. unfold MakeDay in Hday.
  rewrite (Z.div_small m 12), (Z.mod_small m 12), Z.add_0_r in Hday by lia.
  assert (Hl : 0 ≤ (if isLeap y then 1 else 0) ≤ 1) by (by destruct (isLeap y)).
  assert (Hy : YearFromTime t = y).
  { apply YearFromDay_unique. rewrite DayFromYear_succ, DaysInYear_leap, Hday.
    unfold DaysInMonth, daysBeforeMonth in *. repeat case_bool_decide; lia. }
  assert (Hmonth : MonthFromTime t = m).
  { unfold MonthFromTime, DayWithinYear, InLeapYear. rewrite Hy, Hday.
    unfold DaysInMonth, daysBeforeMonth in *. repeat case_bool_decide; lia. }
  split_and!; [done | done |].
  unfold DateFromTime, DayWithinYear, InLeapYear. rewrite Hmonth, Hy, Hday. lia.
Qed.

Lemma MakeDay_date y m dt : MakeDay y m dt = MakeDay y m 1 + (dt - 1).
Proof. unfold MakeDay. lia. Qed.

(** Months beyond December count into the following years. *)
Lemma MakeDay_normalize y m dt : MakeDay y m dt = MakeDay (y + m / 12) (m mod 12) dt.
Proof.
  unfold MakeDay. rewrite Z.mod_mod by lia.
  rewrite (Z.div_small (m mod 12) 12) by (apply Z.mod_pos_bound; lia).
  by rewrite Z.add_0_r.
Qed.

(** The first day of the month after month [m] of year [y] comes
    [DaysInMonth m] days after the first day of that month. *)
Lemma MakeDay_next_month y m :
  0 ≤ m ≤ 11 →
  MakeDay y (m + 1) 1 = MakeDay y m 1 + DaysInMonth m (if isLeap y then 1 else 0).
Proof.
  intros Hm. unfold MakeDay.
  rewrite (Z.div_small m 12), (Z.mod_small m 12), Z.add_0_r by lia.
  destruct (decide (m = 11)) as [-> | Hne].
  - change ((11 + 1) / 12) with 1. change ((11 + 1) mod 12) with 0.
    rewrite DayFromYear_succ, DaysInYear_leap.
    unfold DaysInMonth, daysBeforeMonth. repeat case_bool_decide; lia.
  - rewrite (Z.div_small (m + 1) 12), (Z.mod_small (m + 1) 12), Z.add_0_r by lia.
    unfold DaysInMonth, daysBeforeMonth. repeat case_bool_decide; lia.
Qed.

(** The first day of the month of a time. *)
Lemma first_of_month t :
  MakeDay (YearFromTime t) (MonthFromTime t) 1 = Day t - (DateFromTime t - 1).
Proof.
  replace 1 with (DateFromTime t + (1 - DateFromTime t)) at 1 by lia.
  rewrite MakeDay_shift. lia.
Qed.

(** A time on or after the first day of a month has the first day of its
    own month on or after that day. *)
Lemma first_of_month_after t y m :
  0 ≤ m ≤ 11 → MakeDay y m 1 ≤ Day t → MakeDay y m 1 ≤ Day t - (DateFromTime t - 1).
Proof.
  intros Hm HF.
  destruct (Z.le_gt_cases (MakeDay y m 1) (Day t - (DateFromTime t - 1))) as [| Hgt]; [done |].
  exfalso. set (F := MakeDay y m 1) in *.
  pose proof (MonthFromTime_range t) as HM. pose proof (DateFromTime_range t) as HD.
  assert (Hday : Day (F * msPerDay) = F) by div_lia.
  destruct (civil_of_MakeDay y m 1 (F * msPerDay)) as (_ & _ & H1); [done | | done |].
  { pose proof (DaysInMonth_range m (if isLeap y then 1 else 0)). destruct (isLeap y); lia. }
  destruct (civil_of_MakeDay (YearFromTime t) (MonthFromTime t)
              (F - (Day t - (DateFromTime t - 1)) + 1) (F * msPerDay)) as (_ & _ & H2);
    [done | fold (InLeapYear t); lia | | lia].
  rewrite MakeDay_date, first_of_month, Hday. lia.
Qed.

Lemma TimeClip_near t r :
  safe t → Z.abs (r - t) ≤ 100 * msPerDay → TimeClip r = Some r.
Proof.
  unfold safe, TimeClip. intros Ht Hr.
  rewrite bool_decide_eq_true_2; [done | unfold_time; lia].
Qed.

Section Setters.
Variable z : Z.

Lemma setDate_shift t k :
  safe t → -40 ≤ k ≤ 40 →
  setDate z (Some t) (num_add (getDate z (Some t)) (Some k)) = Some (t + k * msPerDay).
Proof.
  intros Ht Hk. cbn. rewrite MakeDay_shift.
  replace (UTC z _) with (t + k * msPerDay) by div_lia.
  apply (TimeClip_near t); [done | div_lia].
Qed.

Lemma setHours_local_near t r h :
  safe r → Z.abs (t - r) ≤ 80 * msPerDay → -72 ≤ h ≤ 72 →
  setHours z (Some t) (Some h) =
    Some (Day (t + z) * msPerDay + h * msPerHour + (t + z) mod msPerHour - z).
Proof.
  intros Hr Ht Hh. cbn.
  replace (UTC z _) with (Day (t + z) * msPerDay + h * msPerHour + (t + z) mod msPerHour - z)
    by div_lia.
  apply (TimeClip_near r); [done | div_lia].
Qed.

Lemma setHours_local t h :
  safe t → -72 ≤ h ≤ 72 →
  setHours z (Some t) (Some h) =
    Some (Day (t + z) * msPerDay + h * msPerHour + (t + z) mod msPerHour - z).
Proof. intros Ht Hh. apply (setHours_local_near t t); [done | div_lia | done]. Qed.

(** [setMinutes(0); setSeconds(0); setMilliseconds(0)] goes back to the
    start of the local hour. *)
Lemma top_of_hour t r :
  safe r → Z.abs (t - r) ≤ 90 * msPerDay →
  setMilliseconds z (setSeconds z (setMinutes z (Some t) (Some 0)) (Some 0)) (Some 0) =
    Some ((t + z) / msPerHour * msPerHour - z).
Proof.
  intros Hr Ht. cbn.
  set (a := UTC z (MakeDate _ (MakeTime _ 0 _ _))).
  assert (Ha : a = (t + z) / msPerHour * msPerHour + (t + z) mod msPerMinute - z)
    by (subst a; div_lia).
  rewrite (TimeClip_near r a) by (done || div_lia). cbn.
  set (b := UTC z (MakeDate _ (MakeTime _ _ 0 _))).
  assert (Hb : b = (t + z) / msPerHour * msPerHour + (t + z) mod msPerSecond - z)
    by (subst b; rewrite Ha; div_lia).
  rewrite (TimeClip_near r b) by (done || div_lia). cbn.
  set (c := UTC z (MakeDate _ (MakeTime _ _ _ 0))).
  assert (Hc : c = (t + z) / msPerHour * msPerHour - z)
    by (subst c; rewrite Hb; div_lia).
  rewrite Hc. apply (TimeClip_near r); [done | div_lia].
Qed.

(** [setMonth(getMonth() + 1)] keeps the day of the month and so moves the
    date forward by the length of the current month. *)
Lemma setMonth_next t :
  safe t →
  setMonth z (Some t) (num_add (getMonth z (Some t)) (Some 1)) =
    Some (t + DaysInMonth (MonthFromTime (t + z)) (InLeapYear (t + z)) * msPerDay).
Proof.
  intros Ht. cbn.
  pose proof (MonthFromTime_range (LocalTime z t)) as Hm.
  pose proof (DateFromTime_range (LocalTime z t)) as Hd.
  assert (Hday : MakeDay (YearFromTime (LocalTime z t)) (MonthFromTime (LocalTime z t) + 1)
                   (DateFromTime (LocalTime z t))
                 = Day (LocalTime z t)
                   + DaysInMonth (MonthFromTime (LocalTime z t)) (InLeapYear (LocalTime z t))).
  { transitivity (MakeDay (YearFromTime (LocalTime z t)) (MonthFromTime (LocalTime z t) + 1) 1
                  + (DateFromTime (LocalTime z t) - 1)); [unfold MakeDay; lia |].
    rewrite MakeDay_next_month by done. fold (InLeapYear (LocalTime z t)).
    rewrite (Day_civil (LocalTime z t)). unfold MakeDay.
    rewrite (Z.div_small (MonthFromTime _) 12), (Z.mod_small (MonthFromTime _) 12) by lia.
    rewrite Z.add_0_r. fold (InLeapYear (LocalTime z t)). lia. }
  rewrite Hday.
  pose proof (DaysInMonth_range (MonthFromTime (LocalTime z t)) _
                (InLeapYear_range (LocalTime z t))) as Hdim.
  change (LocalTime z t) with (t + z) in *.
  set (dim := DaysInMonth _ _) in *.
  replace (UTC z _) with (t + dim * msPerDay) by div_lia.
  apply (TimeClip_near t); [done | div_lia].
Qed.

(** [setDate(1)] goes back to the first day of the month. *)
Lemma setDate_first t r :
  safe r → Z.abs (t - r) ≤ 35 * msPerDay →
  setDate z (Some t) (Some 1) = Some (t - (DateFromTime (t + z) - 1) * msPerDay).
Proof.
  intros Hr Ht. cbn.
  pose proof (DateFromTime_range (LocalTime z t)) as Hd.
  pose proof (DaysInMonth_range (MonthFromTime (LocalTime z t)) _
                (InLeapYear_range (LocalTime z t))) as Hdim.
  replace 1 with (DateFromTime (LocalTime z t) + (1 - DateFromTime (LocalTime z t))) at 1 by lia.
  rewrite MakeDay_shift.
  change (LocalTime z t) with (t + z) in *.
  set (dt := DateFromTime _) in *.
  replace (UTC z _) with (t - (dt - 1) * msPerDay) by div_lia.
  apply (TimeClip_near r); [done | div_lia].
Qed.

(** [setHours(h); setMinutes(m); setSeconds(0); setMilliseconds(0)]: [h]
    hours and [m] minutes counted from the start of the local day. *)
Lemma at_time t r h m :
  safe r → Z.abs (t - r) ≤ 80 * msPerDay → -72 ≤ h ≤ 72 → -6000 ≤ m ≤ 6000 →
  setMilliseconds z
    (setSeconds z (setMinutes z (setHours z (Some t) (Some h)) (Some m)) (Some 0)) (Some 0) =
    Some (Day (t + z) * msPerDay + h * msPerHour + m * msPerMinute - z).
Proof.
  intros Hr Ht Hh Hm.
  rewrite (setHours_local_near t r) by done. cbn.
  set (a := UTC z (MakeDate _ (MakeTime _ m _ _))).
  assert (Ha : a = Day (t + z) * msPerDay + h * msPerHour + m * msPerMinute
                   + (t + z) mod msPerMinute - z) by (subst a; div_lia).
  rewrite (TimeClip_near r a) by (done || div_lia). cbn.
  set (b := UTC z (MakeDate _ (MakeTime _ _ 0 _))).
  assert (Hb : b = Day (t + z) * msPerDay + h * msPerHour + m * msPerMinute
                   + (t + z) mod msPerSecond - z) by (subst b; rewrite Ha; div_lia).
  rewrite (TimeClip_near r b) by (done || div_lia). cbn.
  set (c := UTC z (MakeDate _ (MakeTime _ _ _ 0))).
  assert (Hc : c = Day (t + z) * msPerDay + h * msPerHour + m * msPerMinute - z)
    by (subst c; rewrite Hb; div_lia).
  rewrite Hc. apply (TimeClip_near r); [done | div_lia].
Qed.

(** [setHours(h); setMinutes(0); setSeconds(0); setMilliseconds(0)]:
    [h] o'clock counted from the start of the local day. *)
Lemma at_hour t r h :
  safe r → Z.abs (t - r) ≤ 80 * msPerDay → -72 ≤ h ≤ 72 →
  setMilliseconds z
    (setSeconds z (setMinutes z (setHours z (Some t) (Some h)) (Some 0)) (Some 0)) (Some 0) =
    Some (Day (t + z) * msPerDay + h * msPerHour - z).
Proof.
  intros Hr Ht Hh. rewrite (at_time t r h 0) by (done || lia). f_equal. lia.
Qed.
End Setters.

End DateFacts.

(** ** The next run time *)

Module NextRun.
Import DateFacts.

Section WithHost.
Context (host : Host).

(** One call of [calculateNextRunTime]: two readings of the clock, then
    the candidate is returned or the function calls itself. *)
Lemma calculateNextRunTime_rec_step depth task w :
  calculateNextRunTime_rec host (S depth) task w =
    let now := Some (clock host (reads w)) in
    let nextRun := candidate host task (Some (clock host (S (reads w)))) in
    let w' := with_reads (S (S (reads w))) w in
    if num_le nextRun now
    then calculateNextRunTime_rec host depth (with_lastRunTime (Some now) task) w'
    else (Normal nextRun, w').
Proof.
  cbn. unfold mbind, M_bind, newDate. cbn.
  destruct (num_le _ _); reflexivity.
Qed.

Lemma num_or_nonzero k b : k ≠ 0 → num_or (Some k) b = Some k.
Proof. destruct k; [congruence | done | done]. Qed.

Lemma candidate_daily task t :
  frequency task = "daily" → safe t →
  candidate host task (Some t) = Some ((Day (t + tza host) + 1) * msPerDay + 9 * msPerHour - tza host).
Proof.
  intros Hf Ht. unfold candidate. rewrite Hf.
  rewrite !decide_False by discriminate. rewrite decide_True by reflexivity.
  rewrite setDate_shift by (done || lia).
  rewrite (at_hour (tza host) _ t) by (done || div_lia).
  f_equal. div_lia.
Qed.

Lemma candidate_weekly task t :
  frequency task = "weekly" → safe t →
  candidate host task (Some t) =
    Some ((Day (t + tza host) + (7 - WeekDay (t + tza host))) * msPerDay + 9 * msPerHour - tza host).
Proof.
  intros Hf Ht. unfold candidate. rewrite Hf.
  rewrite !decide_False by discriminate. rewrite decide_True by reflexivity.
  assert (Hwd : 0 ≤ WeekDay (t + tza host) ≤ 6) by div_lia.
  change (getDay (tza host) (Some t)) with (Some (WeekDay (t + tza host))).
  change (num_sub (Some 7) (Some (WeekDay (t + tza host)))) with (Some (7 - WeekDay (t + tza host))).
  rewrite num_or_nonzero by lia.
  rewrite setDate_shift by (done || lia).
  rewrite (at_hour (tza host) _ t) by (done || div_lia).
  f_equal. div_lia.
Qed.

Lemma candidate_hourly task t :
  frequency task = "hourly" → safe t →
  candidate host task (Some t) = Some (((t + tza host) / msPerHour + 1) * msPerHour - tza host).
Proof.
  intros Hf Ht. unfold candidate. rewrite Hf.
  rewrite decide_True by reflexivity.
  change (getHours (tza host) (Some t)) with (Some (HourFromTime (t + tza host))).
  change (num_add (Some (HourFromTime (t + tza host))) (Some 1)) with (Some (HourFromTime (t + tza host) + 1)).
  rewrite setHours_local by (done || div_lia).
  rewrite (top_of_hour (tza host) _ t) by (done || div_lia).
  f_equal. div_lia.
Qed.

Lemma candidate_other task t :
  frequency task ≠ "hourly" → frequency task ≠ "daily" → frequency task ≠ "weekly" →
  frequency task ≠ "monthly" → frequency task ≠ "custom" → safe t →
  candidate host task (Some t) = Some (t + msPerDay).
Proof.
  intros H1 H2 H3 H4 H5 Ht. unfold candidate.
  rewrite !decide_False by done.
  rewrite setDate_shift by (done || lia). f_equal; lia.
Qed.

(** The frequency 'monthly': 09:00 on the first day of the month in which
    the date falls that has the same day of the month one month later. *)
Lemma candidate_monthly task t :
  frequency task = "monthly" → safe t →
  let t1 := t + DaysInMonth (MonthFromTime (t + tza host)) (InLeapYear (t + tza host)) * msPerDay in
  candidate host task (Some t) =
    Some ((Day (t1 + tza host) - (DateFromTime (t1 + tza host) - 1)) * msPerDay
          + 9 * msPerHour - tza host).
Proof.
  intros Hf Ht t1. unfold candidate. rewrite Hf.
  rewrite !decide_False by discriminate. rewrite decide_True by reflexivity.
  rewrite setMonth_next by done. fold t1.
  pose proof (DaysInMonth_range (MonthFromTime (t + tza host)) _
                (InLeapYear_range (t + tza host))) as Hdim.
  pose proof (DateFromTime_range (t1 + tza host)) as Hd.
  pose proof (DaysInMonth_range (MonthFromTime (t1 + tza host)) _
                (InLeapYear_range (t1 + tza host))) as Hdim1.
  rewrite (setDate_first (tza host) _ t) by (done || (subst t1; div_lia)).
  rewrite (at_hour (tza host) _ t) by (done || (subst t1; div_lia)).
  f_equal. div_lia.
Qed.

(** A schedule "h:m" with small numbers: [h] hours and [m] minutes counted
    from the start of tomorrow, whatever their signs. *)
Lemma candidate_custom task cron h m t :
  frequency task = "custom" → customCron task = Some cron → cron ≠ "" →
  element (Number <$> split ":" cron) 0 = Some h →
  element (Number <$> split ":" cron) 1 = Some m →
  -72 ≤ h ≤ 72 → -6000 ≤ m ≤ 6000 → safe t →
  candidate host task (Some t) =
    Some ((Day (t + tza host) + 1) * msPerDay + h * msPerHour + m * msPerMinute - tza host).
Proof.
  intros Hf Hc Hne Hh Hm Hhr Hmr Ht. unfold candidate. rewrite Hf, Hc, Hh, Hm.
  rewrite !decide_False by discriminate. rewrite decide_True by reflexivity.
  destruct cron as [|c cron']; [done |].
  rewrite setDate_shift by (done || lia).
  rewrite (at_time (tza host) _ t) by (done || div_lia).
  f_equal. div_lia.
Qed.

(** A schedule whose hour is no number: the candidate is an invalid
    date. *)
Lemma candidate_custom_NaN task cron d :
  frequency task = "custom" → customCron task = Some cron → cron ≠ "" →
  element (Number <$> split ":" cron) 0 = NaN →
  candidate host task d = NaN.
Proof.
  intros Hf Hc Hne Hh. unfold candidate. rewrite Hf, Hc, Hh.
  rewrite !decide_False by discriminate. rewrite decide_True by reflexivity.
  destruct cron as [|c cron']; [done |].
  unfold setHours. destruct (setDate _ _ _); reflexivity.
Qed.

(** No schedule at all: the candidate is the fresh date itself. *)
Lemma candidate_custom_absent task d :
  frequency task = "custom" → customCron task = None ∨ customCron task = Some "" →
  candidate host task d = d.
Proof.
  intros Hf Hc. unfold candidate. rewrite Hf.
  rewrite !decide_False by discriminate. rewrite decide_True by reflexivity.
  destruct Hc as [-> | ->]; reflexivity.
Qed.
End WithHost.

(** A candidate after the reference time is returned by the first call. *)
Lemma calculateNextRunTime_returns host task w r :
  candidate host task (Some (clock host (S (reads w)))) = Some r →
  clock host (reads w) < r →
  calculateNextRunTime host task w = (Normal (Some r), with_reads (S (S (reads w))) w).
Proof.
  intros Hc Hlt. unfold calculateNextRunTime.
  rewrite calculateNextRunTime_rec_step. cbv zeta. rewrite Hc.
  unfold num_le. by rewrite bool_decide_eq_false_2 by lia.
Qed.

(** X1.  The frequency 'daily': 09:00 local time on the day after the
    fresh date, which is after the reference time. *)
Lemma calculateNextRunTime_daily host task w :
  frequency task = "daily" →
  safe (clock host (S (reads w))) → clock host (reads w) ≤ clock host (S (reads w)) →
  ∃ r, calculateNextRunTime host task w = (Normal (Some r), with_reads (S (S (reads w))) w)
       ∧ Day (LocalTime (tza host) r) = Day (LocalTime (tza host) (clock host (S (reads w)))) + 1
       ∧ TimeWithinDay (LocalTime (tza host) r) = 9 * msPerHour
       ∧ clock host (reads w) < r.
Proof.
  intros Hf Hsafe Hle. set (t := clock host (S (reads w))) in *.
  exists ((Day (t + tza host) + 1) * msPerDay + 9 * msPerHour - tza host).
  assert (clock host (reads w) < (Day (t + tza host) + 1) * msPerDay + 9 * msPerHour - tza host)
    by div_lia.
  split_and!; [| div_lia | div_lia | done].
  apply calculateNextRunTime_returns; [by apply candidate_daily | done].
Qed.

(** X2.  The frequency 'hourly', on a host whose local time is at a
    constant offset from UTC (no daylight-saving transition): the start of
    the next local hour, at most an hour after the fresh date and after
    the reference time. *)
Lemma calculateNextRunTime_hourly host task w :
  frequency task = "hourly" →
  safe (clock host (S (reads w))) → clock host (reads w) ≤ clock host (S (reads w)) →
  ∃ r, calculateNextRunTime host task w = (Normal (Some r), with_reads (S (S (reads w))) w)
       ∧ LocalTime (tza host) r mod msPerHour = 0
       ∧ clock host (S (reads w)) < r ≤ clock host (S (reads w)) + msPerHour
       ∧ clock host (reads w) < r.
Proof.
  intros Hf Hsafe Hle. set (t := clock host (S (reads w))) in *.
  exists (((t + tza host) / msPerHour + 1) * msPerHour - tza host).
  assert (clock host (reads w) < ((t + tza host) / msPerHour + 1) * msPerHour - tza host)
    by div_lia.
  split_and!; [| div_lia | div_lia | div_lia | done].
  apply calculateNextRunTime_returns; [by apply candidate_hourly | done].
Qed.

(** X6.  A frequency that is none of the five, on a host whose local
    time is at a constant offset from UTC (no daylight-saving transition):
    the fresh date exactly a day later. *)
Lemma calculateNextRunTime_other host task w :
  frequency task ≠ "hourly" → frequency task ≠ "daily" → frequency task ≠ "weekly" →
  frequency task ≠ "monthly" → frequency task ≠ "custom" →
  safe (clock host (S (reads w))) → clock host (reads w) ≤ clock host (S (reads w)) →
  calculateNextRunTime host task w
  = (Normal (Some (clock host (S (reads w)) + msPerDay)), with_reads (S (S (reads w))) w).
Proof.
  intros H1 H2 H3 H4 H5 Hsafe Hle.
  apply calculateNextRunTime_returns; [by apply candidate_other | unfold msPerDay; lia].
Qed.

(** X4.  The frequency 'monthly', from any day: 09:00 on the first day of
    a month, after the reference time. *)
Lemma calculateNextRunTime_monthly_first host task w :
  frequency task = "monthly" →
  safe (clock host (S (reads w))) → clock host (reads w) ≤ clock host (S (reads w)) →
  ∃ r, calculateNextRunTime host task w = (Normal (Some r), with_reads (S (S (reads w))) w)
       ∧ DateFromTime (LocalTime (tza host) r) = 1
       ∧ TimeWithinDay (LocalTime (tza host) r) = 9 * msPerHour
       ∧ clock host (reads w) < r.
Proof.
  intros Hf Hsafe Hle. unfold LocalTime in *.
  set (t := clock host (S (reads w))) in *. set (lt := t + tza host) in *.
  set (dim := DaysInMonth (MonthFromTime lt) (InLeapYear lt)).
  set (lt1 := t + dim * msPerDay + tza host).
  set (r := (Day lt1 - (DateFromTime lt1 - 1)) * msPerDay + 9 * msPerHour - tza host).
  pose proof (MonthFromTime_range lt) as HM. pose proof (MonthFromTime_range lt1) as HM1.
  pose proof (DateFromTime_range lt) as HD.
  pose proof (DaysInMonth_range (MonthFromTime lt) _ (InLeapYear_range lt)) as Hdim.
  fold dim in HD, Hdim.
  assert (Hdayr : Day (r + tza host) = MakeDay (YearFromTime lt1) (MonthFromTime lt1) 1).
  { rewrite first_of_month. subst r. div_lia. }
  destruct (civil_of_MakeDay (YearFromTime lt1) (MonthFromTime lt1) 1 (r + tza host))
    as (_ & _ & HDr); [done | | done |].
  { pose proof (DaysInMonth_range (MonthFromTime lt1) (if isLeap (YearFromTime lt1) then 1 else 0)).
    destruct (isLeap (YearFromTime lt1)); lia. }
  assert (Hnext : MakeDay (YearFromTime lt) (MonthFromTime lt + 1) 1 = Day lt - (DateFromTime lt - 1) + dim).
  { rewrite MakeDay_next_month, first_of_month by done. done. }
  assert (Hafter : Day lt - (DateFromTime lt - 1) + dim ≤ Day lt1 - (DateFromTime lt1 - 1)).
  { rewrite <- Hnext, MakeDay_normalize.
    apply first_of_month_after; [Z.div_mod_to_equations; lia |].
    rewrite <- MakeDay_normalize, Hnext. subst lt1 lt. div_lia. }
  assert (Hlt : clock host (reads w) < r) by (subst r lt; div_lia).
  exists r. split_and!; [| done | subst r; div_lia | done].
  apply calculateNextRunTime_returns; [| done].
  fold t. by rewrite candidate_monthly.
Qed.

(** X3.  The frequency 'monthly', from a day of the month up to the 28th:
    09:00 on the first day of the next calendar month. *)
Lemma calculateNextRunTime_monthly host task w :
  frequency task = "monthly" →
  safe (clock host (S (reads w))) → clock host (reads w) ≤ clock host (S (reads w)) →
  DateFromTime (LocalTime (tza host) (clock host (S (reads w)))) ≤ 28 →
  ∃ r, calculateNextRunTime host task w = (Normal (Some r), with_reads (S (S (reads w))) w)
       ∧ YearFromTime (LocalTime (tza host) r)
         = YearFromTime (LocalTime (tza host) (clock host (S (reads w))))
           + (MonthFromTime (LocalTime (tza host) (clock host (S (reads w)))) + 1) / 12
       ∧ MonthFromTime (LocalTime (tza host) r)
         = (MonthFromTime (LocalTime (tza host) (clock host (S (reads w)))) + 1) mod 12
       ∧ DateFromTime (LocalTime (tza host) r) = 1
       ∧ TimeWithinDay (LocalTime (tza host) r) = 9 * msPerHour
       ∧ clock host (reads w) < r.
Proof.
  intros Hf Hsafe Hle H28. unfold LocalTime in *.
  set (t := clock host (S (reads w))) in *. set (lt := t + tza host) in *.
  set (Y := YearFromTime lt). set (M := MonthFromTime lt).
  set (Y' := Y + (M + 1) / 12). set (M' := (M + 1) mod 12).
  set (dim := DaysInMonth M (InLeapYear lt)).
  pose proof (MonthFromTime_range lt) as HM. fold M in HM.
  pose proof (DateFromTime_range lt) as Hdt. fold M dim in Hdt.
  assert (HM' : 0 ≤ M' ≤ 11) by (subst M'; Z.div_mod_to_equations; lia).
  pose proof (DaysInMonth_range M _ (InLeapYear_range lt)) as Hdim. fold dim in Hdim.
  assert (Hdim' : 28 ≤ DaysInMonth M' (if isLeap Y' then 1 else 0) ≤ 31).
  { apply DaysInMonth_range. by destruct (isLeap Y'). }
  assert (Hfirst : MakeDay Y' M' 1 = Day lt + dim - (DateFromTime lt - 1)).
  { subst Y' M'. rewrite <- (MakeDay_normalize Y (M + 1) 1). subst Y M.
    rewrite MakeDay_next_month by done. fold (InLeapYear lt). fold dim.
    replace 1 with (DateFromTime lt + (1 - DateFromTime lt)) at 1 by lia.
    rewrite MakeDay_shift. lia. }
  assert (Hday1 : Day (t + dim * msPerDay + tza host) = MakeDay Y' M' (DateFromTime lt)).
  { rewrite (MakeDay_date Y' M'), Hfirst. subst lt. div_lia. }
  destruct (civil_of_MakeDay Y' M' (DateFromTime lt) (t + dim * msPerDay + tza host))
    as (_ & _ & Hdt1); [done | lia | done |].
  set (r := (Day (t + dim * msPerDay + tza host) - (DateFromTime lt - 1)) * msPerDay
            + 9 * msPerHour - tza host).
  assert (Hdayr : Day (r + tza host) = MakeDay Y' M' 1).
  { rewrite Hfirst. subst r lt. div_lia. }
  destruct (civil_of_MakeDay Y' M' 1 (r + tza host)) as (HYr & HMr & HDr); [done | lia | done |].
  assert (Hlt : clock host (reads w) < r) by (subst r lt; div_lia).
  exists r. split_and!; [| done | done | done | subst r; div_lia | done].
  apply calculateNextRunTime_returns; [| done].
  fold t. rewrite candidate_monthly by done. cbv zeta.
  fold lt. fold M. fold dim. rewrite Hdt1. done.
Qed.

(** X5.  The frequency 'custom' with a schedule whose first two parts
    [Number] converts to an hour and a minute of the day, on a host whose
    local time is at a constant offset from UTC (no daylight-saving
    transition): that time on the day after the fresh date. *)
Lemma calculateNextRunTime_custom host task cron h m w :
  frequency task = "custom" → customCron task = Some cron → cron ≠ "" →
  element (Number <$> split ":" cron) 0 = Some h →
  element (Number <$> split ":" cron) 1 = Some m →
  0 ≤ h < 24 → 0 ≤ m < 60 →
  safe (clock host (S (reads w))) → clock host (reads w) ≤ clock host (S (reads w)) →
  ∃ r, calculateNextRunTime host task w = (Normal (Some r), with_reads (S (S (reads w))) w)
       ∧ Day (LocalTime (tza host) r) = Day (LocalTime (tza host) (clock host (S (reads w)))) + 1
       ∧ TimeWithinDay (LocalTime (tza host) r) = h * msPerHour + m * msPerMinute
       ∧ clock host (reads w) < r.
Proof.
  intros Hf Hc Hne Hh Hm Hhr Hmr Hsafe Hle. set (t := clock host (S (reads w))) in *.
  exists ((Day (t + tza host) + 1) * msPerDay + h * msPerHour + m * msPerMinute - tza host).
  assert (clock host (reads w)
          < (Day (t + tza host) + 1) * msPerDay + h * msPerHour + m * msPerMinute - tza host)
    by div_lia.
  split_and!; [| div_lia | div_lia | done].
  apply calculateNextRunTime_returns; [| done].
  apply (candidate_custom host task cron); (done || lia).
Qed.

(** X7.  The frequency 'custom' without a schedule: the candidate is the
    fresh date itself, and it is returned, not a time a day later, when
    the clock has ticked between the two readings of a call... *)
Lemma calculateNextRunTime_custom_absent_ticked host task w :
  frequency task = "custom" → customCron task = None ∨ customCron task = Some "" →
  clock host (reads w) < clock host (S (reads w)) →
  calculateNextRunTime host task w
  = (Normal (Some (clock host (S (reads w)))), with_reads (S (S (reads w))) w).
Proof.
  intros Hf Hc Hlt.
  apply calculateNextRunTime_returns; [by apply candidate_custom_absent | done].
Qed.

(** ...and as long as it has not, the function calls itself again. *)
Lemma calculateNextRunTime_custom_absent_still host task depth w :
  frequency task = "custom" → customCron task = None ∨ customCron task = Some "" →
  (∀ n, clock host (S n) ≤ clock host n) →
  fst (calculateNextRunTime_rec host depth task w) = Throw stackOverflow.
Proof.
  intros Hf Hc Hstill. revert task w Hf Hc.
  induction depth as [|depth IH]; intros task w Hf Hc; [reflexivity |].
  rewrite calculateNextRunTime_rec_step. cbv zeta.
  rewrite candidate_custom_absent by done.
  unfold num_le. rewrite bool_decide_eq_true_2 by apply Hstill.
  apply IH; [done | by destruct Hc as [Hc | Hc]; [left | right]].
Qed.

(** C1, at its failing input.  With the schedule "not-a-time" the hour is
    NaN, [setHours] makes the date invalid, the test [nextRun <= now] is
    false on NaN, and the invalid date is returned: no valid timestamp
    after [now] comes out. *)
Theorem calculateNextRunTime_malformed_cron_invalid host task w :
  frequency task = "custom" → customCron task = Some "not-a-time" →
  calculateNextRunTime host task w = (Normal NaN, with_reads (S (S (reads w))) w).
Proof.
  intros Hf Hc. unfold calculateNextRunTime.
  rewrite calculateNextRunTime_rec_step. cbv zeta.
  rewrite (candidate_custom_NaN host task "not-a-time") by done.
  reflexivity.
Qed.

(** C2, what the code does: for the frequency 'weekly' the result is
    09:00:00.000 local time on a Sunday (week day 0, not Monday, week day
    1), strictly after the reference time. *)
Theorem calculateNextRunTime_weekly_sunday host task w :
  frequency task = "weekly" →
  safe (clock host (S (reads w))) → clock host (reads w) ≤ clock host (S (reads w)) →
  ∃ r, calculateNextRunTime host task w = (Normal (Some r), with_reads (S (S (reads w))) w)
       ∧ getDay (tza host) (Some r) = Some 0
       ∧ TimeWithinDay (LocalTime (tza host) r) = 9 * msPerHour
       ∧ clock host (reads w) < r.
Proof.
  intros Hf Hfresh Hle.
  set (t := clock host (S (reads w))) in *.
  exists ((Day (t + tza host) + (7 - WeekDay (t + tza host))) * msPerDay + 9 * msPerHour - tza host).
  unfold calculateNextRunTime. rewrite calculateNextRunTime_rec_step. cbv zeta.
  fold t. rewrite candidate_weekly by done.
  assert (Hwd : 0 ≤ WeekDay (t + tza host) ≤ 6) by div_lia.
  unfold num_le. rewrite bool_decide_eq_false_2 by div_lia.
  split; [reflexivity |]. split; [| split].
  - cbn. f_equal. div_lia.
  - div_lia.
  - div_lia.
Qed.

(** With the schedule "-48:00" the candidate is the start of the day
    before the fresh date, which is never after the reference time; the
    recursive call reads the clock again and computes the same kind of
    candidate, so that whatever the depth allowed the call ends in the
    engine's stack overflow. *)
Lemma custom_minus48_overflows host task depth w :
  frequency task = "custom" → customCron task = Some "-48:00" →
  (∀ n, safe (clock host n)) →
  (∀ n, clock host (S n) ≤ clock host n + msPerDay) →
  fst (calculateNextRunTime_rec host depth task w) = Throw stackOverflow.
Proof.
  intros Hf Hc Hsafe Hstep. revert task w Hf Hc.
  induction depth as [|depth IH]; intros task w Hf Hc; [reflexivity |].
  rewrite calculateNextRunTime_rec_step. cbv zeta.
  rewrite (candidate_custom host task "-48:00" (-48) 0) by (done || lia).
  unfold num_le. rewrite bool_decide_eq_true_2.
  - apply IH; done.
  - pose proof (Hstep (reads w)). div_lia.
Qed.

(** C3, at its failing input.  For a task of frequency 'custom' whose
    schedule is "-48:00", on a clock whose successive readings are less
    than a day apart, no depth of recursion reaches a candidate after the
    reference time: the recursive call passes no advanced reference (the
    [lastRunTime] it sets is never read), and the call does not return a
    date. *)
Theorem calculateNextRunTime_custom_never_returns host task depth w :
  frequency task = "custom" → customCron task = Some "-48:00" →
  (∀ n, safe (clock host n)) →
  (∀ n, clock host (S n) ≤ clock host n + msPerDay) →
  ∃ w', calculateNextRunTime_rec host depth task w = (Throw stackOverflow, w').
Proof.
  intros Hf Hc Hsafe Hstep.
  pose proof (custom_minus48_overflows host task depth w Hf Hc Hsafe Hstep) as Hthrow.
  destruct (calculateNextRunTime_rec host depth task w) as [r w'].
  exists w'. cbn in Hthrow. by rewrite Hthrow.
Qed.

(** C4, at its failing input.  On 31 January 2024 the frequency 'monthly'
    gives 1 March 2024 at 09:00, not a day of February: [setMonth] moves
    31 January to the 31st day counted from 1 February, which is 2 March,
    and [setDate(1)] then takes the first day of March. *)
Theorem calculateNextRunTime_monthly_jan31 task w :
  frequency task = "monthly" →
  calculateNextRunTime (frozen jan31) task w
    = (Normal (Some mar1), with_reads (S (S (reads w))) w)
  ∧ (YearFromTime jan31, MonthFromTime jan31, DateFromTime jan31) = (2024, 0, 31)
  ∧ (YearFromTime mar1, MonthFromTime mar1, DateFromTime mar1, TimeWithinDay mar1)
    = (2024, 2, 1, 9 * msPerHour).
Proof.
  intros Hf. split; [| by vm_compute].
  unfold calculateNextRunTime. rewrite calculateNextRunTime_rec_step. cbv zeta.
  assert (Hc : candidate (frozen jan31) task (Some (clock (frozen jan31) (S (reads w))))
               = Some mar1).
  { unfold candidate. rewrite Hf.
    rewrite !decide_False by discriminate. rewrite decide_True by reflexivity.
    by vm_compute. }
  rewrite Hc. reflexivity.
Qed.

End NextRun.

(** ** Reasoning about computations *)

Module Hoare.

Lemma wpx_ret {A} (a : A) Q E w : Q a w → wpx (mret a) Q E w.
Proof. done. Qed.

Lemma wpx_bind {A B} (m : M A) (f : A → M B) Q E w :
  wpx m (λ a w', wpx (f a) Q E w') E w → wpx (m ≫= f) Q E w.
Proof. unfold wpx, mbind, M_bind. destruct (m w) as [[a|e] w']; done. Qed.

Lemma wpx_throw {A} e (Q : A → World → Prop) E w : E e w → wpx (throw e) Q E w.
Proof. done. Qed.

Lemma wpx_gets {A} (f : World → A) Q E w : Q (f w) w → wpx (gets f) Q E w.
Proof. done. Qed.

Lemma wpx_modify f Q E w : Q () (f w) → wpx (modify f) Q E w.
Proof. done. Qed.

Lemma wpx_try_catch {A} (body : M A) handler Q E w :
  wpx body Q (λ e w', wpx (handler e) Q E w') w → wpx (try_catch body handler) Q E w.
Proof. unfold wpx, try_catch. destruct (body w) as [[a|e] w']; done. Qed.

Lemma wpx_try_finally {A} (body : M A) fin Q E w :
  wpx body (λ a w', wpx fin (λ _, Q a) E w') (λ e w', wpx fin (λ _, E e) E w') w →
  wpx (try_finally body fin) Q E w.
Proof.
  unfold wpx, try_finally.
  destruct (body w) as [[a|e] w']; destruct (fin w') as [[[]|e'] w'']; done.
Qed.

Lemma wpx_mono {A} (m : M A) (Q Q' : A → World → Prop) (E E' : Exn → World → Prop) w :
  wpx m Q E w → (∀ a w', Q a w' → Q' a w') → (∀ e w', E e w' → E' e w') → wpx m Q' E' w.
Proof. unfold wpx. destruct (m w) as [[a|e] w']; eauto. Qed.

Lemma wpx_returns {A} (m : M A) Q w :
  wpx m Q no_throw w ↔ ∃ a w', m w = (Normal a, w') ∧ Q a w'.
Proof.
  unfold wpx, no_throw. destruct (m w) as [[a|e] w']; split.
  - eauto.
  - intros (a' & w'' & [= <- <-] & HQ). done.
  - done.
  - intros (a' & w'' & [=] & _).
Qed.

Lemma wpx_snd {A} (m : M A) (P : World → Prop) w :
  wpx m (λ _, P) (λ _, P) w ↔ P (snd (m w)).
Proof. unfold wpx. by destruct (m w) as [[a|e] w']. Qed.

Lemma wpx_forEach {A} (l : list A) (f : A → M unit) (I : World → Prop) E w :
  I w → (∀ x w', x ∈ l → I w' → wpx (f x) (λ _, I) E w') →
  wpx (forEach l f) (λ _, I) E w.
Proof.
  revert w. induction l as [|x l IH]; intros w Hw Hf; [done |].
  cbn. apply wpx_bind. eapply wpx_mono.
  - apply (Hf x w); [left | done].
  - intros [] w' Hw'. apply IH; [done |]. intros y w'' Hy. apply Hf. by right.
  - done.
Qed.

End Hoare.

(** ** The lifecycle operations *)

Module Lifecycle.
Import Hoare.

Lemma frame_refl w : frame w w.
Proof. done. Qed.

Lemma frame_trans w1 w2 w3 : frame w1 w2 → frame w2 w3 → frame w1 w3.
Proof. intros [H1 H2] [H3 H4]. split; congruence. Qed.

Section WithHost.
Context (host : Host) (opts : SchedulerOptions).

Lemma wp_newDate Q E w :
  Q (Some (clock host (reads w))) (with_reads (S (reads w)) w) → wpx (newDate host) Q E w.
Proof. done. Qed.

Lemma addNotification_run ty msg w :
  addNotification host ty msg w =
    (Normal (),
     with_notifications
       ({| n_id := "notification_" +:+ pretty (clock host (reads w)) +:+ "_"
                 +:+ String.substring 2 9 (random host (draws w));
           n_type := ty; n_message := msg;
           n_timestamp := Some (clock host (S (reads w))); n_read := false |}
        :: notifications w)
       (with_draws (S (draws w)) (with_reads (S (S (reads w))) w))).
Proof. reflexivity. Qed.

Lemma wp_addNotification ty msg Q E w :
  (∀ w', frame w w' → Q () w') → wpx (addNotification host ty msg) Q E w.
Proof. intros H. unfold wpx. rewrite addNotification_run. by apply H. Qed.

Lemma wp_saveTasks ts Q E w :
  (∀ w', frame w w' → Q () w') → wpx (saveTasks host ts) Q E w.
Proof.
  intros H. unfold saveTasks. apply wpx_try_catch.
  unfold wpx at 1, setItem. destruct (quotaExceeded host ts).
  - apply wpx_bind, wpx_modify, wp_addNotification. intros w' Hw'. by apply H.
  - by apply H.
Qed.

Lemma wp_updateTask taskId updates Q E w :
  (∀ w', calls w' = calls w →
         tasks w' = updated taskId (λ _, updates) (Some (clock host (reads w))) (tasks w) →
         Q () w') →
  wpx (updateTask host taskId updates) Q E w.
Proof.
  intros H. unfold updateTask. apply wpx_bind, wpx_gets. unfold updated in H.
  destruct (findIndex taskId (tasks w)) as [[i t]|].
  - apply wpx_bind, wp_newDate, wpx_bind, wp_saveTasks. intros w' [Ht Hc].
    apply wpx_modify. by apply H.
  - apply wpx_bind, wp_addNotification. intros w' [Ht Hc].
    apply wpx_modify. by apply H.
Qed.

Lemma wp_toggleTaskActive taskId Q E w :
  (∀ w', calls w' = calls w →
         tasks w' = updated taskId toggleUpdate (Some (clock host (reads w))) (tasks w) →
         Q () w') →
  wpx (toggleTaskActive host taskId) Q E w.
Proof.
  intros H. unfold toggleTaskActive. apply wpx_bind, wpx_gets. unfold updated in H.
  destruct (findIndex taskId (tasks w)) as [[i t]|].
  - apply wpx_bind, wp_newDate, wpx_bind, wp_saveTasks. intros w' [Ht Hc].
    apply wpx_bind, wp_addNotification. intros w'' [Ht' Hc'].
    apply wpx_modify. apply H; [cbn in *; congruence | done].
  - apply wpx_modify. by apply H.
Qed.

Lemma wp_deleteTask taskId Q E w :
  (∀ w', calls w' = calls w → tasks w' = filter (λ t, id t ≠ taskId) (tasks w) → Q () w') →
  wpx (deleteTask host taskId) Q E w.
Proof.
  intros H. unfold deleteTask. apply wpx_bind, wpx_gets.
  apply wpx_bind, wp_saveTasks. intros w' [Ht Hc].
  apply wpx_bind, wpx_modify, wp_addNotification. intros w'' [Ht' Hc'].
  apply H; [cbn in *; congruence | done].
Qed.

Lemma wp_addTask spec Q E w :
  (∀ t w', calls w' = calls w → id t = freshId host w →
           type t = s_type spec → groupId t = s_groupId spec →
           frequency t = s_frequency spec → customCron t = s_customCron spec →
           nextRunTime t = s_nextRunTime spec → isActive t = s_isActive spec →
           tasks w' = tasks w ++ [t] → Q t w') →
  wpx (addTask host spec) Q E w.
Proof.
  intros H. unfold addTask.
  apply wpx_bind. unfold wpx at 1, dateNow.
  apply wpx_bind. unfold wpx at 1, randomBase36.
  apply wpx_bind, wp_newDate, wpx_bind, wp_newDate, wpx_bind, wpx_gets.
  apply wpx_bind, wp_saveTasks. intros w' [Ht Hc].
  apply wpx_bind, wpx_modify, wpx_bind, wp_addNotification. intros w'' [Ht' Hc'].
  apply wpx_ret. apply H; try done. cbn in *. congruence.
Qed.

Lemma wp_calculateNextRunTime_rec depth task (Q : Date → World → Prop) E w :
  (∀ r w', frame w w' → Q r w') → (∀ w', frame w w' → E stackOverflow w') →
  wpx (calculateNextRunTime_rec host depth task) Q E w.
Proof.
  revert task w. induction depth as [|depth IH]; intros task w HQ HE.
  - by apply HE.
  - unfold wpx. rewrite NextRun.calculateNextRunTime_rec_step. cbv zeta.
    destruct (num_le _ _).
    + apply IH; intros; [apply HQ | apply HE]; done.
    + by apply HQ.
Qed.

(** [runTask] never throws; what it does to the collection is at most
    one update that carries no [id]; and it hands at most one task to
    the callback, the one its closure finds under [taskId]. *)
Lemma wp_runTaskIn snapshot taskId (Q : unit → World → Prop) E w :
  (∀ w', tasks w' = tasks w ∨
         (∃ u now, (∀ t, p_id (u t) = None) ∧ tasks w' = updated taskId u now (tasks w)) →
         calls w' = calls w ∨
         (∃ t, find taskId snapshot = Some t ∧ calls w' = t :: calls w) →
         Q () w') →
  wpx (runTaskIn host opts snapshot taskId) Q E w.
Proof.
  intros H. unfold runTaskIn.
  destruct (find taskId snapshot) as [task|] eqn:Hfind.
  - match goal with |- wpx (try_finally (try_catch _ ?h) _) _ _ _ => set (handler := h) end.
    set (C := λ c : list SchedulerTask, c = calls w ∨ ∃ t, Some task = Some t ∧ c = t :: calls w).
    assert (Hcatch : ∀ err w1, tasks w1 = tasks w → C (calls w1) →
      wpx (handler err)
        (λ a w2, wpx (setCurrentTask None) (λ _, Q a) E w2)
        (λ e w2, wpx (setCurrentTask None) (λ _, E e) E w2) w1).
    { intros err w1 Hw1 Hc1. subst handler. cbv beta.
      apply wpx_bind, wpx_bind, wp_newDate, wp_updateTask. intros w2 Hc2 Hw2.
      apply wpx_bind, wpx_modify, wp_addNotification. intros w3 [Hw3 Hc3].
      apply wpx_modify, H.
      - right.
        exists (λ _, failureUpdate (Some (clock host (reads w1)))),
          (Some (clock host (S (reads w1)))).
        split; [done |]. unfold failureUpdate. cbn in *. congruence.
      - cbn in *. by rewrite Hc3, Hc2. }
    clearbody handler.
    apply wpx_try_finally, wpx_try_catch, wpx_bind.
    apply wpx_ret, wpx_bind, wpx_modify, wpx_bind.
    assert (Hrest : ∀ w1, tasks w1 = tasks w → C (calls w1) →
      wpx (ran ← newDate host;
           next ← calculateNextRunTime host task;
           updateTask host taskId
             (mkPartial None None None None None (Some next) (Some (Some ran))
                (Some (Some success)) None None None None);;
           addNotification host sev_success
             ("任务 " +:+ dquote +:+
              match type task with summary => "总结生成" | poster => "海报生成" end
              +:+ dquote +:+ " 执行成功"))
        (λ a w2, wpx (setCurrentTask None) (λ _, Q a) E w2)
        (λ e w2, wpx (handler e)
          (λ a w3, wpx (setCurrentTask None) (λ _, Q a) E w3)
          (λ e' w3, wpx (setCurrentTask None) (λ _, E e') E w3) w2) w1).
    { intros w1 Hw1 Hc1. apply wpx_bind, wp_newDate, wpx_bind.
      apply wp_calculateNextRunTime_rec.
      - intros next w2 [Hw2 Hc2]. apply wpx_bind, wp_updateTask. intros w3 Hc3 Hw3.
        apply wp_addNotification. intros w4 [Hw4 Hc4].
        apply wpx_modify, H.
        + right.
          exists (λ _, successUpdate (Some (clock host (reads w1))) next),
            (Some (clock host (reads w2))).
          split; [done |]. unfold successUpdate. cbn in *. congruence.
        + cbn in *. by rewrite Hc4, Hc3, Hc2.
      - intros w2 [Hw2 Hc2]. apply Hcatch; cbn in *; congruence. }
    destruct (onTaskRun opts) as [cb|].
    + unfold wpx at 1, await_onTaskRun. destruct (cb task) as [[]|e].
      * apply Hrest; [done |]. right. by exists task.
      * apply Hcatch; [done |]. right. by exists task.
    + apply wpx_ret, Hrest; [done | by left].
  - apply wpx_try_finally, wpx_try_catch, wpx_bind, wpx_throw.
    apply wpx_bind, wpx_ret, wpx_bind, wpx_modify, wp_addNotification. intros w3 [Hw3 Hc3].
    apply wpx_modify, H; left; cbn in *; congruence.
Qed.

End WithHost.

(** *** The collection as a list *)

Lemma findIndex_Some taskId ts i t :
  findIndex taskId ts = Some (i, t) → ts !! i = Some t ∧ id t = taskId.
Proof. unfold findIndex. rewrite list_find_Some. by intros (? & ? & _). Qed.

Lemma findIndex_None taskId ts :
  findIndex taskId ts = None ↔ taskId ∉ ids ts.
Proof.
  unfold findIndex, ids. rewrite list_find_None, Forall_forall, list_elem_of_fmap.
  split.
  - intros Hall (t & Hid & Ht). by apply (Hall t).
  - intros Hnone t Ht Hid. apply Hnone. by exists t.
Qed.

Lemma find_Some_findIndex taskId ts t :
  find taskId ts = Some t ↔ ∃ i, findIndex taskId ts = Some (i, t).
Proof.
  unfold find. destruct (findIndex taskId ts) as [[i t']|]; cbn.
  - split; [intros [= ->]; by exists i | by intros (j & [= _ ->])].
  - split; [done | by intros (j & [=])].
Qed.

(** An update that carries no [id] leaves every identifier in place. *)
Lemma ids_updated taskId u now ts :
  (∀ t, p_id (u t) = None) → ids (updated taskId u now ts) = ids ts.
Proof.
  intros Hu. unfold updated.
  destruct (findIndex taskId ts) as [[i t]|] eqn:Hfind; [| done].
  apply findIndex_Some in Hfind as [Hi _].
  unfold ids. rewrite list_fmap_insert. apply list_insert_id.
  rewrite list_lookup_fmap, Hi. cbn. by rewrite Hu.
Qed.

(** After such an update the task is still the first one of its name, and
    it is the merged task. *)
Lemma find_updated taskId u now ts i t :
  findIndex taskId ts = Some (i, t) → p_id (u t) = None →
  find taskId (updated taskId u now ts) = Some (mergeTask t (u t) now).
Proof.
  intros Hfind Hu. unfold updated, find. rewrite Hfind.
  apply list_find_Some in Hfind as (Hi & Hid & Hleast).
  cut (findIndex taskId (<[i := mergeTask t (u t) now]> ts) = Some (i, mergeTask t (u t) now)).
  { by intros ->. }
  apply list_find_insert_Some. right; left.
  split_and!; [done | done | by eapply lookup_lt_Some | by cbn; rewrite Hu | done].
Qed.

(** An update leaves the tasks of other names where they are. *)
Lemma updated_other taskId u now ts j t :
  ts !! j = Some t → id t ≠ taskId → updated taskId u now ts !! j = Some t.
Proof.
  intros Hj Hid. unfold updated.
  destruct (findIndex taskId ts) as [[i t0]|] eqn:Hfind; [| done].
  apply findIndex_Some in Hfind as [Hi Hid0].
  rewrite list_lookup_insert_ne; [done |]. intros ->. congruence.
Qed.

(** *** Unknown identifiers, adding and deleting *)

(** C7.  [updateTask] with an identifier that no task of the collection
    bears returns normally (no exception), leaves the collection as it
    was (and with it the stored copy), and puts one error notification in
    front of the notifications. *)
Theorem updateTask_unknown_id host taskId updates w :
  taskId ∉ ids (tasks w) →
  ∃ w' n, updateTask host taskId updates w = (Normal (), w')
          ∧ tasks w' = tasks w
          ∧ localStorage w' = localStorage w
          ∧ notifications w' = n :: notifications w
          ∧ n_type n = sev_error
          ∧ n_message n = "更新任务失败：找不到指定任务".
Proof.
  intros Hid. apply findIndex_None in Hid.
  unfold updateTask, mbind, M_bind, gets. rewrite Hid, addNotification_run.
  eexists _, _. repeat split.
Qed.

(** C9.  From an empty collection, [addTask] followed by [deleteTask] of
    the identifier of the task that [addTask] returned leaves the
    collection empty. *)
Theorem addTask_then_deleteTask host spec w :
  tasks w = [] →
  ∃ w', (task ← addTask host spec; deleteTask host (id task)) w = (Normal (), w')
        ∧ tasks w' = [].
Proof.
  intros Hempty.
  cut (wpx (task ← addTask host spec; deleteTask host (id task))
         (λ _ w', tasks w' = []) no_throw w).
  { rewrite wpx_returns. intros ([] & w' & Hrun & Hw'). by exists w'. }
  apply wpx_bind, wp_addTask. intros t w1 _ _ _ _ _ _ _ _ Hw1.
  apply wp_deleteTask. intros w2 _ Hw2.
  rewrite Hw2, Hw1, Hempty. cbn. by destruct (decide (id t ≠ id t)).
Qed.

(** *** Running a task *)

(** [runTask] is [runTaskWith] for a callback that does nothing but fulfil
    or reject. *)
Lemma runTaskIn_runTaskDuring host opts snapshot taskId w :
  runTaskIn host opts snapshot taskId w
  = runTaskDuring host (settling <$> onTaskRun opts) snapshot taskId w.
Proof. unfold runTaskIn, runTaskDuring. by destruct (onTaskRun opts). Qed.

Lemma runTask_runTaskWith host opts taskId w :
  runTask host opts taskId w = runTaskWith host (settling <$> onTaskRun opts) taskId w.
Proof.
  unfold runTask, runTaskWith, mbind, M_bind, gets. apply runTaskIn_runTaskDuring.
Qed.

(** C6, as amended.  When the execution callback rejects and has left the
    task as it was, whatever else it did while it was awaited, [runTask]
    returns normally and the task is afterwards the old one with
    [lastRunStatus] set to failure, [lastRunTime] set to a reading of the
    clock (the first one after the run started, when the callback took
    none) and some new [updatedAt]; every other field, [nextRunTime]
    among them, is as it was before the run. *)
Theorem runTask_callback_rejects host cb taskId task e w w1 :
  find taskId (tasks w) = Some task →
  cb task (atCallback task w) = (Throw e, w1) →
  find taskId (tasks w1) = Some task →
  ∃ w' task' ran now, runTaskWith host (Some cb) taskId w = (Normal (), w')
    ∧ find taskId (tasks w') = Some task'
    ∧ task' = mergeTask task (failureUpdate (Some ran)) now
    ∧ (∃ k, ran = clock host k)
    ∧ (reads w1 = reads w → ran = clock host (reads w))
    ∧ lastRunStatus task' = Some failure
    ∧ lastRunTime task' = Some (Some ran)
    ∧ nextRunTime task' = nextRunTime task.
Proof.
  intros Hfind He Hkept.
  destruct (proj1 (find_Some_findIndex _ _ _) Hkept) as [i Hidx].
  set (task' := mergeTask task (failureUpdate (Some (clock host (reads w1))))
                  (Some (clock host (S (reads w1))))).
  cut (wpx (runTaskWith host (Some cb) taskId)
         (λ _ w', find taskId (tasks w') = Some task') no_throw w).
  { rewrite wpx_returns. intros ([] & w' & Hrun & Hw').
    exists w', task', (clock host (reads w1)), (Some (clock host (S (reads w1)))).
    split_and!; [done | done | done | by exists (reads w1) | by intros -> | done ..]. }
  unfold runTaskWith. apply wpx_bind, wpx_gets. unfold runTaskDuring. rewrite Hfind.
  apply wpx_try_finally, wpx_try_catch, wpx_bind, wpx_ret, wpx_bind, wpx_modify, wpx_bind.
  unfold wpx at 1, await_callback.
  change (cb task _) with (cb task (atCallback task w)). rewrite He.
  apply wpx_bind, wpx_bind, wp_newDate, wp_updateTask. intros w2 _ Hw2.
  apply wpx_bind, wpx_modify, wp_addNotification. intros w3 [Hw3 _].
  apply wpx_modify. cbn in *. rewrite Hw3, Hw2.
  by apply (find_updated taskId (λ _, failureUpdate (Some (clock host (reads w1)))) _ _ i).
Qed.

(** Without a callback, and when the next run time is computed, the run
    succeeds. *)
Lemma runTask_without_callback_success host opts taskId task next w w1 :
  onTaskRun opts = None → find taskId (tasks w) = Some task →
  calculateNextRunTime host task (with_reads (S (reads w)) (with_currentTask (Some task) w))
    = (Normal next, w1) →
  ∃ w' task', runTask host opts taskId w = (Normal (), w')
    ∧ find taskId (tasks w') = Some task'
    ∧ task' = mergeTask task (successUpdate (Some (clock host (reads w))) next)
                (Some (clock host (reads w1))).
Proof.
  intros Hcb Hfind Hnext.
  destruct (proj1 (find_Some_findIndex _ _ _) Hfind) as [i Hidx].
  set (task' := mergeTask task (successUpdate (Some (clock host (reads w))) next)
                  (Some (clock host (reads w1)))).
  cut (wpx (runTask host opts taskId) (λ _ w', find taskId (tasks w') = Some task') no_throw w).
  { rewrite wpx_returns. intros ([] & w' & Hrun & Hw'). by exists w', task'. }
  pose proof (wp_calculateNextRunTime_rec host (S (stackLimit host)) task
                (λ _ w', tasks w' = tasks w) (λ _ _, True)
                (with_reads (S (reads w)) (with_currentTask (Some task) w))) as Hframe.
  unfold wpx in Hframe. fold (calculateNextRunTime host task) in Hframe.
  rewrite Hnext in Hframe. specialize (Hframe ltac:(by intros ? ? [? ?]) ltac:(done)).
  unfold runTask. apply wpx_bind, wpx_gets. unfold runTaskIn. rewrite Hfind, Hcb.
  apply wpx_try_finally, wpx_try_catch, wpx_bind, wpx_ret, wpx_bind, wpx_modify, wpx_bind.
  apply wpx_ret, wpx_bind, wp_newDate, wpx_bind. unfold wpx at 1.
  change (calculateNextRunTime host task _) with
    (calculateNextRunTime host task (with_reads (S (reads w)) (with_currentTask (Some task) w))).
  rewrite Hnext.
  apply wpx_bind, wp_updateTask. intros w2 _ Hw2.
  apply wp_addNotification. intros w3 [Hw3 _].
  apply wpx_modify. cbn in *. rewrite Hw3, Hw2, Hframe.
  by apply (find_updated taskId (λ _, successUpdate (Some (clock host (reads w))) next) _ _ i).
Qed.

(** C10, at its failing input.  No callback is supplied, yet for a task
    of frequency 'custom' with the schedule "-48:00" the computation of
    the next run time overflows the stack inside the [try] block, the
    [catch] block handles it, and the task ends with [lastRunStatus] set
    to failure and its [nextRunTime] not replaced. *)
Theorem runTask_without_callback_failure host opts taskId task w :
  onTaskRun opts = None → find taskId (tasks w) = Some task →
  frequency task = "custom" → customCron task = Some "-48:00" →
  (∀ n, safe (clock host n)) →
  (∀ n, clock host (S n) ≤ clock host n + msPerDay) →
  ∃ w' task', runTask host opts taskId w = (Normal (), w')
    ∧ find taskId (tasks w') = Some task'
    ∧ lastRunStatus task' = Some failure
    ∧ nextRunTime task' = nextRunTime task.
Proof.
  intros Hcb Hfind Hf Hc Hsafe Hstep.
  destruct (proj1 (find_Some_findIndex _ _ _) Hfind) as [i Hidx].
  cut (wpx (runTask host opts taskId)
         (λ _ w', ∃ ran now, find taskId (tasks w') = Some (mergeTask task (failureUpdate ran) now))
         no_throw w).
  { rewrite wpx_returns. intros ([] & w' & Hrun & ran & now & Hw').
    by exists w', (mergeTask task (failureUpdate ran) now). }
  unfold runTask. apply wpx_bind, wpx_gets. unfold runTaskIn. rewrite Hfind, Hcb.
  apply wpx_try_finally, wpx_try_catch, wpx_bind, wpx_ret, wpx_bind, wpx_modify, wpx_bind.
  apply wpx_ret, wpx_bind, wp_newDate, wpx_bind.
  set (w1 := with_reads _ _).
  pose proof (wp_calculateNextRunTime_rec host (S (stackLimit host)) task
                (λ _ w', tasks w' = tasks w) (λ _ w', tasks w' = tasks w) w1) as Hframe.
  pose proof (NextRun.custom_minus48_overflows host task (S (stackLimit host)) w1
                Hf Hc Hsafe Hstep) as Hthrow.
  unfold wpx in Hframe. unfold wpx at 1. unfold calculateNextRunTime.
  destruct (calculateNextRunTime_rec host (S (stackLimit host)) task w1) as [[next|err] w2];
    [discriminate Hthrow |].
  specialize (Hframe ltac:(by intros ? ? [? ?]) ltac:(by intros ? [? ?])).
  apply wpx_bind, wpx_bind, wp_newDate, wp_updateTask. intros w3 _ Hw3.
  apply wpx_bind, wpx_modify, wp_addNotification. intros w4 [Hw4 _].
  apply wpx_modify. cbn in *. rewrite Hw4, Hw3, Hframe.
  eexists _, _.
  by apply (find_updated taskId (λ _, failureUpdate (Some (clock host (reads w2)))) _ _ i).
Qed.

End Lifecycle.

(** ** The scan *)

Module Scan.
Import Hoare Lifecycle.

(** A loop that skips the elements failing a test is the loop over the
    elements passing it. *)
Lemma forEach_filter {A} (p : A → bool) (f : A → M unit) l w :
  forEach l (λ x, if p x then f x else mret ()) w
  = forEach (filter (λ x, p x = true) l) f w.
Proof.
  revert w. induction l as [|x l IH]; intros w; [done |].
  rewrite filter_cons. cbn [forEach]. destruct (p x) eqn:Hp.
  - rewrite decide_True by done. cbn [forEach]. unfold mbind, M_bind.
    destruct (f x w) as [[[]|e] w']; [apply IH | done].
  - rewrite decide_False by done. apply IH.
Qed.

Lemma find_NoDup ts t :
  NoDup (ids ts) → t ∈ ts → find (id t) ts = Some t.
Proof.
  intros Hnd [i Hi]%list_elem_of_lookup.
  apply find_Some_findIndex. exists i. apply list_find_Some.
  split_and!; [done | done |].
  intros j y Hj Hlt Heq.
  assert (j = i); [| lia].
  apply (NoDup_lookup (ids ts) j i (id t)); [done | |].
  - unfold ids. rewrite list_lookup_fmap, Hj. cbn. by rewrite Heq.
  - unfold ids. by rewrite list_lookup_fmap, Hi.
Qed.

(** The scan is the loop over the tasks [selected] at the time it reads. *)
Lemma checkTasks_selected host opts w :
  checkTasks host opts w
  = forEach (selected (Some (clock host (reads w))) (tasks w))
      (λ t, try_catch (runTaskIn host opts (tasks w) (id t)) (λ _, mret ()))
      (with_reads (S (reads w)) w).
Proof.
  unfold checkTasks, selected. unfold mbind at 1 2, M_bind, gets, newDate.
  apply (forEach_filter (isDue (Some (clock host (reads w))))).
Qed.

(** When the identifiers are distinct, every task the scan hands to the
    execution callback is a task of the collection that is active. *)
Lemma checkTasks_calls_active host opts w t :
  NoDup (ids (tasks w)) →
  t ∈ calls (snd (checkTasks host opts w)) →
  t ∈ calls w ∨ (t ∈ tasks w ∧ isActive t = true).
Proof.
  intros Hnd.
  set (I := λ w' : World, ∀ t, t ∈ calls w' → t ∈ calls w ∨ (t ∈ tasks w ∧ isActive t = true)).
  cut (I (snd (checkTasks host opts w))); [intros HI; apply HI |].
  apply wpx_snd. unfold checkTasks.
  apply wpx_bind, wpx_gets, wpx_bind, wp_newDate, wpx_forEach.
  - intros t'. cbn. by left.
  - intros x w' Hx HI. destruct (isDue _ x) eqn:Hdue; [| by apply wpx_ret].
    apply wpx_try_catch, wp_runTaskIn. intros w'' _ Hcalls t' Ht'.
    destruct Hcalls as [Hc | (t0 & Hfind & Hc)]; rewrite Hc in Ht'; [by apply HI |].
    apply elem_of_cons in Ht' as [-> | Ht']; [| by apply HI].
    rewrite (find_NoDup _ x) in Hfind by done. injection Hfind as <-.
    right. split; [done |]. unfold isDue in Hdue. by destruct (isActive x).
Qed.

Lemma NoDup_ids_eq ts x y :
  NoDup (ids ts) → x ∈ ts → y ∈ ts → id x = id y → x = y.
Proof.
  intros Hnd Hx Hy Hid. pose proof (find_NoDup ts x Hnd Hx) as Hfx.
  pose proof (find_NoDup ts y Hnd Hy) as Hfy. rewrite Hid in Hfx. congruence.
Qed.

(** C8, as amended.  When the identifiers are pairwise distinct, a scan
    returns normally, hands to the execution callback active tasks only,
    so that no inactive task is among them, and leaves every inactive
    task where and as it was, whatever its [nextRunTime]. *)
Theorem checkTasks_never_runs_inactive host opts w j task :
  NoDup (ids (tasks w)) → tasks w !! j = Some task → isActive task = false →
  ∃ w' handed, checkTasks host opts w = (Normal (), w')
    ∧ calls w' = handed ++ calls w
    ∧ (∀ t, t ∈ handed → isActive t = true)
    ∧ (task ∉ handed)
    ∧ tasks w' !! j = Some task.
Proof.
  intros Hnd Hj Hinactive.
  set (I := λ w' : World,
        (∃ handed, calls w' = handed ++ calls w ∧ ∀ t, t ∈ handed → isActive t = true)
        ∧ tasks w' !! j = Some task).
  cut (wpx (checkTasks host opts) (λ _, I) no_throw w).
  { rewrite wpx_returns. intros ([] & w' & Hrun & (handed & Hc & Hact) & Hj').
    exists w', handed. split_and!; [done | done | done | | done].
    intros Hin. apply Hact in Hin. congruence. }
  unfold checkTasks. apply wpx_bind, wpx_gets, wpx_bind, wp_newDate, wpx_forEach.
  - split; [| done]. exists []. split; [done |]. by intros t ?%elem_of_nil.
  - intros x w' Hx HI.
    destruct (isDue _ x) eqn:Hdue; [| by apply wpx_ret].
    destruct HI as [(handed & Hc & Hact) Hj'].
    assert (Hxa : isActive x = true) by (unfold isDue in Hdue; by destruct (isActive x)).
    apply wpx_try_catch, wp_runTaskIn. intros w'' Htasks Hcalls. split.
    + destruct Hcalls as [Hc' | (t0 & Hfind & Hc')].
      * exists handed. by rewrite Hc'.
      * rewrite (find_NoDup _ x) in Hfind by done. injection Hfind as <-.
        exists (x :: handed). rewrite Hc', Hc. split; [done |].
        intros t [-> | Ht]%elem_of_cons; [done | by apply Hact].
    + destruct Htasks as [-> | (u & now & Hu & ->)]; [done |].
      apply updated_other; [done |]. intros Hid.
      assert (task = x); [| congruence].
      apply (NoDup_ids_eq (tasks w)); [done | by eapply list_elem_of_lookup_2 | done | done].
Qed.

End Scan.

(** ** Identifiers along a session *)

Module Session.
Import Hoare Lifecycle.

Section WithHost.
Context (host : Host) (opts : SchedulerOptions).

Lemma ids_filter taskId ts :
  ids (filter (λ t, id t ≠ taskId) ts) = filter (λ x, x ≠ taskId) (ids ts).
Proof.
  induction ts as [|t ts IH]; [done |].
  unfold ids in *. rewrite fmap_cons, !filter_cons.
  destruct (decide (id t ≠ taskId)); cbn; by rewrite IH.
Qed.

Lemma perform_ids op w :
  admissible_op host op w →
  wpx (perform host opts op) (λ _ w', ids (tasks w') = ids_after host op w (ids (tasks w))) no_throw w.
Proof.
  intros Hadm. destruct op as [spec | taskId updates | taskId | taskId | taskId]; cbn [perform ids_after].
  - apply wpx_bind, wp_addTask. intros t w' _ Hid _ _ _ _ _ _ Hw'. apply wpx_ret.
    rewrite Hw'. unfold ids. by rewrite fmap_app, <- Hid.
  - apply wp_updateTask. intros w' _ ->. by apply ids_updated.
  - apply wp_toggleTaskActive. intros w' _ ->. by apply ids_updated.
  - apply wp_deleteTask. intros w' _ ->. apply ids_filter.
  - apply wpx_bind, wpx_gets, wp_runTaskIn.
    intros w' [-> | (u & now & Hu & ->)] _; [done | by apply ids_updated].
Qed.

Lemma ids_after_NoDup op w :
  admissible_op host op w → NoDup (ids (tasks w)) → NoDup (ids_after host op w (ids (tasks w))).
Proof.
  intros Hadm Hnd. destruct op; cbn [ids_after]; try done.
  - apply NoDup_app. split_and!; [done | | apply NoDup_singleton].
    intros x Hx [-> | []%elem_of_nil]%elem_of_cons. by apply Hadm.
  - by apply NoDup_filter.
Qed.

End WithHost.

(** C5, as amended.  Along any sequence of the lifecycle operations in
    which no [updateTask] is given an [id] field and every identifier
    built by [addTask] is new to the collection, no operation throws, the
    identifiers stay pairwise distinct, and the list of identifiers
    changes only as [ids_after] says: an added task's identifier is
    appended, a deleted one is removed, and [updateTask],
    [toggleTaskActive] and [runTask] leave every identifier in place. *)
Theorem ids_stable_and_distinct host opts ops w :
  NoDup (ids (tasks w)) → admissible host opts ops w →
  ∃ w', forEach ops (perform host opts) w = (Normal (), w')
        ∧ ids (tasks w') = ids_trace host opts ops w (ids (tasks w))
        ∧ NoDup (ids (tasks w')).
Proof.
  revert w. induction ops as [|op ops IH]; intros w Hnd Hadm.
  - by exists w.
  - destruct Hadm as [Hop Hrest].
    pose proof (perform_ids host opts op w Hop) as Hstep.
    apply wpx_returns in Hstep as ([] & w1 & Hrun & Hids).
    rewrite Hrun in Hrest. cbn [snd] in Hrest.
    destruct (IH w1) as (w' & Hrun' & Hids' & Hnd').
    { rewrite Hids. by apply ids_after_NoDup. }
    { done. }
    exists w'. cbn [forEach ids_trace]. unfold mbind, M_bind.
    rewrite Hrun. cbn [snd]. by rewrite <- Hids.
Qed.

End Session.

(** ** Concrete runs *)

Module Examples.
Import DateFacts NextRun Lifecycle Scan Session.

Ltac by_decision :=
  match goal with |- ?P => exact (bool_decide_unpack P I) end.

Lemma host8_safe n : safe (clock host8 n).
Proof. unfold safe, maxTime, msPerDay. cbn. unfold jan31, msPerDay. lia. Defined.

Lemma host8_steady n : clock host8 (S n) ≤ clock host8 n + msPerDay.
Proof. cbn. unfold jan31, msPerDay. lia. Defined.

Lemma calculateNextRunTime_malformed_cron_invalid_witness :
  calculateNextRunTime host8 (task_of "a" "custom" (Some "not-a-time") true) emptyWorld
  = (Normal NaN, with_reads 2 emptyWorld).
Proof.
  apply (calculateNextRunTime_malformed_cron_invalid host8
           (task_of "a" "custom" (Some "not-a-time") true) emptyWorld); reflexivity.
Defined.

Lemma calculateNextRunTime_weekly_sunday_witness :
  ∃ r, calculateNextRunTime host8 (task_of "a" "weekly" None true) emptyWorld
       = (Normal (Some r), with_reads 2 emptyWorld)
       ∧ getDay (tza host8) (Some r) = Some 0
       ∧ TimeWithinDay (LocalTime (tza host8) r) = 9 * msPerHour
       ∧ clock host8 0 < r.
Proof.
  apply (calculateNextRunTime_weekly_sunday host8 (task_of "a" "weekly" None true) emptyWorld).
  - reflexivity.
  - apply host8_safe.
  - cbn. unfold jan31, msPerDay. lia.
Defined.

Lemma calculateNextRunTime_custom_never_returns_witness :
  ∃ w', calculateNextRunTime_rec host8 7 (task_of "a" "custom" (Some "-48:00") true) emptyWorld
        = (Throw stackOverflow, w').
Proof.
  apply (calculateNextRunTime_custom_never_returns host8
           (task_of "a" "custom" (Some "-48:00") true) 7 emptyWorld).
  - reflexivity.
  - reflexivity.
  - apply host8_safe.
  - apply host8_steady.
Defined.

(** From Wednesday 31 January 2024 the frequency 'weekly' gives Sunday
    4 February 2024 at 09:00. *)
Lemma weekly_from_wednesday :
  WeekDay jan31 = 3
  ∧ calculateNextRunTime (frozen jan31) (task_of "a" "weekly" None true) emptyWorld
    = (Normal (Some 1707037200000), with_reads 2 emptyWorld)
  ∧ (YearFromTime 1707037200000, MonthFromTime 1707037200000, DateFromTime 1707037200000,
     WeekDay 1707037200000, HourFromTime 1707037200000) = (2024, 1, 4, 0, 9).
Proof. by vm_compute. Qed.

(** [Number] on some strings: the decimal is rounded to the nearest double
    before it is truncated, and white space beyond the ASCII range (here
    U+00A0 and U+3000) is dropped too. *)
Lemma Number_samples :
  Number <$> ["9"; " 09 "; "-48"; "+7"; ""; "1.9"; "-1.9"; ".5"; "5."; "1e3"; "12e-1";
              "0x1F"; "0o17"; "0b101"]
  = Some <$> [9; 9; -48; 7; 0; 1; -1; 0; 5; 1000; 1; 31; 15; 5]
  ∧ Number <$> ["not-a-time"; "Infinity"; "-Infinity"; "."; "-"; "1e"; "e5"; "1 2"; "0x";
                "-0x10"; "1_0"]
  = replicate 11 NaN
  ∧ Number <$> ["0.99999999999999999999"; "0.9999999999999999"; "9007199254740993";
                "0x20000000000001"; "1e400"; " 9　"]
  = [Some 1; Some 0; Some 9007199254740992; Some 9007199254740992; NaN; Some 9].
Proof. by vm_compute. Qed.

Lemma calculateNextRunTime_monthly_jan31_witness :
  calculateNextRunTime (frozen jan31) (task_of "a" "monthly" None true) emptyWorld
    = (Normal (Some mar1), with_reads 2 emptyWorld)
  ∧ (YearFromTime jan31, MonthFromTime jan31, DateFromTime jan31) = (2024, 0, 31)
  ∧ (YearFromTime mar1, MonthFromTime mar1, DateFromTime mar1, TimeWithinDay mar1)
    = (2024, 2, 1, 9 * msPerHour).
Proof.
  apply (calculateNextRunTime_monthly_jan31 (task_of "a" "monthly" None true) emptyWorld).
  reflexivity.
Defined.

(** C5 as stated fails.  [updateTask] merges whatever fields it is given,
    [id] included: renaming task "a" to "b" changes the identifier of a
    task that stays in the collection and leaves two tasks called "b".
    And two calls of [addTask] that read the same clock value and draw
    the same random number build the same identifier. *)
Lemma updateTask_rewrites_id :
  ids (tasks (world_of [task_of "a" "daily" None true; task_of "b" "daily" None true]))
    = ["a"; "b"]
  ∧ ids (tasks (snd (updateTask host8 "a" (rename "b")
                       (world_of [task_of "a" "daily" None true;
                                  task_of "b" "daily" None true]))))
    = ["b"; "b"]
  ∧ ¬ NoDup (ids (tasks (snd (updateTask host8 "a" (rename "b")
                       (world_of [task_of "a" "daily" None true;
                                  task_of "b" "daily" None true])))))
  ∧ ids (tasks (snd ((addTask (frozen jan31) (spec_of "daily" None);;
                      addTask (frozen jan31) (spec_of "daily" None)) emptyWorld)))
    = ["task_1706695200000_k3j9x2m"; "task_1706695200000_k3j9x2m"].
Proof.
  split_and!; [by vm_compute | by vm_compute | | by vm_compute].
  replace (ids _) with ["b"; "b"] by (by vm_compute).
  intros Hnd. apply NoDup_cons in Hnd as [Hin _]. apply Hin. by left.
Qed.

Lemma ids_stable_and_distinct_witness :
  NoDup (ids (tasks emptyWorld)) ∧ admissible host8 noCallback session emptyWorld ∧
  ∃ w', forEach session (perform host8 noCallback) emptyWorld = (Normal (), w')
        ∧ ids (tasks w') = ids_trace host8 noCallback session emptyWorld (ids (tasks emptyWorld))
        ∧ NoDup (ids (tasks w')).
Proof.
  assert (Hnd : NoDup (ids (tasks emptyWorld))) by apply NoDup_nil_2.
  assert (Hadm : admissible host8 noCallback session emptyWorld).
  { cbn [admissible session admissible_op]. split_and!; try done.
    - by_decision.
    - by_decision. }
  split_and!; [done | done |].
  apply (ids_stable_and_distinct host8 noCallback session emptyWorld Hnd Hadm).
Defined.

Lemma updateTask_unknown_id_witness :
  ("zzz" ∉ ids (tasks (world_of [task_of "a" "daily" None true]))) ∧
  ∃ w' n, updateTask host8 "zzz" (rename "b") (world_of [task_of "a" "daily" None true])
          = (Normal (), w')
          ∧ tasks w' = tasks (world_of [task_of "a" "daily" None true])
          ∧ localStorage w' = localStorage (world_of [task_of "a" "daily" None true])
          ∧ notifications w' = n :: notifications (world_of [task_of "a" "daily" None true])
          ∧ n_type n = sev_error
          ∧ n_message n = "更新任务失败：找不到指定任务".
Proof.
  assert (Hid : "zzz" ∉ ids (tasks (world_of [task_of "a" "daily" None true]))).
  { by_decision. }
  split; [done |].
  apply (updateTask_unknown_id host8 "zzz" (rename "b")
           (world_of [task_of "a" "daily" None true]) Hid).
Defined.

Lemma addTask_then_deleteTask_witness :
  tasks emptyWorld = [] ∧
  ∃ w', (task ← addTask host8 (spec_of "weekly" None); deleteTask host8 (id task)) emptyWorld
        = (Normal (), w')
        ∧ tasks w' = [].
Proof.
  split; [reflexivity |].
  apply (addTask_then_deleteTask host8 (spec_of "weekly" None) emptyWorld). reflexivity.
Defined.

(** C6 as stated fails.  Here the callback puts the task off by a day,
    through [updateTask], and then rejects: the task ends with
    [lastRunStatus] failure, and with the [nextRunTime] the callback gave
    it, not the one it had before the run. *)
Lemma callback_postpones_then_rejects :
  fst (postponing host8 (task_of "a" "daily" None true)
         (atCallback (task_of "a" "daily" None true)
            (world_of [task_of "a" "daily" None true])))
  = Throw (JsError "Error" "network down")
  ∧ nextRunTime (task_of "a" "daily" None true) = Some 0
  ∧ nextRunTime
      <$> find "a" (tasks (snd (runTaskWith host8 (Some (postponing host8)) "a"
                                  (world_of [task_of "a" "daily" None true]))))
    = Some (Some msPerDay)
  ∧ lastRunStatus
      <$> find "a" (tasks (snd (runTaskWith host8 (Some (postponing host8)) "a"
                                  (world_of [task_of "a" "daily" None true]))))
    = Some (Some failure).
Proof. by vm_compute. Qed.

Lemma runTask_callback_rejects_witness :
  ∃ w' task' ran now,
    runTaskWith host8 (Some (settling (λ _, Throw (JsError "Error" "network down")))) "a"
      (world_of [task_of "a" "daily" None true]) = (Normal (), w')
    ∧ find "a" (tasks w') = Some task'
    ∧ task' = mergeTask (task_of "a" "daily" None true) (failureUpdate (Some ran)) now
    ∧ (∃ k, ran = clock host8 k)
    ∧ (reads (atCallback (task_of "a" "daily" None true)
                (world_of [task_of "a" "daily" None true]))
       = reads (world_of [task_of "a" "daily" None true])
       → ran = clock host8 (reads (world_of [task_of "a" "daily" None true])))
    ∧ lastRunStatus task' = Some failure
    ∧ lastRunTime task' = Some (Some ran)
    ∧ nextRunTime task' = nextRunTime (task_of "a" "daily" None true).
Proof.
  apply (runTask_callback_rejects host8
           (settling (λ _, Throw (JsError "Error" "network down"))) "a"
           (task_of "a" "daily" None true) (JsError "Error" "network down")
           (world_of [task_of "a" "daily" None true])
           (atCallback (task_of "a" "daily" None true)
              (world_of [task_of "a" "daily" None true]))); reflexivity.
Defined.

Lemma runTask_without_callback_failure_witness :
  ∃ w' task', runTask host8 noCallback "a"
                (world_of [task_of "a" "custom" (Some "-48:00") true]) = (Normal (), w')
    ∧ find "a" (tasks w') = Some task'
    ∧ lastRunStatus task' = Some failure
    ∧ nextRunTime task' = nextRunTime (task_of "a" "custom" (Some "-48:00") true).
Proof.
  apply (runTask_without_callback_failure host8 noCallback "a"
           (task_of "a" "custom" (Some "-48:00") true)
           (world_of [task_of "a" "custom" (Some "-48:00") true])).
  - reflexivity.
  - reflexivity.
  - reflexivity.
  - reflexivity.
  - apply host8_safe.
  - apply host8_steady.
Defined.

Lemma checkTasks_never_runs_inactive_witness :
  ∃ w' handed,
    checkTasks host8 accepting
      (world_of [task_of "a" "daily" None false; task_of "b" "daily" None true])
    = (Normal (), w')
    ∧ calls w'
      = handed
        ++ calls (world_of [task_of "a" "daily" None false; task_of "b" "daily" None true])
    ∧ (∀ t, t ∈ handed → isActive t = true)
    ∧ (task_of "a" "daily" None false ∉ handed)
    ∧ tasks w' !! 0%nat = Some (task_of "a" "daily" None false).
Proof.
  apply (checkTasks_never_runs_inactive host8 accepting
           (world_of [task_of "a" "daily" None false; task_of "b" "daily" None true])
           0 (task_of "a" "daily" None false)).
  - by_decision.
  - reflexivity.
  - reflexivity.
Defined.

(** C8 as stated fails.  When two tasks bear the same identifier,
    [runTask] looks the identifier up again and runs the first bearer:
    here the scan selects the active task "x", and it is its inactive
    namesake that the callback receives and that is marked as run. *)
Lemma checkTasks_runs_namesake :
  isActive (task_of "x" "daily" None false) = false
  ∧ selected (Some (clock host8 0))
      [task_of "x" "daily" None false; task_of "x" "weekly" None true]
    = [task_of "x" "weekly" None true]
  ∧ calls (snd (checkTasks host8 accepting
                  (world_of [task_of "x" "daily" None false; task_of "x" "weekly" None true])))
    = [task_of "x" "daily" None false]
  ∧ lastRunStatus
      <$> tasks (snd (checkTasks host8 accepting
                        (world_of [task_of "x" "daily" None false;
                                   task_of "x" "weekly" None true]))) !! 0%nat
    = Some (Some success).
Proof. by vm_compute. Qed.

End Examples.

(** ** More on the next run time *)

Module NextRunMore.
Import DateFacts NextRun Examples.

Lemma candidate_ext host task1 task2 d :
  frequency task1 = frequency task2 → customCron task1 = customCron task2 →
  candidate host task1 d = candidate host task2 d.
Proof. intros Hf Hc. unfold candidate. by rewrite Hf, Hc. Qed.

(** X8.  What the final test guarantees: on a clock that does not go back,
    a valid date that [calculateNextRunTime] returns, at whatever depth of
    recursion, is strictly after the time read when it was called. *)
Theorem calculateNextRunTime_valid_result_after host depth task w r w' :
  (∀ n, clock host n ≤ clock host (S n)) →
  calculateNextRunTime_rec host depth task w = (Normal (Some r), w') →
  clock host (reads w) < r.
Proof.
  intros Hmono. revert task w.
  induction depth as [|depth IH]; intros task w Hrun; [discriminate Hrun |].
  rewrite calculateNextRunTime_rec_step in Hrun. cbv zeta in Hrun.
  destruct (num_le _ _) eqn:Hle.
  - apply IH in Hrun. cbn in Hrun.
    pose proof (Hmono (reads w)). pose proof (Hmono (S (reads w))). lia.
  - injection Hrun as Hcand _. rewrite Hcand in Hle. unfold num_le in Hle.
    apply bool_decide_eq_false_1 in Hle. lia.
Qed.

(** X9.  The result depends on the task through its [frequency] and its
    [customCron] only: no other field is read, and in particular not the
    [lastRunTime] that the recursive call sets. *)
Theorem calculateNextRunTime_reads_two_fields host depth task1 task2 w :
  frequency task1 = frequency task2 → customCron task1 = customCron task2 →
  calculateNextRunTime_rec host depth task1 w = calculateNextRunTime_rec host depth task2 w.
Proof.
  revert task1 task2 w. induction depth as [|depth IH]; intros task1 task2 w Hf Hc; [done |].
  rewrite !calculateNextRunTime_rec_step. cbv zeta.
  rewrite (candidate_ext host task1 task2) by done.
  destruct (num_le _ _); [| done]. by apply IH.
Qed.

Lemma host8_monotone n : clock host8 n ≤ clock host8 (S n).
Proof. cbn. unfold jan31, msPerDay. lia. Defined.

Lemma frozen_safe n : safe (clock (frozen feb15) n).
Proof. unfold safe, maxTime, msPerDay. cbn. unfold feb15. lia. Defined.

Lemma calculateNextRunTime_daily_witness :
  ∃ r, calculateNextRunTime host8 (task_of "a" "daily" None true) emptyWorld
       = (Normal (Some r), with_reads 2 emptyWorld)
       ∧ Day (LocalTime (tza host8) r) = Day (LocalTime (tza host8) (clock host8 1)) + 1
       ∧ TimeWithinDay (LocalTime (tza host8) r) = 9 * msPerHour
       ∧ clock host8 0 < r.
Proof.
  apply (calculateNextRunTime_daily host8 (task_of "a" "daily" None true) emptyWorld).
  - reflexivity.
  - apply host8_safe.
  - apply host8_monotone.
Defined.

Lemma calculateNextRunTime_hourly_witness :
  ∃ r, calculateNextRunTime host8 (task_of "a" "hourly" None true) emptyWorld
       = (Normal (Some r), with_reads 2 emptyWorld)
       ∧ LocalTime (tza host8) r mod msPerHour = 0
       ∧ clock host8 1 < r ≤ clock host8 1 + msPerHour
       ∧ clock host8 0 < r.
Proof.
  apply (calculateNextRunTime_hourly host8 (task_of "a" "hourly" None true) emptyWorld).
  - reflexivity.
  - apply host8_safe.
  - apply host8_monotone.
Defined.

Lemma calculateNextRunTime_monthly_witness :
  ∃ r, calculateNextRunTime (frozen feb15) (task_of "a" "monthly" None true) emptyWorld
       = (Normal (Some r), with_reads 2 emptyWorld)
       ∧ YearFromTime (LocalTime 0 r)
         = YearFromTime (LocalTime 0 feb15) + (MonthFromTime (LocalTime 0 feb15) + 1) / 12
       ∧ MonthFromTime (LocalTime 0 r) = (MonthFromTime (LocalTime 0 feb15) + 1) mod 12
       ∧ DateFromTime (LocalTime 0 r) = 1
       ∧ TimeWithinDay (LocalTime 0 r) = 9 * msPerHour
       ∧ feb15 < r.
Proof.
  apply (calculateNextRunTime_monthly (frozen feb15) (task_of "a" "monthly" None true) emptyWorld).
  - reflexivity.
  - apply frozen_safe.
  - reflexivity.
  - by vm_compute.
Defined.

Lemma calculateNextRunTime_monthly_first_witness :
  ∃ r, calculateNextRunTime host8 (task_of "a" "monthly" None true) emptyWorld
       = (Normal (Some r), with_reads 2 emptyWorld)
       ∧ DateFromTime (LocalTime (tza host8) r) = 1
       ∧ TimeWithinDay (LocalTime (tza host8) r) = 9 * msPerHour
       ∧ clock host8 0 < r.
Proof.
  apply (calculateNextRunTime_monthly_first host8 (task_of "a" "monthly" None true) emptyWorld).
  - reflexivity.
  - apply host8_safe.
  - apply host8_monotone.
Defined.

Lemma calculateNextRunTime_custom_witness :
  ∃ r, calculateNextRunTime host8 (task_of "a" "custom" (Some "14:30") true) emptyWorld
       = (Normal (Some r), with_reads 2 emptyWorld)
       ∧ Day (LocalTime (tza host8) r) = Day (LocalTime (tza host8) (clock host8 1)) + 1
       ∧ TimeWithinDay (LocalTime (tza host8) r) = 14 * msPerHour + 30 * msPerMinute
       ∧ clock host8 0 < r.
Proof.
  apply (calculateNextRunTime_custom host8 (task_of "a" "custom" (Some "14:30") true)
           "14:30" 14 30 emptyWorld).
  - reflexivity.
  - reflexivity.
  - discriminate.
  - reflexivity.
  - reflexivity.
  - lia.
  - lia.
  - apply host8_safe.
  - apply host8_monotone.
Defined.

Lemma calculateNextRunTime_other_witness :
  calculateNextRunTime host8 (task_of "a" "yearly" None true) emptyWorld
  = (Normal (Some (clock host8 1 + msPerDay)), with_reads 2 emptyWorld).
Proof.
  apply (calculateNextRunTime_other host8 (task_of "a" "yearly" None true) emptyWorld);
    [discriminate .. | apply host8_safe | apply host8_monotone].
Defined.

Lemma calculateNextRunTime_custom_absent_ticked_witness :
  calculateNextRunTime host8 (task_of "a" "custom" None true) emptyWorld
  = (Normal (Some (clock host8 1)), with_reads 2 emptyWorld).
Proof.
  apply (calculateNextRunTime_custom_absent_ticked host8 (task_of "a" "custom" None true)
           emptyWorld).
  - reflexivity.
  - by left.
  - cbn. unfold jan31, msPerDay. lia.
Defined.

Lemma calculateNextRunTime_valid_result_after_witness :
  (∀ n, clock host8 n ≤ clock host8 (S n))
  ∧ calculateNextRunTime_rec host8 3 (task_of "a" "weekly" None true) emptyWorld
    = (Normal (Some 1707008400000), with_reads 2 emptyWorld)
  ∧ clock host8 0 < 1707008400000.
Proof.
  assert (Hrun : calculateNextRunTime_rec host8 3 (task_of "a" "weekly" None true) emptyWorld
                 = (Normal (Some 1707008400000), with_reads 2 emptyWorld)) by (by vm_compute).
  split_and!; [apply host8_monotone | done |].
  apply (calculateNextRunTime_valid_result_after host8 3 (task_of "a" "weekly" None true)
           emptyWorld 1707008400000 (with_reads 2 emptyWorld) host8_monotone Hrun).
Defined.

Lemma calculateNextRunTime_reads_two_fields_witness :
  calculateNextRunTime_rec host8 3 (task_of "a" "daily" None true) emptyWorld
  = calculateNextRunTime_rec host8 3 (task_of "b" "daily" None false) emptyWorld.
Proof.
  apply (calculateNextRunTime_reads_two_fields host8 3 (task_of "a" "daily" None true)
           (task_of "b" "daily" None false) emptyWorld); reflexivity.
Defined.

End NextRunMore.

(** ** More on the lifecycle operations *)

Module LifecycleMore.
Import Hoare Lifecycle.

(** Running the bookkeeping steps of an operation. *)
Ltac run :=
  repeat first
    [ rewrite addNotification_run
    | progress (cbv beta iota zeta)
    | progress (unfold setTasks, setError, setCurrentTask, modify) ].

Lemma filter_all {A} (P : A → Prop) `{∀ x, Decision (P x)} (l : list A) :
  Forall P l → filter P l = l.
Proof.
  induction 1 as [|x l Hx _ IH]; [done |]. by rewrite filter_cons_True, IH.
Qed.

Lemma saveTasks_stored host ts w :
  quotaExceeded host ts = false →
  saveTasks host ts w = (Normal (), with_localStorage (Some ts) w).
Proof. intros H. unfold saveTasks, try_catch, setItem. by rewrite H. Qed.

Lemma saveTasks_refused host ts w :
  quotaExceeded host ts = true →
  saveTasks host ts w
  = addNotification host sev_error "保存任务配置失败"
      (with_error (Some (JsError "QuotaExceededError" "The quota has been exceeded")) w).
Proof. intros H. unfold saveTasks, try_catch, setItem. by rewrite H. Qed.

Lemma updated_length taskId u now ts : length (updated taskId u now ts) = length ts.
Proof.
  unfold updated. destruct (findIndex taskId ts) as [[i t]|]; [| done].
  apply length_insert.
Qed.

Lemma findIndex_updated taskId u now ts i t :
  findIndex taskId ts = Some (i, t) → p_id (u t) = None →
  findIndex taskId (updated taskId u now ts) = Some (i, mergeTask t (u t) now).
Proof.
  intros Hfind Hu. unfold updated. rewrite Hfind.
  apply list_find_Some in Hfind as (Hi & Hid & Hleast).
  apply list_find_insert_Some. right; left.
  split_and!; [done | done | by eapply lookup_lt_Some | by cbn; rewrite Hu | done].
Qed.

(** X10.  [updateTask] with an identifier borne by a task replaces the
    first such task by the merge of the task and the given fields, stamped
    with the time read, and leaves every other position, the length of the
    collection and the callback record as they were. *)
Theorem updateTask_replaces_first_bearer host taskId updates w i t :
  findIndex taskId (tasks w) = Some (i, t) →
  ∃ w', updateTask host taskId updates w = (Normal (), w')
        ∧ tasks w' !! i = Some (mergeTask t updates (Some (clock host (reads w))))
        ∧ length (tasks w') = length (tasks w)
        ∧ (∀ j, j ≠ i → tasks w' !! j = tasks w !! j)
        ∧ calls w' = calls w.
Proof.
  intros Hfind.
  cut (wpx (updateTask host taskId updates)
         (λ _ w', tasks w' = <[i := mergeTask t updates (Some (clock host (reads w)))]> (tasks w)
                  ∧ calls w' = calls w) no_throw w).
  { rewrite wpx_returns. intros ([] & w' & Hrun & Hw' & Hc). exists w'.
    apply findIndex_Some in Hfind as [Hi _]. apply lookup_lt_Some in Hi.
    rewrite Hw'. split_and!; [done | | apply length_insert | | done].
    - by apply list_lookup_insert_eq.
    - intros j Hj. by apply list_lookup_insert_ne. }
  apply wp_updateTask. intros w' Hc Hw'. unfold updated in Hw'. by rewrite Hfind in Hw'.
Qed.

(** X11.  [toggleTaskActive] called twice with the same identifier never
    throws and leaves the collection as an update with the empty object
    would: every task has the activity flag it had, and only [updatedAt]
    of the first bearer is new. *)
Theorem toggleTaskActive_twice host taskId w :
  ∃ w' now, (toggleTaskActive host taskId;; toggleTaskActive host taskId) w = (Normal (), w')
    ∧ tasks w' = updated taskId (λ _, noUpdates) now (tasks w)
    ∧ isActive <$> tasks w' = isActive <$> tasks w.
Proof.
  cut (wpx (toggleTaskActive host taskId;; toggleTaskActive host taskId)
         (λ _ w', ∃ now, tasks w' = updated taskId (λ _, noUpdates) now (tasks w)) no_throw w).
  { rewrite wpx_returns. intros ([] & w' & Hrun & now & Hw'). exists w', now.
    split_and!; [done | done |]. rewrite Hw'. unfold updated.
    destruct (findIndex taskId (tasks w)) as [[i t]|] eqn:Hfind; [| done].
    apply findIndex_Some in Hfind as [Hi _].
    rewrite list_fmap_insert. apply list_insert_id. by rewrite list_lookup_fmap, Hi. }
  apply wpx_bind, wp_toggleTaskActive. intros w1 _ Hw1.
  apply wp_toggleTaskActive. intros w2 _ Hw2.
  exists (Some (clock host (reads w1))). rewrite Hw2, Hw1.
  destruct (findIndex taskId (tasks w)) as [[i t]|] eqn:Hfind.
  - pose proof (findIndex_updated taskId toggleUpdate (Some (clock host (reads w))) _ i t
                  Hfind eq_refl) as Hfind'.
    unfold updated at 1. rewrite Hfind'. unfold updated. rewrite Hfind.
    rewrite list_insert_insert_eq. f_equal.
    unfold mergeTask, toggleUpdate, noUpdates. cbn. by rewrite negb_involutive.
  - unfold updated. rewrite Hfind. by rewrite Hfind.
Qed.

(** X12.  [deleteTask] never throws, removes every task that bears the
    identifier and keeps the others in their order; with an identifier
    that no task bears the collection stays as it was.  In every case a
    success notification is among the notifications it adds. *)
Theorem deleteTask_removes_every_bearer host taskId w :
  ∃ w' added n, deleteTask host taskId w = (Normal (), w')
    ∧ (taskId ∉ ids (tasks w'))
    ∧ (∀ t, id t ≠ taskId → (t ∈ tasks w' ↔ t ∈ tasks w))
    ∧ tasks w' `sublist_of` tasks w
    ∧ (taskId ∉ ids (tasks w) → tasks w' = tasks w)
    ∧ notifications w' = added ++ notifications w
    ∧ n ∈ added ∧ n_type n = sev_success ∧ n_message n = "任务已删除".
Proof.
  assert (Hrun : ∃ w' added n, deleteTask host taskId w = (Normal (), w')
            ∧ tasks w' = filter (λ t, id t ≠ taskId) (tasks w)
            ∧ notifications w' = added ++ notifications w
            ∧ n ∈ added ∧ n_type n = sev_success ∧ n_message n = "任务已删除").
  { unfold deleteTask. unfold mbind at 1, M_bind, gets. cbv zeta.
    destruct (quotaExceeded host (filter (λ t, id t ≠ taskId) (tasks w))) eqn:Hq.
    - unfold mbind, M_bind. rewrite (saveTasks_refused _ _ _ Hq).
      run. eexists _, [_; _], _.
      split_and!; [reflexivity | reflexivity | reflexivity | by left | reflexivity ..].
    - unfold mbind, M_bind. rewrite (saveTasks_stored _ _ _ Hq).
      run. eexists _, [_], _.
      split_and!; [reflexivity | reflexivity | reflexivity | by left | reflexivity ..]. }
  destruct Hrun as (w' & added & n & Hrun & Hw' & Hn).
  exists w', added, n. rewrite Hw'. split_and!; [done | | | | | apply Hn ..].
  - unfold ids. rewrite list_elem_of_fmap. intros (t & Hid & Ht).
    apply list_elem_of_filter in Ht as [Hne _]. by apply Hne.
  - intros t Hid. rewrite list_elem_of_filter. tauto.
  - apply sublist_filter.
  - intros Hnone. apply filter_all. apply Forall_forall. intros t Ht Heq.
    apply Hnone. unfold ids. apply list_elem_of_fmap. by exists t.
Qed.

(** X13.  [addTask] never throws; it returns the task built from its
    argument, the clock and the random draw, and the collection is the old
    one with that task appended.  A lookup by the new identifier finds the
    new task when no older task bears it, and the older task otherwise. *)
Theorem addTask_appends host spec w :
  ∃ w', addTask host spec w = (Normal (newTaskOf host spec w), w')
    ∧ tasks w' = tasks w ++ [newTaskOf host spec w]
    ∧ (freshId host w ∉ ids (tasks w) →
       find (freshId host w) (tasks w') = Some (newTaskOf host spec w))
    ∧ (∀ older, find (freshId host w) (tasks w) = Some older →
       find (freshId host w) (tasks w') = Some older).
Proof.
  assert (Hrun : ∃ w', addTask host spec w = (Normal (newTaskOf host spec w), w')
            ∧ tasks w' = tasks w ++ [newTaskOf host spec w]).
  { unfold addTask.
    unfold mbind at 1 2 3 4 5, M_bind, dateNow, randomBase36, newDate, gets. cbv zeta.
    set (t := mkTask _ _ _ _ _ _ _ _ _ _ _ _).
    change t with (newTaskOf host spec w). clearbody t. clear t.
    destruct (quotaExceeded host (tasks w ++ [newTaskOf host spec w])) eqn:Hq.
    - unfold mbind, M_bind. rewrite (saveTasks_refused _ _ _ Hq).
      run. eexists. split; reflexivity.
    - unfold mbind, M_bind. rewrite (saveTasks_stored _ _ _ Hq).
      run. eexists. split; reflexivity. }
  destruct Hrun as (w' & Hrun & Hw'). exists w'. rewrite Hw'.
  split_and!; [done | done | |].
  - intros Hfresh. apply find_Some_findIndex. exists (length (tasks w)).
    apply list_find_Some. split_and!.
    + by rewrite lookup_app_r, Nat.sub_diag.
    + done.
    + intros j y Hj Hlt Hid. rewrite lookup_app_l in Hj by done.
      apply Hfresh. unfold ids. apply list_elem_of_fmap. exists y.
      split; [done |]. by eapply list_elem_of_lookup_2.
  - intros older [i Hi]%find_Some_findIndex. apply find_Some_findIndex. exists i.
    by apply list_find_app_l.
Qed.

(** X14.  When the storage refuses the write, [addTask] still returns
    normally and adds the task to the collection in memory; the stored
    entry stays as it was, the error state holds the storage's exception,
    and the notifications gain two, in whichever order: the success of
    the addition and the failure to save. *)
Theorem addTask_storage_refuses host spec w :
  quotaExceeded host (tasks w ++ [newTaskOf host spec w]) = true →
  ∃ w' added n1 n2 msg, addTask host spec w = (Normal (newTaskOf host spec w), w')
    ∧ tasks w' = tasks w ++ [newTaskOf host spec w]
    ∧ localStorage w' = localStorage w
    ∧ error w' = Some (JsError "QuotaExceededError" msg)
    ∧ notifications w' = added ++ notifications w
    ∧ added ≡ₚ [n1; n2]
    ∧ n_type n1 = sev_success ∧ n_message n1 = "新任务已添加"
    ∧ n_type n2 = sev_error ∧ n_message n2 = "保存任务配置失败".
Proof.
  intros Hq. unfold addTask.
  unfold mbind at 1 2 3 4 5, M_bind, dateNow, randomBase36, newDate, gets. cbv zeta.
  set (t := mkTask _ _ _ _ _ _ _ _ _ _ _ _).
  change t with (newTaskOf host spec w). clearbody t. clear t.
  unfold mbind, M_bind. rewrite (saveTasks_refused _ _ _ Hq).
  run. eexists _, [_; _], _, _, _. split_and!; reflexivity.
Qed.

(** *** Properties that an operation keeps *)

Lemma preserves_ret {A} (I : World → Prop) (a : A) : preserves I (mret a).
Proof. by intros w Hw. Qed.

Lemma preserves_throw {A} (I : World → Prop) e : preserves I (throw (A := A) e).
Proof. by intros w Hw. Qed.

Lemma preserves_gets {A} (I : World → Prop) (f : World → A) : preserves I (gets f).
Proof. by intros w Hw. Qed.

Lemma preserves_modify (I : World → Prop) f : (∀ w, I w → I (f w)) → preserves I (modify f).
Proof. intros Hf w Hw. by apply wpx_modify, Hf. Qed.

Lemma preserves_bind {A B} (I : World → Prop) (m : M A) (f : A → M B) :
  preserves I m → (∀ a, preserves I (f a)) → preserves I (m ≫= f).
Proof.
  intros Hm Hf w Hw. apply wpx_bind.
  eapply wpx_mono; [apply Hm, Hw | intros a w' Hw'; by apply Hf | done].
Qed.

Lemma preserves_try_catch {A} (I : World → Prop) (body : M A) handler :
  preserves I body → (∀ e, preserves I (handler e)) → preserves I (try_catch body handler).
Proof.
  intros Hb Hh w Hw. apply wpx_try_catch.
  eapply wpx_mono; [apply Hb, Hw | done | intros e w' Hw'; by apply Hh].
Qed.

Lemma preserves_try_finally {A} (I : World → Prop) (body : M A) fin :
  preserves I body → preserves I fin → preserves I (try_finally body fin).
Proof.
  intros Hb Hf w Hw. apply wpx_try_finally.
  eapply wpx_mono; [apply Hb, Hw | |]; intros x w' Hw';
    (eapply wpx_mono; [apply Hf, Hw' | done | done]).
Qed.

Lemma preserves_forEach {A} (I : World → Prop) (l : list A) (f : A → M unit) :
  (∀ x, x ∈ l → preserves I (f x)) → preserves I (forEach l f).
Proof.
  intros Hf w Hw. apply wpx_forEach; [done |]. intros x w' Hx Hw'. by apply Hf.
Qed.

Lemma with_reads_id w : with_reads (reads w) w = w.
Proof. by destruct w. Qed.

(** The computation of the next run time reads the clock and touches
    nothing else: its result and the number of readings depend on the
    world through the number of readings made so far only. *)
Lemma calculateNextRunTime_rec_clock_only host depth task k :
  ∃ r n, ∀ w, reads w = k → calculateNextRunTime_rec host depth task w = (r, with_reads n w).
Proof.
  revert task k. induction depth as [|depth IH]; intros task k.
  - exists (Throw stackOverflow), k. intros w <-. by rewrite with_reads_id.
  - destruct (IH (with_lastRunTime (Some (Some (clock host k))) task) (S (S k)))
      as (r & n & Hrec).
    destruct (num_le (candidate host task (Some (clock host (S k)))) (Some (clock host k)))
      eqn:Hle.
    + exists r, n. intros w Hw. rewrite NextRun.calculateNextRunTime_rec_step. cbv zeta.
      rewrite Hw, Hle. by rewrite (Hrec (with_reads (S (S k)) w)).
    + exists (Normal (candidate host task (Some (clock host (S k))))), (S (S k)).
      intros w Hw. rewrite NextRun.calculateNextRunTime_rec_step. cbv zeta.
      by rewrite Hw, Hle.
Qed.

Section Preserving.
Context (host : Host) (opts : SchedulerOptions) (I : World → Prop).
Hypothesis HI : stable I.
Hypothesis Hupdate : ∀ taskId updates, preserves I (updateTask host taskId updates).

Lemma preserves_newDate : preserves I (newDate host).
Proof. intros w Hw. apply wp_newDate. by apply (HI w). Qed.

Lemma preserves_addNotification ty msg : preserves I (addNotification host ty msg).
Proof. intros w Hw. unfold wpx. rewrite addNotification_run. by apply (HI w). Qed.

Lemma preserves_setError e : preserves I (setError e).
Proof. intros w Hw. by apply (HI w). Qed.

Lemma preserves_setCurrentTask c : preserves I (setCurrentTask c).
Proof. intros w Hw. by apply (HI w). Qed.

Lemma preserves_calculateNextRunTime task : preserves I (calculateNextRunTime host task).
Proof.
  intros w Hw. unfold calculateNextRunTime.
  destruct (calculateNextRunTime_rec_clock_only host (S (stackLimit host)) task (reads w))
    as (r & n & Hrun).
  unfold wpx. rewrite (Hrun w eq_refl). destruct r; by apply (HI w).
Qed.

(** What [runTask] does once the callback has returned. *)
Lemma preserves_epilogue taskId task :
  preserves I
    (ran ← newDate host;
     next ← calculateNextRunTime host task;
     updateTask host taskId
       (mkPartial None None None None None (Some next) (Some (Some ran))
          (Some (Some success)) None None None None);;
     addNotification host sev_success
       ("任务 " +:+ dquote +:+
        match type task with summary => "总结生成" | poster => "海报生成" end
        +:+ dquote +:+ " 执行成功")).
Proof.
  apply preserves_bind; [apply preserves_newDate | intros ran].
  apply preserves_bind; [apply preserves_calculateNextRunTime | intros next].
  apply preserves_bind; [apply Hupdate | intros _]. apply preserves_addNotification.
Qed.

(** The [catch] block of [runTask]. *)
Lemma preserves_handler snapshot taskId err :
  preserves I
    (match find taskId snapshot with
     | Some _ =>
         ran ← newDate host;
         updateTask host taskId
           (mkPartial None None None None None None (Some (Some ran))
              (Some (Some failure)) None None None None)
     | None => mret ()
     end;;
     setError (if instanceofError err then err else JsError "Error" "Task execution failed");;
     addNotification host sev_error
       ("任务执行失败: " +:+
        match err with JsError _ message => message | JsValue _ => "未知错误" end)).
Proof.
  apply preserves_bind.
  - destruct (find taskId snapshot); [| apply preserves_ret].
    apply preserves_bind; [apply preserves_newDate | intros ran]. apply Hupdate.
  - intros _. apply preserves_bind; [apply preserves_setError | intros _].
    apply preserves_addNotification.
Qed.

(** A property kept by [updateTask] and by the record of a call is kept
    by [runTask], whatever the callback does. *)
Lemma preserves_runTaskIn snapshot taskId :
  (∀ t w, I w → I (with_calls (t :: calls w) w)) →
  preserves I (runTaskIn host opts snapshot taskId).
Proof.
  intros Hcall. unfold runTaskIn.
  apply preserves_try_finally; [| apply preserves_setCurrentTask].
  apply preserves_try_catch; [| intros err; apply preserves_handler].
  apply preserves_bind.
  { destruct (find taskId snapshot); [apply preserves_ret | apply preserves_throw]. }
  intros task. apply preserves_bind; [apply preserves_setCurrentTask | intros _].
  apply preserves_bind; [| intros _; apply preserves_epilogue].
  destruct (onTaskRun opts) as [cb|]; [| apply preserves_ret].
  intros w Hw. unfold wpx, await_onTaskRun. destruct (cb task); by apply Hcall.
Qed.

End Preserving.

(** *** Running a task, continued *)

(** X15.  [runTask] never throws, whether the callback fulfils or rejects
    or there is none, and whether or not a task bears the identifier;
    afterwards no task is marked as current, the collection has the length
    it had, and every task that bears another identifier is where and as
    it was.  (The callback is one that fulfils or rejects without itself
    calling the hook's operations.) *)
Theorem runTask_never_throws host opts taskId w :
  ∃ w', runTask host opts taskId w = (Normal (), w')
    ∧ currentTask w' = None
    ∧ length (tasks w') = length (tasks w)
    ∧ (∀ j t, tasks w !! j = Some t → id t ≠ taskId → tasks w' !! j = Some t).
Proof.
  assert (Hrun : wpx (runTaskIn host opts (tasks w) taskId)
            (λ _ w', length (tasks w') = length (tasks w)
                     ∧ ∀ j t, tasks w !! j = Some t → id t ≠ taskId → tasks w' !! j = Some t)
            no_throw w).
  { apply wp_runTaskIn. intros w' [-> | (u & now & _ & ->)] _; [done |].
    split; [apply updated_length | intros j t; apply updated_other]. }
  apply wpx_returns in Hrun as ([] & w' & Hrun & Hlen & Hother).
  exists w'. split_and!; [done | | done | done].
  unfold runTaskIn, try_finally in Hrun.
  destruct (try_catch _ _ w) as [r w'']. cbn in Hrun. by injection Hrun as _ <-.
Qed.

(** X16.  [runTask] with an identifier that no task bears: the callback
    is not called, the collection and the stored entry stay as they were,
    the error state holds the error "任务不存在", and one error notification
    is put in front. *)
Theorem runTask_unknown_id host opts taskId w :
  taskId ∉ ids (tasks w) →
  ∃ w' n, runTask host opts taskId w = (Normal (), w')
    ∧ tasks w' = tasks w ∧ localStorage w' = localStorage w ∧ calls w' = calls w
    ∧ currentTask w' = None
    ∧ error w' = Some (JsError "Error" "任务不存在")
    ∧ notifications w' = n :: notifications w
    ∧ n_type n = sev_error ∧ n_message n = "任务执行失败: 任务不存在".
Proof.
  intros Hnone. apply findIndex_None in Hnone.
  assert (Hfind : find taskId (tasks w) = None) by (unfold find; by rewrite Hnone).
  unfold runTask, mbind at 1, M_bind, gets, runTaskIn. rewrite Hfind.
  eexists _, _. split_and!; reflexivity.
Qed.

Lemma updateTask_returns host taskId updates w :
  ∃ w' added, updateTask host taskId updates w = (Normal (), w')
    ∧ tasks w' = updated taskId (λ _, updates) (Some (clock host (reads w))) (tasks w)
    ∧ calls w' = calls w ∧ currentTask w' = currentTask w
    ∧ notifications w' = added ++ notifications w.
Proof.
  unfold updateTask, updated. unfold mbind at 1, M_bind, gets.
  destruct (findIndex taskId (tasks w)) as [[i t]|].
  - unfold mbind at 1, M_bind, newDate. cbv zeta.
    destruct (quotaExceeded host
                (<[i := mergeTask t updates (Some (clock host (reads w)))]> (tasks w))) eqn:Hq.
    + unfold mbind, M_bind. rewrite (saveTasks_refused _ _ _ Hq).
      run. eexists _, [_]. split_and!; reflexivity.
    + unfold mbind, M_bind. rewrite (saveTasks_stored _ _ _ Hq).
      run. eexists _, []. split_and!; reflexivity.
  - unfold mbind, M_bind. run. eexists _, [_]. split_and!; reflexivity.
Qed.

(** X17.  A run that succeeds.  When a task bears the identifier, the
    callback (if there is one) fulfils, and the next run time is computed
    to be [next], [runTask] leaves the task with [lastRunStatus] success,
    [lastRunTime] the time read after the callback, [nextRunTime] [next]
    and some new [updatedAt], its other fields being as they were; the
    callback was handed the task once, no task is marked as current, and
    a success notification is among the notifications added. *)
Theorem runTask_success host opts taskId task next w w1 :
  find taskId (tasks w) = Some task →
  (∀ cb, onTaskRun opts = Some cb → cb task = Normal ()) →
  calculateNextRunTime host task (with_reads (S (reads w)) w) = (Normal next, w1) →
  ∃ w' now added n, runTask host opts taskId w = (Normal (), w')
    ∧ find taskId (tasks w')
      = Some (mergeTask task (successUpdate (Some (clock host (reads w))) next) now)
    ∧ currentTask w' = None
    ∧ calls w' = match onTaskRun opts with Some _ => task :: calls w | None => calls w end
    ∧ notifications w' = added ++ notifications w
    ∧ n ∈ added ∧ n_type n = sev_success.
Proof.
  intros Hfind Hok Hcalc.
  destruct (proj1 (find_Some_findIndex _ _ _) Hfind) as [i Hidx].
  destruct (calculateNextRunTime_rec_clock_only host (S (stackLimit host)) task (S (reads w)))
    as (r & k & Hclock).
  unfold calculateNextRunTime in Hcalc.
  rewrite (Hclock (with_reads (S (reads w)) w) eq_refl) in Hcalc.
  injection Hcalc as -> _.
  set (P := λ (c : list SchedulerTask) (w' : World),
         find taskId (tasks w')
         = Some (mergeTask task (successUpdate (Some (clock host (reads w))) next)
                   (Some (clock host k)))
         ∧ currentTask w' = None ∧ calls w' = c
         ∧ ∃ added n, notifications w' = added ++ notifications w
                      ∧ n ∈ added ∧ n_type n = sev_success).
  cut (wpx (runTask host opts taskId)
         (λ _ w', P (match onTaskRun opts with Some _ => task :: calls w | None => calls w end) w')
         no_throw w).
  { rewrite wpx_returns.
    intros ([] & w' & Hrun & Hf & Hc & Hcalls & added & n & Hn & Hin & Hty).
    by exists w', (Some (clock host k)), added, n. }
  unfold runTask. apply wpx_bind, wpx_gets. unfold runTaskIn. rewrite Hfind.
  match goal with |- wpx (try_finally (try_catch _ ?h) _) _ _ _ => set (handler := h) end.
  clearbody handler.
  apply wpx_try_finally, wpx_try_catch, wpx_bind, wpx_ret, wpx_bind, wpx_modify, wpx_bind.
  assert (Hrest : ∀ w0 E', reads w0 = reads w → tasks w0 = tasks w →
                           notifications w0 = notifications w →
    wpx (ran ← newDate host;
         next ← calculateNextRunTime host task;
         updateTask host taskId
           (mkPartial None None None None None (Some next) (Some (Some ran))
              (Some (Some success)) None None None None);;
         addNotification host sev_success
           ("任务 " +:+ dquote +:+
            match type task with summary => "总结生成" | poster => "海报生成" end
            +:+ dquote +:+ " 执行成功"))
      (λ a w2, wpx (setCurrentTask None) (λ _ w', P (calls w0) w') no_throw w2) E' w0).
  { intros w0 E' Hr Ht Hn. apply wpx_bind, wp_newDate, wpx_bind.
    unfold wpx at 1, calculateNextRunTime.
    rewrite (Hclock (with_reads (S (reads w0)) w0)) by (cbn; by rewrite Hr).
    apply wpx_bind. unfold wpx at 1.
    match goal with |- context [updateTask host taskId ?u ?w3] =>
      destruct (updateTask_returns host taskId u w3) as (w4 & added & Hrun & Hw4 & Hc4 & _ & Hn4)
    end.
    rewrite Hrun. unfold wpx at 1. rewrite addNotification_run. apply wpx_modify.
    unfold P. cbn. split_and!; [| done | done |].
    - rewrite Hw4. cbn. rewrite Ht, Hr.
      by apply (find_updated taskId (λ _, successUpdate (Some (clock host (reads w))) next) _ _ i).
    - eexists (_ :: added), _. rewrite Hn4. cbn. rewrite Hn.
      split_and!; [reflexivity | by left | reflexivity]. }
  destruct (onTaskRun opts) as [cb|] eqn:Hcb.
  - unfold wpx at 1, await_onTaskRun. rewrite (Hok cb eq_refl).
    by apply (Hrest (with_calls (task :: calls w) (with_currentTask (Some task) w))).
  - by apply wpx_ret, (Hrest (with_currentTask (Some task) w)).
Qed.

(** *** The stored entry *)

Lemma synced_stable : stable synced.
Proof. intros w w' (Ht & Hs & _). unfold synced. by rewrite Ht, Hs. Qed.

Lemma perform_returns host opts op w : ∃ w', perform host opts op w = (Normal (), w').
Proof.
  cut (wpx (perform host opts op) (λ _ _, True) no_throw w).
  { rewrite wpx_returns. intros ([] & w' & Hrun & _). by exists w'. }
  destruct op; cbn [perform].
  - apply wpx_bind, wp_addTask. intros. by apply wpx_ret.
  - by apply wp_updateTask.
  - by apply wp_toggleTaskActive.
  - by apply wp_deleteTask.
  - unfold runTask. by apply wpx_bind, wpx_gets, wp_runTaskIn.
Qed.

Section Storage.
Context (host : Host) (opts : SchedulerOptions).
Hypothesis Hquota : ∀ ts, quotaExceeded host ts = false.

Lemma synced_updateTask taskId updates : preserves synced (updateTask host taskId updates).
Proof.
  intros w Hw. unfold updateTask. apply wpx_bind, wpx_gets.
  destruct (findIndex taskId (tasks w)) as [[i t]|].
  - apply wpx_bind, wp_newDate, wpx_bind. unfold wpx at 1. rewrite saveTasks_stored by done.
    apply wpx_modify. by left.
  - apply wpx_bind. unfold wpx at 1. rewrite addNotification_run. by apply wpx_modify.
Qed.

Lemma synced_toggleTaskActive taskId : preserves synced (toggleTaskActive host taskId).
Proof.
  intros w Hw. unfold toggleTaskActive. apply wpx_bind, wpx_gets.
  destruct (findIndex taskId (tasks w)) as [[i t]|].
  - apply wpx_bind, wp_newDate, wpx_bind. unfold wpx at 1. rewrite saveTasks_stored by done.
    apply wpx_bind. unfold wpx at 1. rewrite addNotification_run. apply wpx_modify. by left.
  - by apply wpx_modify.
Qed.

Lemma synced_deleteTask taskId : preserves synced (deleteTask host taskId).
Proof.
  intros w Hw. unfold deleteTask. apply wpx_bind, wpx_gets, wpx_bind.
  unfold wpx at 1. rewrite saveTasks_stored by done.
  apply wpx_bind, wpx_modify. unfold wpx. rewrite addNotification_run. by left.
Qed.

Lemma synced_addTask spec : preserves synced (addTask host spec).
Proof.
  intros w Hw. unfold addTask.
  apply wpx_bind. unfold wpx at 1, dateNow.
  apply wpx_bind. unfold wpx at 1, randomBase36.
  apply wpx_bind, wp_newDate, wpx_bind, wp_newDate, wpx_bind, wpx_gets.
  apply wpx_bind. unfold wpx at 1. rewrite saveTasks_stored by done.
  apply wpx_bind, wpx_modify, wpx_bind. unfold wpx at 1. rewrite addNotification_run.
  apply wpx_ret. by left.
Qed.

Lemma synced_runTaskIn snapshot taskId :
  preserves synced (runTaskIn host opts snapshot taskId).
Proof.
  apply preserves_runTaskIn; [apply synced_stable | apply synced_updateTask | done].
Qed.

Lemma synced_perform op : preserves synced (perform host opts op).
Proof.
  destruct op; cbn [perform].
  - apply preserves_bind; [apply synced_addTask | intros; apply preserves_ret].
  - apply synced_updateTask.
  - apply synced_toggleTaskActive.
  - apply synced_deleteTask.
  - unfold runTask. apply preserves_bind; [apply preserves_gets | intros snapshot].
    apply synced_runTaskIn.
Qed.

Lemma synced_checkTasks : preserves synced (checkTasks host opts).
Proof.
  unfold checkTasks. apply preserves_bind; [apply preserves_gets | intros snapshot].
  apply preserves_bind; [apply preserves_newDate, synced_stable | intros now].
  apply preserves_forEach. intros task _. destruct (isDue now task); [| apply preserves_ret].
  apply preserves_try_catch; [apply synced_runTaskIn | intros; apply preserves_ret].
Qed.

End Storage.

(** X18.  On a host whose storage accepts every write, the stored entry
    mirrors the collection after every sequence of the hook's operations:
    if it held the collection before (or nothing was stored yet and the
    collection was empty), no operation throws and it holds the collection
    afterwards. *)
Theorem storage_mirrors_collection host opts ops w :
  (∀ ts, quotaExceeded host ts = false) → synced w →
  ∃ w', forEach ops (perform host opts) w = (Normal (), w') ∧ synced w'.
Proof.
  intros Hq. revert w. induction ops as [|op ops IH]; intros w Hw; [by exists w |].
  destruct (perform_returns host opts op w) as (w1 & Hrun).
  pose proof (synced_perform host opts Hq op w Hw) as H1.
  unfold wpx in H1. rewrite Hrun in H1.
  destruct (IH w1 H1) as (w' & Hrun' & Hw'). exists w'.
  cbn [forEach]. unfold mbind, M_bind. by rewrite Hrun.
Qed.

(** *** The scan, continued *)

Lemma calls_stable c : stable (λ w, calls w = c).
Proof. intros w w' (_ & _ & Hc) Hw. congruence. Qed.

Lemma calls_updateTask host c taskId updates :
  preserves (λ w, calls w = c) (updateTask host taskId updates).
Proof. intros w Hw. apply wp_updateTask. intros w' Hc _. congruence. Qed.

(** With a callback, a run whose closure finds a task hands that task to
    the callback, once, whatever the current collection is. *)
Lemma runTaskIn_called host opts snapshot taskId t cb w :
  onTaskRun opts = Some cb → find taskId snapshot = Some t →
  wpx (runTaskIn host opts snapshot taskId)
    (λ _ w', calls w' = t :: calls w) (λ _ w', calls w' = t :: calls w) w.
Proof.
  intros Hcb Hfind.
  set (I := λ w', calls w' = t :: calls w).
  pose proof (preserves_handler host I (calls_stable _) (calls_updateTask host _)
                snapshot taskId) as Hh.
  pose proof (preserves_epilogue host I (calls_stable _) (calls_updateTask host _)
                taskId t) as He.
  unfold runTaskIn. apply wpx_try_finally.
  apply (wpx_mono _ (λ _, I) _ (λ _, I)); [| done | done].
  apply wpx_try_catch.
  apply (wpx_mono _ (λ _, I) _ (λ _, I)); [| done | intros e w' Hw'; apply Hh, Hw'].
  apply wpx_bind. rewrite Hfind, Hcb.
  apply wpx_ret, wpx_bind, wpx_modify, wpx_bind.
  unfold wpx at 1, await_onTaskRun. destruct (cb t) as [[]|e]; [by apply He | done].
Qed.

Lemma checkTasksIn_returns host opts snapshot w :
  ∃ w', checkTasksIn host opts snapshot w = (Normal (), w')
        ∧ ids (tasks w') = ids (tasks w).
Proof.
  cut (wpx (checkTasksIn host opts snapshot) (λ _ w', ids (tasks w') = ids (tasks w))
         no_throw w).
  { rewrite wpx_returns. intros ([] & w' & Hrun & Hids). by exists w'. }
  unfold checkTasksIn. apply wpx_bind, wp_newDate.
  apply (wpx_forEach _ _ (λ w', ids (tasks w') = ids (tasks w))); [done |].
  intros x w' _ Hw'. destruct (isDue _ x); [| by apply wpx_ret].
  apply wpx_try_catch, wp_runTaskIn.
  intros w'' [-> | (u & now & Hu & ->)] _; [done | by rewrite ids_updated].
Qed.

Lemma checkTasks_checkTasksIn host opts w :
  checkTasks host opts w = checkTasksIn host opts (tasks w) w.
Proof. reflexivity. Qed.

(** X19.  A scan never throws, whether the callback fulfils or rejects the
    runs it starts, and leaves every identifier in its place; on a host
    whose storage accepts every write it also leaves the stored entry
    mirroring the collection.  (The callback is one that fulfils or
    rejects without itself calling the hook's operations.) *)
Theorem checkTasks_never_throws host opts w :
  ∃ w', checkTasks host opts w = (Normal (), w')
    ∧ ids (tasks w') = ids (tasks w)
    ∧ ((∀ ts, quotaExceeded host ts = false) → synced w → synced w').
Proof.
  destruct (checkTasksIn_returns host opts (tasks w) w) as (w' & Hrun & Hids).
  rewrite <- checkTasks_checkTasksIn in Hrun.
  exists w'. split_and!; [done | done |].
  intros Hq Hw. pose proof (synced_checkTasks host opts Hq w Hw) as Hs.
  unfold wpx in Hs. by rewrite Hrun in Hs.
Qed.

Lemma forEach_called host opts cb snapshot l w :
  onTaskRun opts = Some cb → (∀ t, t ∈ l → find (id t) snapshot = Some t) →
  wpx (forEach l (λ t, try_catch (runTaskIn host opts snapshot (id t)) (λ _, mret ())))
    (λ _ w', calls w' = reverse l ++ calls w) no_throw w.
Proof.
  intros Hcb. revert w. induction l as [|t l IH]; intros w Hfind; [done |].
  cbn [forEach]. apply wpx_bind, wpx_try_catch.
  eapply wpx_mono; [apply (runTaskIn_called host opts snapshot (id t) t cb w Hcb) | |].
  - apply Hfind. by left.
  - intros [] w1 Hw1. eapply wpx_mono; [apply IH | | done].
    + intros t' Ht'. apply Hfind. by right.
    + intros [] w2 Hw2. cbn beta in Hw2. rewrite Hw2, Hw1, reverse_cons.
      by rewrite <- app_assoc.
  - intros e w1 Hw1. apply wpx_ret. eapply wpx_mono; [apply IH | | done].
    + intros t' Ht'. apply Hfind. by right.
    + intros [] w2 Hw2. cbn beta in Hw2. rewrite Hw2, Hw1, reverse_cons.
      by rewrite <- app_assoc.
Qed.

(** X20.  With a callback and pairwise distinct identifiers, a scan hands
    to the callback exactly the tasks that are active and due at the time
    it reads, each once and in the order of the collection, whether the
    callback fulfils or rejects. *)
Theorem checkTasks_hands_each_due_task_once host opts cb w :
  onTaskRun opts = Some cb → NoDup (ids (tasks w)) →
  ∃ w', checkTasks host opts w = (Normal (), w')
    ∧ calls w' = reverse (selected (Some (clock host (reads w))) (tasks w)) ++ calls w.
Proof.
  intros Hcb Hnd.
  cut (wpx (checkTasks host opts)
         (λ _ w', calls w' = reverse (selected (Some (clock host (reads w))) (tasks w)) ++ calls w)
         no_throw w).
  { rewrite wpx_returns. intros ([] & w' & Hrun & Hc). by exists w'. }
  unfold checkTasks. apply wpx_bind, wpx_gets, wpx_bind, wp_newDate.
  unfold wpx. rewrite (Scan.forEach_filter (isDue (Some (clock host (reads w))))).
  apply (forEach_called host opts cb (tasks w) _ (with_reads (S (reads w)) w) Hcb).
  intros t [_ Ht]%list_elem_of_filter. by apply Scan.find_NoDup.
Qed.

End LifecycleMore.

(** ** Loading, starting and stopping *)

Module ControlMore.
Import Hoare Lifecycle LifecycleMore.

Lemma jsonValue_native : ∀ v, jsonNative v = true → jsonValue v = Some v.
Proof.
  fix IH 1.
  intros [| | b | x | | | negative | s | d | elements | properties] Hv; cbn in *; try done.
  - do 2 f_equal. induction elements as [|x l IHl]; [done |].
    cbn in *. apply andb_true_iff in Hv as [Hx Hl].
    rewrite (IH x Hx). cbn. f_equal. by apply IHl.
  - do 2 f_equal. induction properties as [|[key x] l IHl]; [done |].
    apply andb_true_iff in Hv as [Hx Hl].
    rewrite (IH x Hx). f_equal. by apply IHl.
Qed.

Lemma jsonRecord_native properties :
  Forall (λ property, jsonNative property.2 = true) properties →
  jsonRecord properties = properties.
Proof.
  induction 1 as [|[key x] l Hx _ IH]; [done |].
  cbn in *. by rewrite (jsonValue_native x Hx), IH.
Qed.

Lemma processTask_stringifyParse task :
  validDates task → plainOptions task → processTask (stringifyParse task) = task.
Proof.
  intros (Hn & Hl & Hc & Hu) Ho. destruct task as [? ? ? ? ? n l ? ? c u o].
  unfold plainOptions in Ho. cbn in *.
  unfold processTask, stringifyParse. cbn.
  assert (jsonRecord <$> o = o) as ->.
  { destruct o as [properties|]; [| done]. cbn. by rewrite jsonRecord_native. }
  destruct n as [n|]; [| done]. destruct c as [c|]; [| done]. destruct u as [u|]; [| done].
  destruct l as [[l|]|]; done.
Qed.

Lemma saveTasks_loadTasks_run host ts w :
  quotaExceeded host ts = false →
  (saveTasks host ts;; loadTasks host) w
  = (Normal (),
     with_tasks (processTask <$> (stringifyParse <$> ts)) (with_localStorage (Some ts) w)).
Proof.
  intros Hq. unfold mbind at 1, M_bind. by rewrite (saveTasks_stored _ _ _ Hq).
Qed.

(** X21.  A collection that was saved and is loaded again is the same
    collection, when the storage accepted it, all its dates are valid and
    its [options] hold only values that JSON gives back as they are (no
    [undefined], NaN, infinity, negative zero or [Date] among them). *)
Theorem saveTasks_then_loadTasks host ts w :
  quotaExceeded host ts = false → Forall validDates ts → Forall plainOptions ts →
  ∃ w', (saveTasks host ts;; loadTasks host) w = (Normal (), w')
        ∧ tasks w' = ts ∧ localStorage w' = Some ts.
Proof.
  intros Hq Hvalid Hplain. rewrite (saveTasks_loadTasks_run _ _ _ Hq).
  eexists. split_and!; [done | | done]. cbn. clear Hq.
  induction Hvalid as [|t ts Ht _ IH]; [done |].
  apply Forall_cons in Hplain as [Hp Hps].
  cbn. by rewrite processTask_stringifyParse, IH.
Qed.

(** X22.  An active task whose [nextRunTime] is an invalid date is due at
    no time; once the collection was saved and loaded again, its
    [nextRunTime] is the epoch and it is due at every time from the epoch
    on. *)
Theorem reload_makes_invalid_date_due host ts w i task :
  quotaExceeded host ts = false →
  ts !! i = Some task → nextRunTime task = None → isActive task = true →
  ∃ w' task', (saveTasks host ts;; loadTasks host) w = (Normal (), w')
    ∧ tasks w' !! i = Some task'
    ∧ id task' = id task ∧ nextRunTime task' = Some 0
    ∧ (∀ now, isDue now task = false)
    ∧ (∀ now, 0 ≤ now → isDue (Some now) task' = true).
Proof.
  intros Hq Hi Hnext Hactive. rewrite (saveTasks_loadTasks_run _ _ _ Hq).
  exists (with_tasks (processTask <$> (stringifyParse <$> ts)) (with_localStorage (Some ts) w)),
    (processTask (stringifyParse task)).
  split_and!; [done | | done | | |].
  - cbn. by rewrite !list_lookup_fmap, Hi.
  - cbn. by rewrite Hnext.
  - intros now. unfold isDue. rewrite Hnext. by destruct (isActive task).
  - intros now Hnow. unfold isDue. cbn. rewrite Hactive, Hnext. cbn.
    by apply bool_decide_eq_true_2.
Qed.

(** *** Starting and stopping *)

Lemma startScheduler_running host opts h :
  isRunning h = true → startScheduler host opts h = (Normal (), h).
Proof. intros Hr. unfold startScheduler, startSchedulerIn. by rewrite Hr. Qed.

Lemma startSchedulerIn_run host opts snapshot h :
  ∃ w1, checkTasksIn host opts snapshot (world h) = (Normal (), w1)
    ∧ startSchedulerIn host opts false snapshot h
      = (Normal (),
         mkHook (snd (addNotification host info "任务调度器已启动" w1)) true
           (Some (lastHandle h + 1))
           ((lastHandle h + 1, checkInterval opts) :: intervals h) (lastHandle h + 1)).
Proof.
  destruct (checkTasksIn_returns host opts snapshot (world h)) as (w1 & Hrun & _).
  exists w1. split; [done |].
  unfold startSchedulerIn. unfold mbind at 1, MH_bind, inWorld. rewrite Hrun.
  unfold mbind, MH_bind, setInterval, setTimerRef, setIsRunning. cbn.
  by rewrite addNotification_run.
Qed.

Lemma loadTasks_returns host w : ∃ w', loadTasks host w = (Normal (), w').
Proof.
  unfold loadTasks, try_catch, mbind, M_bind, gets.
  destruct (localStorage w); by eexists.
Qed.

Lemma inWorld_loadTasks host h :
  ∃ w', inWorld (loadTasks host) h
        = (Normal (), mkHook w' (isRunning h) (timerRef h) (intervals h) (lastHandle h)).
Proof.
  destruct (loadTasks_returns host (world h)) as [w' Hrun].
  exists w'. unfold inWorld. by rewrite Hrun.
Qed.

(** A render of a scheduler that is marked as running and keeps a handle:
    the cleanup clears the timer of that handle, and the effect does not
    start the scheduler again. *)
Lemma rerender_running host opts h handle :
  isRunning h = true → timerRef h = Some handle →
  ∃ w', rerender host opts h
        = (Normal (),
           mkHook w' true (Some handle)
             (filter (λ timer, timer.1 ≠ handle) (intervals h)) (lastHandle h)).
Proof.
  intros Hr Ht. unfold rerender, effectCleanup. unfold mbind at 1, MH_bind.
  rewrite Ht. unfold clearInterval, mountEffect. rewrite Hr, Ht.
  set (h1 := mkHook _ _ _ _ _).
  destruct (inWorld_loadTasks host h1) as [w' Hload].
  unfold mbind, MH_bind. rewrite Hload. exists w'.
  by destruct (autoStart opts).
Qed.

Lemma rerenders_running host opts n h handle :
  isRunning h = true → timerRef h = Some handle →
  ∃ w', rerenders host opts (S n) h
        = (Normal (),
           mkHook w' true (Some handle)
             (filter (λ timer, timer.1 ≠ handle) (intervals h)) (lastHandle h)).
Proof.
  revert h. induction n as [|n IH]; intros h Hr Ht.
  - destruct (rerender_running host opts h handle Hr Ht) as [w' Hrun].
    exists w'. cbn [rerenders]. unfold mbind, MH_bind. by rewrite Hrun.
  - destruct (rerender_running host opts h handle Hr Ht) as [w1 Hrun].
    set (h1 := mkHook w1 true (Some handle)
                 (filter (λ timer, timer.1 ≠ handle) (intervals h)) (lastHandle h)) in *.
    destruct (IH h1 eq_refl eq_refl) as [w' Hrest].
    exists w'. change (rerenders host opts (S (S n)))
      with (rerender host opts;; rerenders host opts (S n)).
    unfold mbind, MH_bind. rewrite Hrun, Hrest. cbn.
    by rewrite list_filter_filter_l.
Qed.

(** A render of a hook that was never started and is not to start by
    itself changes no timer. *)
Lemma rerenders_idle host opts n h :
  autoStart opts = false → isRunning h = false → timerRef h = None →
  ∃ w', rerenders host opts n h
        = (Normal (), mkHook w' false None (intervals h) (lastHandle h)).
Proof.
  intros Ha. revert h. induction n as [|n IH]; intros h Hr Ht.
  - exists (world h). destruct h. cbn in *. by subst.
  - cbn [rerenders]. unfold mbind at 1, MH_bind.
    unfold rerender, effectCleanup. unfold mbind at 1, MH_bind. rewrite Ht.
    unfold mountEffect. rewrite Ha. destruct (inWorld_loadTasks host h) as [w1 Hload].
    unfold mbind, MH_bind. rewrite Hload, Hr, Ht. cbn.
    apply (IH (mkHook w1 false None (intervals h) (lastHandle h))); done.
Qed.

(** X23.  The timer does not outlive the start.  [startScheduler], called
    while the scheduler is not running, registers a timer and sets
    [isRunning]; the change of [isRunning] makes the effect run again,
    and its cleanup clears that timer while the effect, finding the
    scheduler marked as running, starts nothing.  After the start and
    the renders that follow it, however many, the scheduler is marked as
    running and the timers are those of before the start. *)
Theorem startScheduler_timer_cleared_by_rerender host opts h n :
  isRunning h = false →
  (∀ timer, timer ∈ intervals h → timer.1 ≤ lastHandle h) →
  ∃ h', (startScheduler host opts;; rerenders host opts (S n)) h = (Normal (), h')
    ∧ isRunning h' = true
    ∧ timerRef h' = Some (lastHandle h + 1)
    ∧ intervals h' = intervals h.
Proof.
  intros Hr Hfresh.
  destruct (startSchedulerIn_run host opts (tasks (world h)) h) as (w1 & _ & Hstart).
  unfold mbind, MH_bind. unfold startScheduler. rewrite Hr, Hstart.
  set (h1 := mkHook _ _ _ _ _).
  destruct (rerenders_running host opts n h1 (lastHandle h + 1) eq_refl eq_refl) as [w' Hrun].
  rewrite Hrun. eexists. split_and!; [done | done | done |]. cbn.
  rewrite decide_False by lia.
  apply filter_all, Forall_forall. intros timer Ht%Hfresh. lia.
Qed.

(** X24.  The same at the mount.  After the effect of the mount render
    and the renders that follow it, the timers are those of before the
    mount, with [autoStart] (the scheduler is then marked as running) and
    without: no timer of the hook stays registered. *)
Theorem mountEffect_leaves_no_timer host opts h n :
  isRunning h = false → timerRef h = None →
  (∀ timer, timer ∈ intervals h → timer.1 ≤ lastHandle h) →
  ∃ h', (mountEffect host opts false (tasks (world h));; rerenders host opts (S n)) h
        = (Normal (), h')
    ∧ isRunning h' = autoStart opts
    ∧ intervals h' = intervals h.
Proof.
  intros Hr Ht Hfresh. unfold mountEffect.
  destruct (inWorld_loadTasks host h) as [w0 Hload].
  destruct (autoStart opts) eqn:Ha.
  - unfold mbind at 1 2, MH_bind. rewrite Hload.
    set (h0 := mkHook _ _ _ _ _).
    destruct (startSchedulerIn_run host opts (tasks (world h)) h0) as (w1 & _ & Hstart).
    rewrite Hstart. set (h1 := mkHook _ _ _ _ _).
    destruct (rerenders_running host opts n h1 (lastHandle h + 1) eq_refl eq_refl)
      as [w' Hrun].
    rewrite Hrun. eexists. split_and!; [done | done |]. cbn.
    rewrite decide_False by lia.
    apply filter_all, Forall_forall. intros timer Hin%Hfresh. lia.
  - unfold mbind at 1 2, MH_bind. rewrite Hload. cbn [mret MH_ret].
    set (h0 := mkHook _ _ _ _ _).
    destruct (rerenders_idle host opts (S n) h0 Ha Hr Ht) as [w' Hrun].
    rewrite Hrun. by eexists.
Qed.

(** X25.  Two calls of one [startScheduler] closure, created while the
    scheduler was not running, both pass the test of [isRunning] and
    register a timer each; only the second handle is kept, so that after
    [stopScheduler] the first timer is still registered although the
    scheduler is marked as stopped. *)
Theorem startScheduler_stale_closure_leaks_timer host opts snapshot h :
  ∃ h', (startSchedulerIn host opts false snapshot;;
         startSchedulerIn host opts false snapshot;;
         stopScheduler host) h = (Normal (), h')
    ∧ isRunning h' = false ∧ timerRef h' = None
    ∧ (lastHandle h + 1, checkInterval opts) ∈ intervals h'.
Proof.
  destruct (startSchedulerIn_run host opts snapshot h) as (w1 & _ & Hstart1).
  unfold mbind at 1, MH_bind. rewrite Hstart1.
  set (h1 := mkHook _ _ _ _ _).
  destruct (startSchedulerIn_run host opts snapshot h1) as (w2 & _ & Hstart2).
  unfold mbind, MH_bind. rewrite Hstart2.
  unfold stopScheduler, stopSchedulerIn. cbn [timerRef isRunning].
  unfold mbind, MH_bind, clearInterval, setTimerRef, setIsRunning, inWorld. cbn.
  rewrite addNotification_run. eexists. split_and!; [done | done | done |]. cbn.
  rewrite decide_False by lia. rewrite decide_True by lia. by left.
Qed.

(** X26.  [startScheduler] followed by [stopScheduler], each called from
    the latest render: the timer registered by the start is cleared, so
    that the timers are those of before, the kept handle is dropped and
    the scheduler is marked as stopped. *)
Theorem startScheduler_then_stopScheduler host opts h :
  isRunning h = false →
  (∀ timer, timer ∈ intervals h → timer.1 ≤ lastHandle h) →
  ∃ h', (startScheduler host opts;; stopScheduler host) h = (Normal (), h')
    ∧ isRunning h' = false ∧ timerRef h' = None ∧ intervals h' = intervals h.
Proof.
  intros Hr Hfresh.
  destruct (startSchedulerIn_run host opts (tasks (world h)) h) as (w1 & _ & Hstart).
  unfold mbind at 1, MH_bind. unfold startScheduler. rewrite Hr, Hstart.
  unfold stopScheduler, stopSchedulerIn. cbn [timerRef isRunning].
  unfold mbind, MH_bind, clearInterval, setTimerRef, setIsRunning, inWorld. cbn.
  rewrite addNotification_run. eexists. split_and!; [done | done | done |]. cbn.
  rewrite decide_False by lia.
  apply filter_all, Forall_forall. intros timer Ht%Hfresh. lia.
Qed.

(** *** Notifications and recent summaries *)

(** X27.  [markNotificationAsRead] changes nothing but [read] flags: a
    notification that bears the identifier is the same notification
    marked as read, any other is as it was, their number and order are
    kept, and so is the rest of the state; doing it again changes
    nothing. *)
Theorem markNotificationAsRead_marks notificationId w :
  ∃ w', markNotificationAsRead notificationId w = (Normal (), w')
    ∧ length (notifications w') = length (notifications w)
    ∧ (∀ i n, notifications w !! i = Some n → n_id n = notificationId →
              notifications w' !! i
              = Some (mkNotification (n_id n) (n_type n) (n_message n) (n_timestamp n) true))
    ∧ (∀ i n, notifications w !! i = Some n → n_id n ≠ notificationId →
              notifications w' !! i = Some n)
    ∧ with_notifications (notifications w) w' = w
    ∧ markNotificationAsRead notificationId w' = (Normal (), w').
Proof.
  eexists. split; [reflexivity |]. cbn. split_and!.
  - by rewrite length_fmap.
  - intros i n Hi Hid. rewrite list_lookup_fmap, Hi. cbn. by rewrite decide_True.
  - intros i n Hi Hid. rewrite list_lookup_fmap, Hi. cbn. by rewrite decide_False.
  - by destruct w.
  - unfold markNotificationAsRead, modify. f_equal. unfold with_notifications. cbn.
    f_equal. rewrite <- list_fmap_compose. apply list_fmap_ext. intros i n _. cbn.
    destruct (decide (n_id n = notificationId)) as [Hid|Hid]; cbn.
    + by rewrite decide_True.
    + by rewrite decide_False.
Qed.

Lemma addSummary_new summary l :
  cs_id summary ∉ cs_id <$> l →
  addSummary summary l = take 10 (summary :: l).
Proof.
  intros Hnew. unfold addSummary.
  assert (list_find (λ s, cs_id s = cs_id summary) l = None) as ->.
  { apply list_find_None, Forall_forall. intros s Hs Hid. apply Hnew.
    apply list_elem_of_fmap. by exists s. }
  case_bool_decide as Hlen; [done |]. symmetry. apply take_ge. lia.
Qed.

(** X28.  [addSummary] never leaves more than ten summaries, whatever the
    list was, and it keeps the identifiers pairwise distinct. *)
Theorem addSummary_bounded summary l :
  (length (addSummary summary l) ≤ 10)%nat
  ∧ (NoDup (cs_id <$> l) → NoDup (cs_id <$> addSummary summary l)).
Proof.
  split.
  - unfold addSummary. case_bool_decide; [rewrite length_take |]; lia.
  - intros Hnd. unfold addSummary.
    set (u := match list_find _ l with Some (i, _) => <[i:=summary]> l | None => summary :: l end).
    assert (NoDup (cs_id <$> u)) as Hu.
    { subst u. destruct (list_find _ l) as [[i s]|] eqn:Hfind.
      - apply list_find_Some in Hfind as (Hi & Hid & _).
        rewrite list_fmap_insert, list_insert_id; [done |].
        by rewrite list_lookup_fmap, Hi; cbn; rewrite Hid.
      - rewrite fmap_cons. apply NoDup_cons. split; [| done].
        rewrite list_find_None, Forall_forall in Hfind.
        intros [s [Hid Hs]]%list_elem_of_fmap. by apply (Hfind s). }
    case_bool_decide; [| done].
    rewrite fmap_take. eapply sublist_NoDup; [exact Hu | apply sublist_take].
Qed.

(** X29.  After [addSummary] on a list of at most ten summaries, the
    first summary that bears the identifier is the one that was added. *)
Theorem addSummary_found summary l :
  (length l ≤ 10)%nat →
  ∃ i, list_find (λ s, cs_id s = cs_id summary) (addSummary summary l) = Some (i, summary).
Proof.
  intros Hlen. unfold addSummary.
  destruct (list_find _ l) as [[i s]|] eqn:Hfind.
  - rewrite bool_decide_eq_false_2 by (rewrite length_insert; lia).
    exists i. apply list_find_Some in Hfind as (Hi & Hid & Hleast).
    apply list_find_insert_Some. right; left.
    split_and!; [done | done | by eapply lookup_lt_Some | done | done].
  - exists 0%nat. case_bool_decide; by rewrite ?firstn_cons; cbn; rewrite decide_True.
Qed.

(** X30.  [removeSummary] after [addSummary] of a summary whose identifier
    is new to a list of at most ten summaries gives the first nine of the
    list: the list itself when it had fewer than ten, and the list without
    its last summary when it had ten. *)
Theorem addSummary_then_removeSummary summary l :
  cs_id summary ∉ cs_id <$> l → (length l ≤ 10)%nat →
  removeSummary (cs_id summary) (addSummary summary l) = take 9 l.
Proof.
  intros Hnew Hlen. rewrite addSummary_new by done. rewrite firstn_cons.
  unfold removeSummary. rewrite filter_cons_False by (intros H; by apply H).
  apply filter_all, Forall_forall. intros s Hs Hid. apply Hnew.
  apply list_elem_of_fmap. exists s. split; [done |].
  eapply elem_of_sublist; [done | apply sublist_take].
Qed.

End ControlMore.

(** ** More concrete runs *)

Module MoreExamples.
Import Lifecycle LifecycleMore ControlMore Examples.

Lemma updateTask_replaces_first_bearer_witness :
  ∃ w', updateTask host8 "a" weeklyUpdate (world_of [task_of "a" "daily" None true])
        = (Normal (), w')
    ∧ tasks w' !! 0%nat
      = Some (mergeTask (task_of "a" "daily" None true) weeklyUpdate
                (Some (clock host8 (reads (world_of [task_of "a" "daily" None true])))))
    ∧ length (tasks w') = length (tasks (world_of [task_of "a" "daily" None true]))
    ∧ (∀ j, j ≠ 0%nat →
            tasks w' !! j = tasks (world_of [task_of "a" "daily" None true]) !! j)
    ∧ calls w' = calls (world_of [task_of "a" "daily" None true]).
Proof.
  apply (updateTask_replaces_first_bearer host8 "a" weeklyUpdate
           (world_of [task_of "a" "daily" None true]) 0 (task_of "a" "daily" None true)).
  reflexivity.
Defined.

Lemma addTask_storage_refuses_witness :
  ∃ w' added n1 n2 msg,
    addTask fullHost (spec_of "daily" None) emptyWorld
    = (Normal (newTaskOf fullHost (spec_of "daily" None) emptyWorld), w')
    ∧ tasks w' = tasks emptyWorld ++ [newTaskOf fullHost (spec_of "daily" None) emptyWorld]
    ∧ localStorage w' = localStorage emptyWorld
    ∧ error w' = Some (JsError "QuotaExceededError" msg)
    ∧ notifications w' = added ++ notifications emptyWorld
    ∧ added ≡ₚ [n1; n2]
    ∧ n_type n1 = sev_success ∧ n_message n1 = "新任务已添加"
    ∧ n_type n2 = sev_error ∧ n_message n2 = "保存任务配置失败".
Proof.
  apply (addTask_storage_refuses fullHost (spec_of "daily" None) emptyWorld).
  reflexivity.
Defined.

Lemma runTask_unknown_id_witness :
  ∃ w' n, runTask host8 noCallback "zzz" emptyWorld = (Normal (), w')
    ∧ tasks w' = tasks emptyWorld ∧ localStorage w' = localStorage emptyWorld
    ∧ calls w' = calls emptyWorld
    ∧ currentTask w' = None
    ∧ error w' = Some (JsError "Error" "任务不存在")
    ∧ notifications w' = n :: notifications emptyWorld
    ∧ n_type n = sev_error ∧ n_message n = "任务执行失败: 任务不存在".
Proof.
  apply (runTask_unknown_id host8 noCallback "zzz" emptyWorld). by_decision.
Defined.

Lemma runTask_success_witness :
  ∃ w' now added n,
    runTask host8 accepting "a" (world_of [task_of "a" "daily" None true]) = (Normal (), w')
    ∧ find "a" (tasks w')
      = Some (mergeTask (task_of "a" "daily" None true)
                (successUpdate
                   (Some (clock host8 (reads (world_of [task_of "a" "daily" None true]))))
                   (Some 1706749200000))
                now)
    ∧ currentTask w' = None
    ∧ calls w' = match onTaskRun accepting with
                 | Some _ =>
                     task_of "a" "daily" None true
                     :: calls (world_of [task_of "a" "daily" None true])
                 | None => calls (world_of [task_of "a" "daily" None true])
                 end
    ∧ notifications w' = added ++ notifications (world_of [task_of "a" "daily" None true])
    ∧ n ∈ added ∧ n_type n = sev_success.
Proof.
  apply (runTask_success host8 accepting "a" (task_of "a" "daily" None true)
           (Some 1706749200000) (world_of [task_of "a" "daily" None true])
           (with_reads 3 (world_of [task_of "a" "daily" None true]))).
  - reflexivity.
  - intros cb [= <-]. reflexivity.
  - by vm_compute.
Defined.

Lemma storage_mirrors_collection_witness :
  ∃ w', forEach session (perform host8 noCallback) emptyWorld = (Normal (), w') ∧ synced w'.
Proof.
  apply (storage_mirrors_collection host8 noCallback session emptyWorld).
  - intros ts. reflexivity.
  - right. split; reflexivity.
Defined.

Lemma checkTasks_hands_each_due_task_once_witness :
  ∃ w', checkTasks host8 accepting
          (world_of [task_of "a" "daily" None true; task_of "b" "daily" None false])
        = (Normal (), w')
    ∧ calls w'
      = reverse (selected
                   (Some (clock host8
                      (reads (world_of [task_of "a" "daily" None true;
                                        task_of "b" "daily" None false]))))
                   (tasks (world_of [task_of "a" "daily" None true;
                                     task_of "b" "daily" None false])))
        ++ calls (world_of [task_of "a" "daily" None true; task_of "b" "daily" None false]).
Proof.
  apply (checkTasks_hands_each_due_task_once host8 accepting (λ _, Normal ())
           (world_of [task_of "a" "daily" None true; task_of "b" "daily" None false])).
  - reflexivity.
  - by_decision.
Defined.

Lemma saveTasks_then_loadTasks_witness :
  ∃ w', (saveTasks host8 [optionedTask];; loadTasks host8) emptyWorld = (Normal (), w')
    ∧ tasks w' = [optionedTask]
    ∧ localStorage w' = Some [optionedTask].
Proof.
  apply (saveTasks_then_loadTasks host8 [optionedTask] emptyWorld).
  - reflexivity.
  - apply Forall_cons_2; [| apply Forall_nil_2]. by repeat split.
  - apply Forall_cons_2; [| apply Forall_nil_2]. unfold plainOptions. cbn.
    repeat (apply Forall_cons_2; [reflexivity |]). apply Forall_nil_2.
Defined.

(** What JSON makes of the other values: a [Date] among the options comes
    back as a string, NaN and an infinity as [null], negative zero as
    zero, and a property holding [undefined] is gone. *)
Lemma options_through_JSON :
  jsonRecord [("since", VDate (Some jan31)); ("before", VDate (Some (-1)));
              ("until", VDate NaN); ("limit", VNaN); ("hook", VUndefined);
              ("zero", VNegativeZero); ("sizes", VArray [VUndefined; VInfinity true])]
  = [("since", VString "2024-01-31T10:00:00.000Z");
     ("before", VString "1969-12-31T23:59:59.999Z");
     ("until", VNull); ("limit", VNull); ("zero", VNumber 0);
     ("sizes", VArray [VNull; VNull])]
  ∧ toISOString 253402300800000 = "+010000-01-01T00:00:00.000Z"
  ∧ toISOString (-62198755200000) = "-000001-01-01T00:00:00.000Z".
Proof. by vm_compute. Qed.

Lemma reload_makes_invalid_date_due_witness :
  ∃ w' task', (saveTasks host8 [invalidTask];; loadTasks host8) emptyWorld = (Normal (), w')
    ∧ tasks w' !! 0%nat = Some task'
    ∧ id task' = id invalidTask ∧ nextRunTime task' = Some 0
    ∧ (∀ now, isDue now invalidTask = false)
    ∧ (∀ now, 0 ≤ now → isDue (Some now) task' = true).
Proof.
  apply (reload_makes_invalid_date_due host8 [invalidTask] emptyWorld 0 invalidTask);
    reflexivity.
Defined.

Lemma startScheduler_timer_cleared_by_rerender_witness :
  ∃ h', (startScheduler host8 accepting;; rerenders host8 accepting 1)
          (stoppedHook emptyWorld) = (Normal (), h')
    ∧ isRunning h' = true
    ∧ timerRef h' = Some (lastHandle (stoppedHook emptyWorld) + 1)
    ∧ intervals h' = intervals (stoppedHook emptyWorld).
Proof.
  apply (startScheduler_timer_cleared_by_rerender host8 accepting (stoppedHook emptyWorld) 0).
  - reflexivity.
  - intros timer Ht. by apply elem_of_nil in Ht.
Defined.

Lemma mountEffect_leaves_no_timer_witness :
  ∃ h', (mountEffect host8 accepting false (tasks (world (stoppedHook emptyWorld)));;
         rerenders host8 accepting 1) (stoppedHook emptyWorld) = (Normal (), h')
    ∧ isRunning h' = autoStart accepting
    ∧ intervals h' = intervals (stoppedHook emptyWorld).
Proof.
  apply (mountEffect_leaves_no_timer host8 accepting (stoppedHook emptyWorld) 0).
  - reflexivity.
  - reflexivity.
  - intros timer Ht. by apply elem_of_nil in Ht.
Defined.

Lemma startScheduler_then_stopScheduler_witness :
  ∃ h', (startScheduler host8 accepting;; stopScheduler host8) (stoppedHook emptyWorld)
        = (Normal (), h')
    ∧ isRunning h' = false ∧ timerRef h' = None
    ∧ intervals h' = intervals (stoppedHook emptyWorld).
Proof.
  apply (startScheduler_then_stopScheduler host8 accepting (stoppedHook emptyWorld)).
  - reflexivity.
  - intros timer Ht. by apply elem_of_nil in Ht.
Defined.

Lemma addSummary_found_witness :
  ∃ i, list_find (λ s, cs_id s = cs_id (summary_of "s1"))
         (addSummary (summary_of "s1") [summary_of "s0"; summary_of "s1"])
       = Some (i, summary_of "s1").
Proof.
  apply (addSummary_found (summary_of "s1") [summary_of "s0"; summary_of "s1"]). cbn. lia.
Defined.

Lemma addSummary_then_removeSummary_witness :
  removeSummary (cs_id (summary_of "s2")) (addSummary (summary_of "s2") [summary_of "s0"])
  = take 9 [summary_of "s0"].
Proof.
  apply (addSummary_then_removeSummary (summary_of "s2") [summary_of "s0"]).
  - by_decision.
  - cbn. lia.
Defined.

End MoreExamples.
